(** * SIGE Enturmação dashboard (app.py): report normalisation, stage
      extraction, filtering and workbook export.

    A shallow embedding of [src/app.py].  Python values are modelled as
    follows.

    - A Python [str] is a list of Unicode code points ([str := list N]);
      literals are written [u "..."] and decoded from UTF-8.
    - A pandas cell is a [valor]: [NaN] (missing), a text [Str], an
      integer [Int] or a float [Float].  A float64 is an infinity or a
      sign, a mantissa and a binary exponent; its string form is the
      shortest decimal number that gives it back, as [repr] computes it.
      Cells of other types (booleans, dates) are outside the model.  A
      [Series] is a list of cells, a [DataFrame] a record of the column
      names, in order, and the rows.
    - [pd.to_numeric] is modelled on the whole column, as pandas decides
      between an int64, a uint64 and a float64 result on the whole
      column; [.astype(int)] stores 64-bit signed integers.  Where pandas
      versions differ (a missing cell under [.astype(str)]), the model
      follows pandas 3.
    - Exceptions are modelled by the [result] type; the file system, the
      clock and [pd.read_csv] are explicit parameters of the functions
      that use them. *)

From Stdlib Require Import List ZArith NArith QArith Lia Bool String Ascii.
From Stdlib Require Import Sorting.Sorted Sorting.Permutation.
Import ListNotations.

Close Scope Q_scope.


Open Scope list_scope.

(* ===================================================================== *)
(** ** Python strings *)
(* ===================================================================== *)

Module Py.

(** A code point. *)
Definition char := N.

(** A Python [str]: a sequence of code points. *)
Definition str := list char.

Open Scope N_scope.

(** Decoding of a UTF-8 byte string; [k] continuation bytes are still
    expected for the code point accumulated in [acc]. *)
Fixpoint utf8_decode (s : string) (acc : N) (k : nat) : str :=
  match s with
  | EmptyString => []
  | String a s' =>
      let b := N_of_ascii a in
      match k with
      | O => if b <? 128 then b :: utf8_decode s' 0 0
             else if b <? 224 then utf8_decode s' (b - 192) 1
             else if b <? 240 then utf8_decode s' (b - 224) 2
             else utf8_decode s' (b - 240) 3
      | S O => (acc * 64 + (b - 128)) :: utf8_decode s' 0 0
      | S k' => utf8_decode s' (acc * 64 + (b - 128)) k'
      end
  end.

(** [u "text"] is the Python literal ["text"]. *)
Definition u (s : string) : str := utf8_decode s 0 0.
Arguments u s%_string.

Definition str_eqb (a b : str) : bool :=
  if list_eq_dec N.eq_dec a b then true else false.

(** [str.isspace] on one character, as [str.strip()] uses it: the code
    points CPython's [_PyUnicode_IsWhitespace] accepts. *)
Definition isspace (c : char) : bool :=
  ((9 <=? c) && (c <=? 13)) || ((28 <=? c) && (c <=? 32))
  || (c =? 133) || (c =? 160) || (c =? 5760)
  || ((8192 <=? c) && (c <=? 8202))
  || (c =? 8232) || (c =? 8233) || (c =? 8239) || (c =? 8287)
  || (c =? 12288).

Fixpoint lstrip (s : str) : str :=
  match s with
  | [] => []
  | c :: s' => if isspace c then lstrip s' else s
  end.

Definition rstrip (s : str) : str := rev (lstrip (rev s)).

(** [s.strip()] *)
Definition strip (s : str) : str := rstrip (lstrip s).

(** [s.startswith(p)] *)
Fixpoint startswith (p s : str) : bool :=
  match p, s with
  | [], _ => true
  | _ :: _, [] => false
  | a :: p', b :: s' => (a =? b) && startswith p' s'
  end.

(** [p in s]: [p] occurs in [s] as a substring. *)
Fixpoint contains (p s : str) : bool :=
  startswith p s ||
  match s with
  | [] => false
  | _ :: s' => contains p s'
  end.

(** [s.split(sep)] for a non-empty separator: a left-to-right scan over
    non-overlapping occurrences.  [skip] characters of a separator just
    matched are still to be passed over; [cur] is the field read so far,
    in reverse. *)
Fixpoint split_aux (sep : str) (skip : nat) (cur : str) (s : str)
  : list str :=
  match s with
  | [] => [rev cur]
  | c :: s' =>
      match skip with
      | S k => split_aux sep k cur s'
      | O => if startswith sep s
             then rev cur :: split_aux sep (List.length sep - 1) [] s'
             else split_aux sep 0 (c :: cur) s'
      end
  end.

Definition split (sep s : str) : list str := split_aux sep 0 [] s.

(** The cut at the rightmost occurrence of [sep] in [s], if any: the text
    before it and the text after it. *)
Fixpoint rfind_cut (sep s : str) : option (str * str) :=
  match s with
  | [] => None
  | c :: s' =>
      match rfind_cut sep s' with
      | Some (a, b) => Some (c :: a, b)
      | None => if startswith sep s
                then Some ([], skipn (List.length sep) s)
                else None
      end
  end.

(** [s.rsplit(sep, 1)] for a non-empty separator: at most one split, at
    the rightmost occurrence. *)
Definition rsplit1 (sep s : str) : list str :=
  match rfind_cut sep s with
  | Some (a, b) => [a; b]
  | None => [s]
  end.

(** [s.replace(old, new)] for a one-character [old]. *)
Fixpoint replace (old : char) (new : str) (s : str) : str :=
  match s with
  | [] => []
  | c :: s' => if c =? old then new ++ replace old new s'
               else c :: replace old new s'
  end.

(** Lexicographic comparison of strings by code point: [a <= b]. *)
Fixpoint str_leb (a b : str) : bool :=
  match a, b with
  | [], _ => true
  | _ :: _, [] => false
  | x :: a', y :: b' => (x <? y) || ((x =? y) && str_leb a' b')
  end.

(** Decimal digits of [n], most significant first; [fuel] bounds the
    number of digits. *)
Fixpoint digits_aux (fuel : nat) (n : N) (acc : str) : str :=
  match fuel with
  | O => acc
  | S f => if n <? 10 then (48 + n) :: acc
           else digits_aux f (n / 10) ((48 + n mod 10) :: acc)
  end.

(** [str(n)] for a non-negative integer. *)
Definition str_of_N (n : N) : str :=
  digits_aux (S (N.to_nat (N.size n))) n [].

(** [str(z)] for an integer. *)
Definition str_of_Z (z : Z) : str :=
  match z with
  | Zneg p => 45 :: str_of_N (Npos p)
  | _ => str_of_N (Z.to_N z)
  end.

Close Scope N_scope.

End Py.

Import Py.

(* ===================================================================== *)
(** ** Floating point numbers *)
(* ===================================================================== *)

(** A float64 that is no NaN: an infinity, or the number
    (-1)^neg * m * 2^e.  The float64 of pandas that is a NaN is the
    missing cell. *)
Inductive float64 :=
| Inf (neg : bool)
| Fin (neg : bool) (m : N) (e : Z).

Module F64.

Open Scope N_scope.

(** The fraction [n/d] scaled by [2^k] or by [10^k]: numerator and
    denominator. *)
Definition scale (b : N) (nd : N * N) (k : Z) : N * N :=
  let '(n, d) := nd in
  match k with
  | Zneg p => (n, d * b ^ Npos p)
  | _ => (n * b ^ Z.to_N k, d)
  end.

(** The magnitude of a finite float as a fraction. *)
Definition frac (m : N) (e : Z) : N * N := scale 2 (m, 1) e.

(** [n/d] rounded to an integer, a tie to the even one. *)
Definition round_half_even (n d : N) : N :=
  let q := n / d in
  let r := n mod d in
  if 2 * r <? d then q
  else if d <? 2 * r then q + 1
  else if N.even q then q else q + 1.

(** The float64 nearest to [n/d], for [n] and [d] positive, a tie to the
    even mantissa: the mantissa has 53 bits, or fewer at the exponent
    -1074 of the subnormal numbers; from 2^1024 on the result is
    infinite. *)
Definition nearest (neg : bool) (n d : N) : float64 :=
  if n =? 0 then Fin neg 0 0
  else
    let k := (Z.of_N (N.log2 n) - Z.of_N (N.log2 d))%Z in
    let e1 := Z.max (k - 52) (-1074) in
    let '(n1, d1) := scale 2 (n, d) (- e1) in
    let e := if (n1 / d1 <? 2 ^ 52) && (-1074 <? e1)%Z
             then (e1 - 1)%Z else e1 in
    let '(n2, d2) := scale 2 (n, d) (- e) in
    let m := round_half_even n2 d2 in
    if (971 <? e)%Z || ((971 =? e)%Z && (2 ^ 53 <=? m)) then Inf neg
    else Fin neg m e.

(** The float64 nearest to the decimal number [m * 10^k]. *)
Definition of_decimal (neg : bool) (m : N) (k : Z) : float64 :=
  let '(n, d) := scale 10 (m, 1) k in nearest neg n d.

(** [a = b] on magnitudes given as fractions. *)
Definition frac_eqb (a b : N * N) : bool :=
  (fst a * snd b =? fst b * snd a).

Definition frac_leb (a b : N * N) : bool :=
  (fst a * snd b <=? fst b * snd a).

(** The position of the decimal point of [n/d], positive: the [p] with
    [10^(p-1) <= n/d < 10^p]. *)
Definition decpt (n d : N) : Z :=
  let k := (Z.of_nat (List.length (str_of_N n))
            - Z.of_nat (List.length (str_of_N d)))%Z in
  if frac_leb (scale 10 (1, 1) k) (n, d) then (k + 1)%Z else k.

(** The [nd]-digit decimal numbers next to [n/d], whose decimal point is
    at [p]: the one below and the remainder that tells which is nearer. *)
Definition candidates (n d : N) (p : Z) (nd : nat) : N * N * N :=
  let '(n', d') := scale 10 (n, d) (Z.of_nat nd - p) in
  (n' / d', n' mod d', d').

(** Does the decimal number [c * 10^(p - nd)] round to [n/d]. *)
Definition gives (n d : N) (p : Z) (nd : nat) (c : N) : bool :=
  match of_decimal false c (p - Z.of_nat nd) with
  | Fin _ m e => frac_eqb (frac m e) (n, d)
  | Inf _ => false
  end.

(** The shortest decimal number that rounds to [n/d], tried with [nd],
    [nd + 1], ... digits; with 17 digits the nearest is taken. *)
Fixpoint shortest (fuel : nat) (n d : N) (p : Z) (nd : nat) : N * nat :=
  let '(lo, r, d') := candidates n d p nd in
  let near := if 2 * r <? d' then lo
              else if d' <? 2 * r then lo + 1
              else if N.even lo then lo else lo + 1 in
  match fuel with
  | O => (near, nd)
  | S fuel' =>
      let ok_lo := gives n d p nd lo in
      let ok_hi := gives n d p nd (lo + 1) in
      if ok_lo && ok_hi then (near, nd)
      else if ok_lo then (lo, nd)
      else if ok_hi then (lo + 1, nd)
      else shortest fuel' n d p (S nd)
  end.

Fixpoint strip_zeros_rev (s : str) : str :=
  match s with
  | [] => []
  | c :: s' => if c =? 48 then strip_zeros_rev s' else s
  end.

(** The digits of the shortest decimal number, without trailing zeros,
    and the position of its decimal point. *)
Definition digits (m : N) (e : Z) : str * Z :=
  let '(n, d) := frac m e in
  let p := decpt n d in
  let '(c, nd) := shortest 16 n d p 1 in
  let ds := str_of_N c in
  (rev (strip_zeros_rev (rev ds)),
   (p + Z.of_nat (List.length ds) - Z.of_nat nd)%Z).

Definition zeros (k : nat) : str := repeat 48 k.

(** The exponent of the scientific notation: a sign and at least two
    digits. *)
Definition exponent (x : Z) : str :=
  let a := Z.abs_N x in
  (if (x <? 0)%Z then 45 else 43)
    :: (if a <? 10 then 48 :: str_of_N a else str_of_N a).

(** [repr(x)], which is [str(x)], for a positive finite float: the
    shortest digits that give the float back, in positional notation when
    the decimal point lies within 16 digits after or 4 before the first
    digit, in scientific notation otherwise. *)
Definition repr_pos (m : N) (e : Z) : str :=
  let '(ds, p) := digits m e in
  let k := List.length ds in
  if (p <=? -4)%Z || (16 <? p)%Z then
    match ds with
    | [] => []
    | c :: rest =>
        (c :: match rest with [] => [] | _ :: _ => 46 :: rest end)
        ++ 101 :: exponent (p - 1)
    end
  else if (p <=? 0)%Z then
    48 :: 46 :: zeros (Z.to_nat (- p)) ++ ds
  else if (Z.of_nat k <=? p)%Z then
    ds ++ zeros (Z.to_nat p - k) ++ [46; 48]
  else
    firstn (Z.to_nat p) ds ++ 46 :: skipn (Z.to_nat p) ds.

Definition repr (x : float64) : str :=
  match x with
  | Inf neg => if neg then u "-inf" else u "inf"
  | Fin neg m e =>
      (if neg then [45] else [])
      ++ (if m =? 0 then u "0.0" else repr_pos m e)
  end.

Close Scope N_scope.

End F64.

(* ===================================================================== *)
(** ** pandas values *)
(* ===================================================================== *)

(** A cell of a frame: missing ([NaN], which also stands for [None]), a
    text, an integer or a float. *)
Inductive valor :=
| NaN
| Str (s : str)
| Int (z : Z)
| Float (x : float64).

(** [pd.isna(v)] *)
Definition isna (v : valor) : bool :=
  match v with NaN => true | _ => false end.

(** [str(v)] *)
Definition py_str (v : valor) : str :=
  match v with
  | NaN => u "nan"
  | Str s => s
  | Int z => str_of_Z z
  | Float x => F64.repr x
  end.

(* ===================================================================== *)
(** ** Stage extractor (app.py, lines 62-74) *)
(* ===================================================================== *)

Definition extrair_etapa (desc : valor) : str :=
  if isna desc then u ""
  else
    let s := strip (py_str desc) in
    if contains (u "|") s then
      let parte := strip (nth 0 (split (u "|") s) []) in
      if contains (u " - ") parte
      then strip (last (rsplit1 (u " - ") parte) [])
      else parte
    else if str_eqb s (u "TOTAL SECRETARIA") then u "TOTAL SECRETARIA"
    else u "Total escola".


(* ===================================================================== *)
(** ** Exceptions *)
(* ===================================================================== *)

Inductive exn :=
| KeyError              (* a column that the frame does not have *)
| TypeError             (* comparison of a text with a number, [len] of a
                           missing cell *)
| ValueError            (* a column letter that is none, a duplicate
                           column, a sheet that is too large *)
| OverflowError         (* an integer beyond int64 *)
| IntCastingNaNError    (* a non-finite float converted to int *)
| IllegalCharacterError (* a control character in the text of a cell *)
| OSError               (* the file system refuses a path *)
| ReadError.            (* anything [pd.read_csv] or a file read raises *)

Inductive result (A : Type) :=
| Ok (a : A)
| Raise (e : exn).
Arguments Ok {A} a.
Arguments Raise {A} e.

Definition bind {A B} (m : result A) (k : A -> result B) : result B :=
  match m with
  | Ok a => k a
  | Raise e => Raise e
  end.

Notation "x <- m ;; k" := (bind m (fun x => k))
  (at level 61, m at next level, right associativity).

(** The elements of a list converted one by one; the first exception
    wins. *)
Fixpoint mapM {A B} (f : A -> result B) (l : list A) : result (list B) :=
  match l with
  | [] => Ok []
  | a :: l' => b <- f a ;; bs <- mapM f l' ;; Ok (b :: bs)
  end.

(* ===================================================================== *)
(** ** Numeric normaliser (app.py, line 56) *)
(* ===================================================================== *)

(** A column. *)
Definition Series := list valor.

(** [s.astype(str)]: the string form of each cell; a missing cell stays
    missing. *)
Definition astype_str (s : Series) : list (option str) :=
  map (fun v => if isna v then None else Some (py_str v)) s.

(** [s.str.replace(old, new, regex=False)] for a one-character [old]. *)
Definition str_replace (old : char) (new : str) (s : list (option str))
  : list (option str) :=
  map (option_map (replace old new)) s.

Open Scope N_scope.

Definition isdigit (c : char) : bool := (48 <=? c) && (c <=? 57).

(** White space as the number parser of pandas skips it: space, and tab
    to carriage return. *)
Definition isspace_ascii (c : char) : bool :=
  (c =? 32) || ((9 <=? c) && (c <=? 13)).

Definition lower (c : char) : char :=
  if (65 <=? c) && (c <=? 90) then c + 32 else c.

(** A cell of a float64 column that [pd.to_numeric] returns on line 56.
    Every finite value is a non-negative integer, because the text has
    lost its dots and dashes before it is parsed. *)
Inductive numeric :=
| FNaN              (* not a number: missing, empty or unparseable *)
| FInf              (* positive infinity *)
| Num (n : N).      (* a finite value *)

(** The run of digits at the head of [s]: its value on top of [acc], the
    number of digits on top of [cnt], and the text left. *)
Fixpoint read_digits (s : str) (acc : N) (cnt : nat) : N * nat * str :=
  match s with
  | [] => (acc, cnt, [])
  | c :: s' => if isdigit c
               then read_digits s' (acc * 10 + (c - 48)) (S cnt)
               else (acc, cnt, s)
  end.

Fixpoint skip_ws (s : str) : str :=
  match s with
  | [] => []
  | c :: s' => if isspace_ascii c then skip_ws s' else s
  end.

(** An optional plus sign.  A minus sign cannot reach the parser. *)
Definition skip_sign (s : str) : str :=
  match s with
  | [] => []
  | c :: s' => if c =? 43 then s' else s
  end.

(** The literal of a finite number: digits alone, with their value and
    their count, or a mantissa and an exponent. *)
Inductive literal :=
| Inteiro (n : N) (k : nat)
| Exponencial (m e : N).

(** The literals of a finite number in a text without dot and dash:
    white space, an optional sign, digits, an optional exponent ([e] or
    [E], optional sign, digits), white space. *)
Definition parse_number (s : str) : option literal :=
  let '(m, k, s2) := read_digits (skip_sign (skip_ws s)) 0 0 in
  match k with
  | O => None
  | S _ =>
      match s2 with
      | [] => Some (Inteiro m k)
      | c :: s3 =>
          if (c =? 101) || (c =? 69) then
            let '(e, ke, s4) := read_digits (skip_sign s3) 0 0 in
            match ke, skip_ws s4 with
            | S _, [] => Some (Exponencial m e)
            | _, _ => None
            end
          else
            match skip_ws s2 with
            | [] => Some (Inteiro m k)
            | _ :: _ => None
            end
      end
  end.

(** The spellings of infinity that the parser accepts when the text is
    no number, compared without regard to case. *)
Definition is_inf_literal (s : str) : bool :=
  existsb (str_eqb (map lower s))
    [u "inf"; u "+inf"; u "infinity"; u "+infinity"].

(** The float64 nearest to the integer [n], a tie to the even mantissa:
    [n] itself below 2^53, infinity from 2^1024 on. *)
Definition to_double (n : N) : numeric :=
  if n <? 2 ^ 53 then Num n
  else
    let s := N.log2 n - 52 in
    let v := F64.round_half_even n (2 ^ s) * 2 ^ s in
    if v <? 2 ^ 1024 then Num v else FInf.

(** The float64 of the literal [m]e[e]; from 10^400 on a value is beyond
    every double. *)
Definition exp_value (m e : N) : numeric :=
  if m =? 0 then Num 0
  else if 400 <? e then FInf
  else to_double (m * 10 ^ e).

(** The text as a parser written in C sees it: up to the first null
    character. *)
Fixpoint c_str (s : str) : str :=
  match s with
  | [] => []
  | c :: s' => if c =? 0 then [] else c :: c_str s'
  end.

(** What the parser makes of one cell: nothing, an integer, or a float.
    The text is first read as a float, by a parser written in C; a
    literal of digits alone is then an integer, which Python's [int]
    reads from the whole text: [int] refuses a null character and more
    than 4300 digits. *)
Inductive parsed :=
| PNull
| PInt (n : N)
| PFloat (x : numeric).

Definition parse_cell (t : option str) : parsed :=
  match t with
  | None => PNull
  | Some s =>
      match parse_number (c_str s) with
      | Some (Inteiro n k) =>
          if existsb (N.eqb 0) s || (4300 <? N.of_nat k) then PNull
          else PInt n
      | Some (Exponencial m e) => PFloat (exp_value m e)
      | None => if is_inf_literal (c_str s) then PFloat FInf else PNull
      end
  end.

Definition is_null (p : parsed) : bool :=
  match p with PNull => true | _ => false end.

(** An integer that only a uint64 holds. *)
Definition is_uint (p : parsed) : bool :=
  match p with PInt n => (2 ^ 63 <=? n) && (n <? 2 ^ 64) | _ => false end.

(** A float, or an integer beyond uint64, which is kept as a float. *)
Definition is_float (p : parsed) : bool :=
  match p with
  | PFloat _ => true
  | PInt n => 2 ^ 64 <=? n
  | PNull => false
  end.

(** The cell as a float64 and as an integer. *)
Definition fval (p : parsed) : numeric :=
  match p with
  | PNull => FNaN
  | PInt n => to_double n
  | PFloat x => x
  end.

Definition ival (p : parsed) : N :=
  match p with PInt n => n | _ => 0 end.

(** The column [pd.to_numeric(..., errors="coerce")] returns. *)
Inductive convertida :=
| Objetos              (* the texts as they were: no number column *)
| Floats (xs : list numeric)
| UInts (ns : list N)
| Ints (ns : list N).

(** [pd.to_numeric(s, errors="coerce")] on a column of texts.  The type
    of the result is decided on the whole column: float64 as soon as one
    cell is no integer (a missing or unparseable cell, a float, an integer
    beyond uint64), uint64 when an integer is beyond int64, int64
    otherwise; a column that would need both uint64 and a missing value
    is not converted. *)
Definition to_numeric (s : list (option str)) : convertida :=
  let ps := map parse_cell s in
  if existsb is_uint ps && existsb is_null ps then Objetos
  else if existsb is_null ps || existsb is_float ps then Floats (map fval ps)
  else if existsb is_uint ps then UInts (map ival ps)
  else Ints (map ival ps).

(** [.fillna(0)], on one cell and on the column. *)
Definition preencher (x : numeric) : numeric :=
  match x with FNaN => Num 0 | _ => x end.

Definition fillna0 (c : convertida) : convertida :=
  match c with
  | Floats xs => Floats (map preencher xs)
  | _ => c
  end.

Close Scope N_scope.
Open Scope Z_scope.

(** A uint64 stored in a 64-bit signed integer: the values from 2^63 on
    wrap around. *)
Definition wrap64 (n : N) : Z :=
  if (n <? 2 ^ 63)%N then Z.of_N n else Z.of_N n - 2 ^ 64.

(** A float64 stored in a 64-bit signed integer: a non-finite value
    raises; a finite value beyond int64 is stored as -2^63, as the
    conversion of x86-64 leaves it. *)
Definition float_to_int (x : numeric) : result Z :=
  match x with
  | FNaN | FInf => Raise IntCastingNaNError
  | Num n => Ok (if (n <? 2 ^ 63)%N then Z.of_N n else - 2 ^ 63)
  end.

(** [.astype(int)].  A column that was not converted holds a text of an
    integer beyond int64, on which the conversion fails. *)
Definition astype_int (c : convertida) : result (list Z) :=
  match c with
  | Objetos => Raise OverflowError
  | Floats xs => mapM float_to_int xs
  | UInts ns => Ok (map wrap64 ns)
  | Ints ns => Ok (map Z.of_N ns)
  end.

Close Scope Z_scope.

(** The expression of line 56 on one column:
    [pd.to_numeric(s.astype(str).str.replace(".", "", regex=False)
       .str.replace("-", "0", regex=False), errors="coerce")
       .fillna(0).astype(int)]. *)
Definition normalizar (s : Series) : result (list Z) :=
  let textos := astype_str s in
  let sem_ponto := str_replace 46%N [] textos in
  let sem_traco := str_replace 45%N [48%N] sem_ponto in
  let numeros := to_numeric sem_traco in
  astype_int (fillna0 numeros).

(* ===================================================================== *)
(** ** Frames *)
(* ===================================================================== *)

(** A frame: the column names in order, and the rows.  A row shorter than
    the list of columns reads as [NaN] in the missing places, as
    [pd.read_csv] fills them. *)
Record DataFrame := mkDataFrame {
  columns : list str;
  rows : list (list valor)
}.

(** Position of the first column called [col]. *)
Fixpoint col_index (col : str) (cols : list str) : option nat :=
  match cols with
  | [] => None
  | c :: cs => if str_eqb c col then Some O
               else option_map S (col_index col cs)
  end.

(** [col in df.columns] *)
Definition has_col (df : DataFrame) (col : str) : bool :=
  match col_index col (columns df) with Some _ => true | None => false end.

(** The cell of row [r] in position [i]. *)
Definition cell (i : nat) (r : list valor) : valor := nth i r NaN.

(** [df[col]] *)
Definition get_col (df : DataFrame) (col : str) : result Series :=
  match col_index col (columns df) with
  | Some i => Ok (map (cell i) (rows df))
  | None => Raise KeyError
  end.

(** Row [r] with the cell in position [i] set to [v]. *)
Fixpoint set_cell (i : nat) (v : valor) (r : list valor) : list valor :=
  match i, r with
  | O, [] => [v]
  | O, _ :: r' => v :: r'
  | S i', [] => NaN :: set_cell i' v []
  | S i', x :: r' => x :: set_cell i' v r'
  end.

(** The rows with the cells of [s], one per row, written by [f]. *)
Fixpoint zip_rows (f : valor -> list valor -> list valor)
  (s : Series) (rs : list (list valor)) : list (list valor) :=
  match s, rs with
  | v :: s', r :: rs' => f v r :: zip_rows f s' rs'
  | _, _ => rs
  end.

(** [df[col] = s]: an existing column is overwritten in place, a new one
    is appended. *)
Definition set_col (df : DataFrame) (col : str) (s : Series) : DataFrame :=
  match col_index col (columns df) with
  | Some i => mkDataFrame (columns df) (zip_rows (set_cell i) s (rows df))
  | None =>
      let n := List.length (columns df) in
      mkDataFrame (columns df ++ [col]) (zip_rows (set_cell n) s (rows df))
  end.

(** [df[mask]]: the rows whose mask entry is true. *)
Fixpoint select_rows (mask : list bool) (rs : list (list valor))
  : list (list valor) :=
  match mask, rs with
  | b :: mask', r :: rs' =>
      if b then r :: select_rows mask' rs' else select_rows mask' rs'
  | _, _ => []
  end.

Definition select (df : DataFrame) (mask : list bool) : DataFrame :=
  mkDataFrame (columns df) (select_rows mask (rows df)).

(** [a & b] on boolean columns. *)
Fixpoint mask_and (a b : list bool) : list bool :=
  match a, b with
  | x :: a', y :: b' => (x && y) :: mask_and a' b'
  | _, _ => []
  end.

(** A number: a rational or an infinity. *)
Inductive numero :=
| MenosInf
| Racional (q : Q)
| MaisInf.

(** The value of a finite float. *)
Definition float_Q (neg : bool) (m : N) (e : Z) : Q :=
  let z := if neg then (- Z.of_N m)%Z else Z.of_N m in
  match e with
  | Zneg p => Qmake z (2 ^ p)%positive
  | _ => inject_Z (z * 2 ^ e)%Z
  end.

(** The number a cell holds, if it holds one. *)
Definition numero_de (v : valor) : option numero :=
  match v with
  | Int z => Some (Racional (inject_Z z))
  | Float (Inf neg) => Some (if neg then MenosInf else MaisInf)
  | Float (Fin neg m e) => Some (Racional (float_Q neg m e))
  | _ => None
  end.

Definition numero_eqb (a b : numero) : bool :=
  match a, b with
  | MenosInf, MenosInf | MaisInf, MaisInf => true
  | Racional p, Racional q => Qeq_bool p q
  | _, _ => false
  end.

Definition numero_leb (a b : numero) : bool :=
  match a, b with
  | MenosInf, _ | _, MaisInf => true
  | Racional p, Racional q => Qle_bool p q
  | _, _ => false
  end.

(** [x == y] on cells: texts are equal as texts, numbers by their value,
    an integer and a float alike; a missing cell equals nothing. *)
Definition valor_eqb (x y : valor) : bool :=
  match x, y with
  | Str a, Str b => str_eqb a b
  | _, _ =>
      match numero_de x, numero_de y with
      | Some a, Some b => numero_eqb a b
      | _, _ => false
      end
  end.

(** [s == x] *)
Definition series_eq (s : Series) (x : valor) : list bool :=
  map (fun v => valor_eqb v x) s.

(** Membership of a cell in a list of values as [isin] tests it: unlike
    [==], a missing cell is found in a list that holds a missing value. *)
Definition valor_in (v : valor) (xs : list valor) : bool :=
  existsb (fun x => valor_eqb v x || (isna v && isna x)) xs.

(** [s.isin(xs)] *)
Definition isin (s : Series) (xs : list valor) : list bool :=
  map (fun v => valor_in v xs) s.

(* ===================================================================== *)
(** ** Table loader (app.py, lines 44-59) *)
(* ===================================================================== *)

Definition COLUNAS_NUMERICAS : list str :=
  [u "Mat. Total"; u "Não Enturmados"; u "Enturmados";
   u "Quantidade de Turmas"; u "Mat. Presencial"; u "Mat. Semipresencial"].

(** The loop of lines 54-56 over the columns [cols]. *)
Fixpoint normalizar_colunas (cols : list str) (df : DataFrame)
  : result DataFrame :=
  match cols with
  | [] => Ok df
  | col :: rest =>
      if has_col df col then
        s <- get_col df col ;;
        zs <- normalizar s ;;
        normalizar_colunas rest (set_col df col (map Int zs))
      else normalizar_colunas rest df
  end.

Section Loader.

(** The file system and the CSV reader of pandas are taken as given:
    [path_exists] is [caminho.exists()], which answers or raises (an
    [OSError] on a path the file system refuses), [read_csv] is
    [pd.read_csv(caminho, sep=";", encoding="utf-8-sig")], which returns
    a frame or raises. *)
Variable Path : Type.
Variable path_exists : Path -> result bool.
Variable read_csv : Path -> result DataFrame.

(** [None] is the "no data" result.  The test of line 50 stands before
    the [try]: what it raises reaches the caller. *)
Definition carregar_csv (caminho : Path) : result (option DataFrame) :=
  existe <- path_exists caminho ;;
  if negb existe then Ok None
  else
    match (df <- read_csv caminho ;;
           normalizar_colunas COLUNAS_NUMERICAS df) with
    | Ok df => Ok (Some df)
    | Raise _ => Ok None
    end.

End Loader.

(* ===================================================================== *)
(** ** Derived column and filters (app.py, main, lines 289-310) *)
(* ===================================================================== *)

(** [df["Etapa"] = df["Descricao"].map(extrair_etapa)] *)
Definition derivar_etapa (df : DataFrame) : result DataFrame :=
  s <- get_col df (u "Descricao") ;;
  Ok (set_col df (u "Etapa") (map (fun d => Str (extrair_etapa d)) s)).

Definition TODOS_OS_MUNICIPIOS : str := u "Todos os Municípios".

(** Truth value of a Python list. *)
Definition truthy {A} (l : list A) : bool :=
  match l with [] => false | _ :: _ => true end.

(** Lines 303-310. *)
Definition aplicar_filtros (df : DataFrame) (sel_municipio : valor)
  (sel_etapas sel_status : list valor) : result DataFrame :=
  let mask := repeat true (List.length (rows df)) in
  mask1 <- (if negb (valor_eqb sel_municipio (Str TODOS_OS_MUNICIPIOS))
            then s <- get_col df (u "Municipio") ;;
                 Ok (mask_and mask (series_eq s sel_municipio))
            else Ok mask) ;;
  mask2 <- (if truthy sel_etapas
            then s <- get_col df (u "Etapa") ;;
                 Ok (mask_and mask1 (isin s sel_etapas))
            else Ok mask1) ;;
  mask3 <- (if truthy sel_status
            then s <- get_col df (u "Status") ;;
                 Ok (mask_and mask2 (isin s sel_status))
            else Ok mask2) ;;
  Ok (select df mask3).

(* ===================================================================== *)
(** ** Workbooks (app.py, lines 77-223) *)
(* ===================================================================== *)

(** The surroundings an export reads: the marker file
    [ultima_extracao.txt] and the clock.  [relogio k] is what the clock
    shows when it is read for the [k]-th time during a call, counted
    from 0. *)
Record datetime := mkDatetime {
  ano : N; mes : N; dia : N; hora : N; minuto : N; segundo : N
}.

Record Ambiente := mkAmbiente {
  log_exists : result bool; (* ARQUIVO_LOG.exists() *)
  log_text : result str;    (* ARQUIVO_LOG.read_text(encoding='utf-8') *)
  relogio : nat -> datetime (* datetime.now() *)
}.

(** Two digits, zero padded. *)
Definition pad2 (n : N) : str :=
  if (n <? 10)%N then 48%N :: str_of_N n else str_of_N n.

(** [d.strftime("%d/%m/%Y às %H:%M")] *)
Definition strftime_relatorio (d : datetime) : str :=
  pad2 (dia d) ++ u "/" ++ pad2 (mes d) ++ u "/" ++ str_of_N (ano d)
  ++ u " às " ++ pad2 (hora d) ++ u ":" ++ pad2 (minuto d).

(** Lines 82-88: the text of the marker file, stripped, or the empty text
    when the file is absent or cannot be read.  The test of line 84
    stands before the [try]. *)
Definition ler_data_extracao (amb : Ambiente) : result str :=
  existe <- log_exists amb ;;
  Ok (if existe : bool then
        match log_text amb with
        | Ok t => strip t
        | Raise _ => u ""
        end
      else u "").

(** A cell position: row and column, counted from 1. *)
Definition coord := (nat * nat)%type.

(** A sheet: its cells in the order they are written, the cells that
    carry the header font (bold, white) and the centred alignment, the
    solid fills by colour, and the column widths by column letter
    ([None] is a width that is not a number). *)
Record Worksheet := mkWorksheet {
  ws_title : str;
  ws_cells : list (coord * valor);
  ws_header : list coord;
  ws_fills : list (coord * str);
  ws_widths : list (str * option nat)
}.

(** A workbook: its sheets in order.  The bytes an export returns are the
    serialisation of this content. *)
Definition Workbook := list Worksheet.

(** [enumerate(l, start)] *)
Fixpoint enumerate {A} (start : nat) (l : list A) : list (nat * A) :=
  match l with
  | [] => []
  | a :: l' => (start, a) :: enumerate (S start) l'
  end.

(** A character that openpyxl refuses in the text of a cell: a control
    character other than tab, line feed and carriage return. *)
Definition ilegal (c : char) : bool :=
  ((c <=? 8) || ((11 <=? c) && (c <=? 12)) || ((14 <=? c) && (c <=? 31)))%N.

(** A text cut after 32767 characters. *)
Definition cortar (s : str) : str := firstn (N.to_nat 32767) s.

(** The text of a cell as openpyxl stores it: cut after 32767 characters,
    refused when a character left is illegal. *)
Definition check_string (s : str) : result str :=
  let t := cortar s in
  if existsb ilegal t then Raise IllegalCharacterError else Ok t.

(** The value [to_excel] writes for a cell of the frame: a missing cell
    as the empty text, an infinity as its name. *)
Definition escrever (v : valor) : result valor :=
  match v with
  | NaN => Ok (Str [])
  | Str s => t <- check_string s ;; Ok (Str t)
  | Int z => Ok (Int z)
  | Float (Inf neg) => Ok (Str (if neg then u "-inf" else u "inf"))
  | Float (Fin neg m e) => Ok (Float (Fin neg m e))
  end.

(** The cells of the column called [col]. *)
Definition column_cells (df : DataFrame) (col : str) : Series :=
  match get_col df col with
  | Ok s => s
  | Raise _ => []
  end.

(** [len] of the string form of a cell; a missing cell, which
    [astype(str)] leaves missing, has none. *)
Definition len_cell (v : valor) : result nat :=
  if isna v then Raise TypeError else Ok (List.length (py_str v)).

(** [min(max(df[col].astype(str).map(len).max(), len(col)) + 2, 40)]:
    the maximum over no cell at all is no number, and so is the width.
    Under a name that two columns bear, [df[col]] is a frame, and the
    comparison of [max] fails. *)
Definition largura (df : DataFrame) (col : str) : result (option nat) :=
  lens <- mapM len_cell (column_cells df col) ;;
  if (1 <? count_occ (list_eq_dec N.eq_dec) (columns df) col)%nat
  then Raise ValueError
  else
    match lens with
    | [] => Ok None
    | _ :: _ =>
        let max_length := Nat.max (list_max lens) (List.length col) in
        Ok (Some (Nat.min (max_length + 2) 40))
    end.

Definition HEADER_FILL : str := u "1e3a5f".
Definition YELLOW : str := u "FFFF00".
Definition RED : str := u "FF6B6B".

(** The fill of a data row, from its status alone. *)
Definition status_fill (status : valor) : option str :=
  if valor_eqb status (Str (u "Atenção")) then Some YELLOW
  else if valor_eqb status (Str (u "Crítica")) then Some RED
  else None.

(** The sheet "Relatório": [df.to_excel(..., index=False)], which
    writes the header and then the cells column by column and refuses
    more than 1048576 rows, followed by the widths, the header style and
    the fills by status. *)
Definition sheet_relatorio (df : DataFrame) : result Worksheet :=
  let cols := columns df in
  let ncols := List.length cols in
  let col_nums := seq 1 ncols in
  if (1048576 <? N.of_nat (List.length (rows df)))%N then Raise ValueError
  else
    header_cells <-
      mapM (fun '(j, c) => t <- check_string c ;; Ok ((1, j), Str t))
           (enumerate 1 cols) ;;
    data_cells <-
      mapM (fun j =>
              mapM (fun '(i, r) => v <- escrever (cell (j - 1) r) ;;
                                   Ok ((i, j), v))
                   (enumerate 2 (rows df)))
           col_nums ;;
    widths <-
      mapM (fun '(idx, col) => w <- largura df col ;;
                               Ok ([N.of_nat (64 + idx)], w))
           (enumerate 1 cols) ;;
    let header_fills := map (fun j => ((1, j), HEADER_FILL)) col_nums in
    let fills :=
      if has_col df (u "Status") then
        flat_map (fun '(row_num, status) =>
                    match status_fill status with
                    | Some fill => map (fun j => ((row_num, j), fill)) col_nums
                    | None => []
                    end)
                 (enumerate 2 (column_cells df (u "Status")))
      else [] in
    Ok (mkWorksheet (u "Relatório") (header_cells ++ List.concat data_cells)
                    (map (fun j => (1, j)) col_nums)
                    (header_fills ++ fills) widths).

(** Line 131: the text written in cell B3 of the sheet "Informações". *)
Definition texto_b3 (data_extracao : str) : str :=
  if truthy data_extracao then data_extracao else u "Não informada".

(** Lines 135-139: the cells of the filter descriptions. *)
Definition celulas_filtros (filtros_aplicados : list str)
  : list (coord * str) :=
  if truthy filtros_aplicados then
    ((7, 1), u "Filtros Aplicados:")
    :: map (fun '(idx, filtro) => ((idx, 1), u "• " ++ filtro))
           (enumerate 8 filtros_aplicados)
  else [].

(** The sheet "Informações". *)
Definition sheet_info (titulo data_extracao data_relatorio : str)
  (filtros_aplicados : list str) : result Worksheet :=
  let fixed :=
    [((1, 1), titulo);
     ((3, 1), u "Data de Extração dos Dados:");
     ((3, 2), texto_b3 data_extracao);
     ((5, 1), u "Data do Relatório:");
     ((5, 2), data_relatorio)] in
  cells <- mapM (fun '(c, s) => t <- check_string s ;; Ok (c, Str t))
                (fixed ++ celulas_filtros filtros_aplicados) ;;
  Ok (mkWorksheet (u "Informações") cells [] [] []).

(** The workbook both exports build, from the text of the marker file
    and a reading of the clock: "Informações" is created at position 0,
    before "Relatório".  When the writer is closed the workbook is saved,
    and a width set under a column letter that is none ([chr(64 + idx)]
    from the 27th column on) is refused. *)
Definition montar_workbook (titulo data_extracao : str) (now : datetime)
  (df : DataFrame) (filtros_aplicados : list str) : result Workbook :=
  relatorio <- sheet_relatorio df ;;
  info <- sheet_info titulo data_extracao (strftime_relatorio now)
                     filtros_aplicados ;;
  if (26 <? List.length (columns df))%nat then Raise ValueError
  else Ok [info; relatorio].

(** Lines 77-142. *)
Definition gerar_xlsx (amb : Ambiente) (df : DataFrame)
  (filtros_aplicados : list str) : result Workbook :=
  data_extracao <- ler_data_extracao amb ;;
  montar_workbook (u "Relatório SIGE - Mapa de Enturmação")
                  data_extracao (relogio amb 0) df filtros_aplicados.

(** [s.dropna()] *)
Definition dropna (s : Series) : Series :=
  filter (fun v => negb (isna v)) s.

(** [s.unique()]: the values in order of first appearance. *)
Fixpoint unique_aux (seen : list valor) (s : Series) : Series :=
  match s with
  | [] => []
  | v :: s' => if existsb (valor_eqb v) seen then unique_aux seen s'
               else v :: unique_aux (v :: seen) s'
  end.

Definition unique (s : Series) : Series := unique_aux [] s.

Definition is_str (v : valor) : bool :=
  match v with Str _ => true | _ => false end.

Definition is_num (v : valor) : bool :=
  match numero_de v with Some _ => true | None => false end.

(** [a <= b] on values of one kind: texts by code point, numbers by
    value. *)
Definition valor_leb (a b : valor) : bool :=
  match a, b with
  | Str x, Str y => str_leb x y
  | _, _ =>
      match numero_de a, numero_de b with
      | Some p, Some q => numero_leb p q
      | _, _ => true
      end
  end.

Fixpoint insert_sorted (x : valor) (l : list valor) : list valor :=
  match l with
  | [] => [x]
  | y :: l' => if valor_leb x y then x :: l
               else y :: insert_sorted x l'
  end.

Fixpoint isort (l : list valor) : list valor :=
  match l with
  | [] => []
  | x :: l' => insert_sorted x (isort l')
  end.

(** [sorted(l)] on cells that are not missing: texts in the order of
    their code points, numbers in numeric order; a list that mixes the
    two cannot be compared. *)
Definition sorted (l : list valor) : result (list valor) :=
  if forallb is_str l || forallb is_num l then Ok (isort l)
  else Raise TypeError.

(** An archive: its entries in order, by name. *)
Definition Archive := list (str * Workbook).

(** Lines 145-223.  The clock is read once for every workbook. *)
Definition gerar_xlsx_por_municipio (amb : Ambiente) (df : DataFrame)
  (filtros_aplicados : list str) : result Archive :=
  data_extracao <- ler_data_extracao amb ;;
  col <- get_col df (u "Municipio") ;;
  let municipios := unique (dropna col) in
  ordenados <- sorted municipios ;;
  mapM (fun '(k, municipio) =>
          let df_mun := select df (series_eq col municipio) in
          wb <- montar_workbook (u "Relatório SIGE - " ++ py_str municipio)
                                data_extracao (relogio amb k) df_mun
                                filtros_aplicados ;;
          let nome_arquivo := py_str municipio ++ u ".xlsx" in
          Ok (nome_arquivo, wb))
       (enumerate 0 ordenados).

(* ===================================================================== *)
(** ** Notions of the specification *)
(* ===================================================================== *)

(** The text the number parser is given for a cell whose string form is
    [t]: the dots removed, each dash replaced by a zero. *)
Definition limpar (t : str) : str :=
  replace 45%N [48%N] (replace 46%N [] t).

(** The cleaned text of a cell, and what the parser makes of it. *)
Definition texto_limpo (v : valor) : option str :=
  if isna v then None else Some (limpar (py_str v)).

Definition lido (v : valor) : parsed := parse_cell (texto_limpo v).

(** The value of a run of digits read after [acc]. *)
Definition digits_value (ds : str) (acc : N) : N :=
  fold_left (fun a c => (a * 10 + (c - 48))%N) ds acc.

(** The digits of a number, last digit first, with a dot after every
    third digit that has a digit after it. *)
Fixpoint group3 (ds : str) : str :=
  match ds with
  | a :: b :: c :: r =>
      match r with
      | [] => ds
      | _ :: _ => a :: b :: c :: 46%N :: group3 r
      end
  | _ => ds
  end.

(** [n] written with '.' between its groups of three digits, as the
    report writes its numbers: 1234567 is "1.234.567". *)
Definition format_with_dots (n : N) : str :=
  rev (group3 (rev (str_of_N n))).

(** A character of a text of digits and dashes. *)
Definition digit_or_dash (c : char) : bool :=
  isdigit c || (c =? 45)%N.

(** The number a text of digits and dashes denotes when each dash is
    read as the digit 0. *)
Definition dash_as_zero (s : str) : N :=
  fold_left (fun a c => (a * 10 + (if (c =? 45)%N then 0 else c - 48))%N)
            s 0%N.

(** A letter that a numeric text can hold: the [e] of an exponent and the
    letters of "inf" and "infinity", in either case. *)
Definition letra_de_numero (c : char) : bool :=
  existsb (N.eqb (lower c)) (u "einfty").

(** A character that no numeric text can hold, before or after the
    cleaning: no digit, dot, dash, plus sign or white space, and no
    letter of an exponent or of a spelling of infinity. *)
Definition stray (c : char) : bool :=
  negb (isdigit c || (c =? 46)%N || (c =? 45)%N || (c =? 43)%N
        || isspace_ascii c || letra_de_numero c).

(** A cell as the report writes its numbers: a missing cell, or a text
    of digits, dots and dashes, with at most [k] digits and dashes. *)
Definition celula_do_relatorio (k : nat) (v : valor) : bool :=
  match v with
  | NaN => true
  | Str t =>
      forallb (fun c => isdigit c || (c =? 46)%N || (c =? 45)%N) t
      && (List.length (replace 46%N [] t) <=? k)%nat
  | _ => false
  end.

(** The number such a cell denotes: the dots dropped, each dash read as
    the digit 0; a missing cell and a text without digit and dash denote
    0. *)
Definition valor_da_celula (v : valor) : N :=
  match v with
  | Str t => dash_as_zero (replace 46%N [] t)
  | _ => 0%N
  end.

(** The cell of row [r] in the column called [col]; a column the frame
    does not have reads as missing. *)
Definition cell_of (df : DataFrame) (col : str) (r : list valor) : valor :=
  match col_index col (columns df) with
  | Some i => cell i r
  | None => NaN
  end.

(** The three constraints of a filter selection on one row.  A
    constraint whose selection is the sentinel, or empty, holds of every
    row. *)
Definition passa_municipio (df : DataFrame) (sel_municipio : valor)
  (r : list valor) : bool :=
  valor_eqb sel_municipio (Str TODOS_OS_MUNICIPIOS)
  || valor_eqb (cell_of df (u "Municipio") r) sel_municipio.

Definition passa_etapa (df : DataFrame) (sel_etapas : list valor)
  (r : list valor) : bool :=
  negb (truthy sel_etapas) || valor_in (cell_of df (u "Etapa") r) sel_etapas.

Definition passa_status (df : DataFrame) (sel_status : list valor)
  (r : list valor) : bool :=
  negb (truthy sel_status) || valor_in (cell_of df (u "Status") r) sel_status.

Definition linha_passa (df : DataFrame) (sel_municipio : valor)
  (sel_etapas sel_status : list valor) (r : list valor) : bool :=
  passa_municipio df sel_municipio r
  && passa_etapa df sel_etapas r
  && passa_status df sel_status r.

(** The frame has the column of every constraint that is in force. *)
Definition filtros_ok (df : DataFrame) (sel_municipio : valor)
  (sel_etapas sel_status : list valor) : bool :=
  (valor_eqb sel_municipio (Str TODOS_OS_MUNICIPIOS)
   || has_col df (u "Municipio"))
  && (negb (truthy sel_etapas) || has_col df (u "Etapa"))
  && (negb (truthy sel_status) || has_col df (u "Status")).

(** [a < b] on values of one kind. *)
Definition valor_ltb (a b : valor) : bool :=
  valor_leb a b && negb (valor_eqb a b).

(** A sheet "Informações" with the title [titulo] in A1, [b3] in B3,
    [b5] in B5 and the cells [resto] for the filters. *)
Definition info_com (titulo b3 b5 : str) (resto : list (coord * valor))
  : Worksheet :=
  mkWorksheet (u "Informações")
    ([((1, 1), Str titulo);
      ((3, 1), Str (u "Data de Extração dos Dados:"));
      ((3, 2), Str b3);
      ((5, 1), Str (u "Data do Relatório:"));
      ((5, 2), Str b5)] ++ resto)
    [] [] [].

(** The table of the packager example, and surroundings without marker
    file. *)
Definition exemplo_bac : DataFrame :=
  mkDataFrame [u "Municipio"] [[Str (u "B")]; [Str (u "A")]; [Str (u "C")]].

Definition sem_log : Ambiente :=
  mkAmbiente (Ok false) (Raise ReadError)
             (fun _ => mkDatetime 2025 3 1 9 30 0).

(** The row of the end-to-end scenario as [pd.read_csv] delivers it: the
    text "1.200" of Mat. Total is read as the float 1.2, the dash of
    Não Enturmados stays a text, the other measures are integers; the
    cells the scenario leaves open are given values. *)
Definition cenario_bruto : DataFrame :=
  mkDataFrame
    [u "Secretaria"; u "Municipio"; u "Descricao"; u "Mat. Total";
     u "Não Enturmados"; u "Enturmados"; u "Quantidade de Turmas";
     u "Mat. Presencial"; u "Mat. Semipresencial"; u "Status"]
    [[Str (u "X"); Str (u "Y"); Str (u "A - 3º Ano");
      Float (F64.of_decimal false 1200 (-3));
      Str (u "-"); Int 1200; Int 40; Int 1200; Int 0; Str (u "Normal")]].

(* ===================================================================== *)
(** ** Download of the data (app.py, lines 226-244) *)
(* ===================================================================== *)

(** What [subprocess.run] does: the script ends with a return code and
    its two captured outputs, the time limit passes, or another exception
    [e] is raised, of which [str(e)] is kept. *)
Inductive processo :=
| Concluido (returncode : Z) (stdout stderr : str)
| TimeoutExpired
| OutraExcecao (msg : str).

(** [a or b] on texts. *)
Definition py_or (a b : str) : str := if truthy a then a else b.

Definition executar_enturmacao (run : processo) : bool * str :=
  match run with
  | Concluido returncode stdout stderr =>
      if Z.eqb returncode 0 then (true, u "Dados baixados com sucesso.")
      else (false, py_or stderr (py_or stdout (u "Erro ao executar script.")))
  | TimeoutExpired =>
      (false, u "Tempo esgotado (o download pode demorar vários minutos).")
  | OutraExcecao msg => (false, msg)
  end.

(* ===================================================================== *)
(** ** Dashboard (app.py, main, lines 295-353) *)
(* ===================================================================== *)

(** Lines 295, 297 and 299: the options of the three selectors. *)
Definition opcoes_municipio (df : DataFrame) : result (list valor) :=
  col <- get_col df (u "Municipio") ;;
  ordenados <- sorted (unique (dropna col)) ;;
  Ok (Str TODOS_OS_MUNICIPIOS :: ordenados).

Definition opcoes_etapa (df : DataFrame) : result (list valor) :=
  col <- get_col df (u "Etapa") ;;
  sorted (filter (fun e => truthy (strip (py_str e))) (unique (dropna col))).

Definition status_opcoes (df : DataFrame) : result (list valor) :=
  col <- get_col df (u "Status") ;;
  sorted (unique (dropna col)).

(** The cells of a row outside the columns called [col]; the row is read
    at the width of [cols]. *)
Fixpoint drop_cells (col : str) (cols : list str) (r : list valor)
  : list valor :=
  match cols with
  | [] => []
  | c :: cs =>
      if str_eqb c col then drop_cells col cs (tl r)
      else cell 0 r :: drop_cells col cs (tl r)
  end.

(** [df.drop(columns=[col], errors="ignore")]: without the columns called
    [col]; a frame that has none is returned as it is. *)
Definition drop_ignore (df : DataFrame) (col : str) : DataFrame :=
  if has_col df col then
    mkDataFrame (filter (fun c => negb (str_eqb c col)) (columns df))
                (map (drop_cells col (columns df)) (rows df))
  else df.

(** Lines 331-338: the style of each cell of a row of the table shown;
    a row has one cell per column. *)
Definition pintar_status (df_exibir : DataFrame) (row : list valor)
  : list str :=
  let len_row := List.length (columns df_exibir) in
  if has_col df_exibir (u "Status") then
    let status := cell_of df_exibir (u "Status") row in
    if valor_eqb status (Str (u "Atenção"))
    then repeat (u "background-color: #FFFF00") len_row
    else if valor_eqb status (Str (u "Crítica"))
    then repeat (u "background-color: #FF6B6B") len_row
    else repeat (u "") len_row
  else repeat (u "") len_row.

(** [sep.join(l)] on texts. *)
Fixpoint join (sep : str) (l : list str) : str :=
  match l with
  | [] => []
  | a :: l' =>
      match l' with
      | [] => a
      | _ :: _ => a ++ sep ++ join sep l'
      end
  end.

(** An item of [sep.join]: anything but a text is a [TypeError]. *)
Definition item_de_join (v : valor) : result str :=
  match v with
  | Str s => Ok s
  | _ => Raise TypeError
  end.

Definition join_valores (sep : str) (l : list valor) : result str :=
  itens <- mapM item_de_join l ;;
  Ok (join sep itens).

(** Lines 347-353: the descriptions of the filters in force. *)
Definition filtros_info (sel_municipio : valor)
  (sel_etapas sel_status : list valor) : result (list str) :=
  let info0 : list str := [] in
  let info1 :=
    if negb (valor_eqb sel_municipio (Str TODOS_OS_MUNICIPIOS))
    then info0 ++ [u "Município: " ++ py_str sel_municipio]
    else info0 in
  info2 <- (if truthy sel_etapas
            then s <- join_valores (u ", ") sel_etapas ;;
                 Ok (info1 ++ [u "Etapa(s): " ++ s])
            else Ok info1) ;;
  info3 <- (if truthy sel_status
            then s <- join_valores (u ", ") sel_status ;;
                 Ok (info2 ++ [u "Status: " ++ s])
            else Ok info2) ;;
  Ok info3.


(* ===================================================================== *)
(** * Properties *)
(* ===================================================================== *)

(** ** Facts about the string functions *)

Section StringFacts.

Open Scope N_scope.

Lemma str_eqb_eq (a b : str) : str_eqb a b = true <-> a = b.
Proof.
  unfold str_eqb. destruct (list_eq_dec N.eq_dec a b); split; congruence.
Qed.

Lemma str_eqb_refl (a : str) : str_eqb a a = true.
Proof. now apply str_eqb_eq. Qed.

Lemma str_eqb_neq (a b : str) : str_eqb a b = false <-> a <> b.
Proof.
  unfold str_eqb. destruct (list_eq_dec N.eq_dec a b); split; congruence.
Qed.

Lemma lstrip_suffix (s : str) : exists ws, s = ws ++ lstrip s.
Proof.
  induction s as [|c s [ws IH]]; simpl.
  - now exists [].
  - destruct (isspace c).
    + exists (c :: ws). simpl. now f_equal.
    + now exists [].
Qed.

Lemma lstrip_idem (s : str) : lstrip (lstrip s) = lstrip s.
Proof.
  induction s as [|c s IH]; simpl; auto.
  destruct (isspace c) eqn:E; auto. simpl. now rewrite E.
Qed.

Lemma lstrip_app_nonspace (a : str) (c : char) (r : str) :
  isspace c = false -> lstrip (a ++ c :: r) = lstrip a ++ c :: r.
Proof.
  intros Hc. induction a as [|x a IH]; simpl.
  - now rewrite Hc.
  - destruct (isspace x); auto.
Qed.

Lemma rstrip_app_nonspace (a : str) (c : char) (r : str) :
  isspace c = false -> rstrip (a ++ c :: r) = a ++ c :: rstrip r.
Proof.
  intros Hc. unfold rstrip.
  rewrite rev_app_distr. simpl. rewrite <- app_assoc. simpl.
  rewrite lstrip_app_nonspace by assumption.
  rewrite rev_app_distr. simpl. rewrite rev_involutive.
  now rewrite <- app_assoc.
Qed.

Lemma rstrip_prefix (s : str) : exists ws, s = rstrip s ++ ws.
Proof.
  unfold rstrip. destruct (lstrip_suffix (rev s)) as [ws H].
  exists (rev ws). rewrite <- rev_app_distr, <- H. now rewrite rev_involutive.
Qed.

(** Stripping keeps a part of the text. *)
Lemma strip_incl (s : str) (c : char) : In c (strip s) -> In c s.
Proof.
  unfold strip. intros H.
  destruct (rstrip_prefix (lstrip s)) as [w1 H1].
  destruct (lstrip_suffix s) as [w2 H2].
  rewrite H2, H1. apply in_or_app. right. apply in_or_app. now left.
Qed.

Lemma strip_lstrip (s : str) : strip (lstrip s) = strip s.
Proof. unfold strip. now rewrite lstrip_idem. Qed.

Lemma startswith_iff (p s : str) :
  startswith p s = true <-> exists r, s = p ++ r.
Proof.
  revert s. induction p as [|a p IH]; intros s; simpl.
  - split; eauto.
  - destruct s as [|b s].
    + split; [discriminate | intros [r H]; discriminate].
    + rewrite andb_true_iff, N.eqb_eq, IH. split.
      * intros [-> [r ->]]. now exists r.
      * intros [r H]. injection H as -> ->. eauto.
Qed.

Lemma skipn_startswith (p r : str) : skipn (List.length p) (p ++ r) = r.
Proof. induction p; simpl; auto. Qed.

(** [contains p s] holds exactly when [p] occurs somewhere in [s]. *)
Lemma contains_iff (p s : str) :
  contains p s = true <-> exists a b, s = a ++ p ++ b.
Proof.
  induction s as [|c s IH].
  - simpl. rewrite orb_false_r, startswith_iff. split.
    + intros [r H]. now exists [], r.
    + intros [a [b H]]. destruct a; simpl in H.
      * now exists b.
      * discriminate.
  - simpl. rewrite orb_true_iff, startswith_iff, IH. split.
    + intros [[r H] | [a [b H]]].
      * now exists [], r.
      * exists (c :: a), b. simpl. now f_equal.
    + intros [a [b H]]. destruct a as [|x a]; simpl in H.
      * left. now exists b.
      * right. injection H as _ H. now exists a, b.
Qed.

Lemma contains_char (c : char) (s : str) :
  contains [c] s = true <-> In c s.
Proof.
  rewrite contains_iff. split.
  - intros [a [b ->]]. apply in_or_app. right. now left.
  - intros H. apply in_split in H. destruct H as [a [b ->]]. now exists a, b.
Qed.

(** The first field of a split at a character that is absent before the
    first separator. *)
Lemma split_aux_first (c : char) (cur a r : str) :
  ~ In c a ->
  nth 0 (split_aux [c] 0 cur (a ++ c :: r)) [] = rev cur ++ a.
Proof.
  revert cur. induction a as [|x a IH]; intros cur Hn; simpl.
  - rewrite N.eqb_refl. simpl. now rewrite app_nil_r.
  - destruct (N.eqb_spec c x) as [->|Hne].
    + exfalso. apply Hn. now left.
    + simpl. rewrite IH.
      * simpl. now rewrite <- app_assoc.
      * intros H. apply Hn. now right.
Qed.

Lemma split_first (c : char) (a r : str) :
  ~ In c a -> nth 0 (split [c] (a ++ c :: r)) [] = a.
Proof. intros H. unfold split. now rewrite split_aux_first. Qed.

Lemma contains_cons (p : str) (c : char) (s : str) :
  contains p (c :: s) = startswith p (c :: s) || contains p s.
Proof. reflexivity. Qed.

Lemma rfind_cut_none (sep s : str) :
  sep <> [] -> rfind_cut sep s = None -> contains sep s = false.
Proof.
  intros Hsep. induction s as [|c s IH].
  - destruct sep; [congruence | reflexivity].
  - cbn [rfind_cut]. destruct (rfind_cut sep s) as [[a b]|]; [discriminate|].
    destruct (startswith sep (c :: s)) eqn:E; [discriminate|].
    intros _. rewrite contains_cons, E. now apply IH.
Qed.

(** The cut is at an occurrence of the separator, and no occurrence
    starts further right. *)
Lemma rfind_cut_some (sep s a b : str) :
  sep <> [] -> rfind_cut sep s = Some (a, b) ->
  s = a ++ sep ++ b /\
  forall a' b', s = a' ++ sep ++ b' -> (List.length a' <= List.length a)%nat.
Proof.
  intros Hsep. revert a b. induction s as [|c s IH]; intros a b; simpl.
  - discriminate.
  - destruct (rfind_cut sep s) as [[a0 b0]|] eqn:E.
    + intros H. injection H as <- <-.
      destruct (IH a0 b0 eq_refl) as [H1 H2]. split.
      * simpl. now f_equal.
      * intros a' b' H. destruct a' as [|x a']; simpl; [lia|].
        simpl in H. injection H as _ H. apply H2 in H. lia.
    + destruct (startswith sep (c :: s)) eqn:S; [|discriminate].
      intros H. injection H as <- <-.
      apply startswith_iff in S. destruct S as [r S]. split.
      * rewrite S at 1. simpl. now rewrite S, skipn_startswith.
      * intros a' b' H. destruct a' as [|x a']; simpl; [lia|].
        simpl in H. injection H as _ H.
        apply rfind_cut_none in E; [|assumption].
        assert (contains sep s = true) by (apply contains_iff; eauto).
        congruence.
Qed.

Lemma rfind_cut_contains (sep s : str) :
  sep <> [] -> contains sep s = true -> exists a b, rfind_cut sep s = Some (a, b).
Proof.
  intros Hsep H. destruct (rfind_cut sep s) as [[a b]|] eqn:E; eauto.
  apply rfind_cut_none in E; congruence.
Qed.

End StringFacts.

(** ** Stage extractor *)

Lemma strip_around_nonspace (a : str) (c : char) (r : str) :
  isspace c = false ->
  strip (a ++ c :: r) = lstrip a ++ c :: rstrip r.
Proof.
  intros Hc. unfold strip.
  rewrite lstrip_app_nonspace by assumption.
  now apply rstrip_app_nonspace.
Qed.

Lemma lstrip_incl (s : str) (c : char) : In c (lstrip s) -> In c s.
Proof.
  destruct (lstrip_suffix s) as [ws H]. intros Hin.
  rewrite H. apply in_or_app. now right.
Qed.

(** The extractor on a text with a pipe, in terms of the part before the
    first pipe. *)
Lemma extrair_etapa_pipe_eq (pre rest : str) :
  ~ In 124%N pre ->
  extrair_etapa (Str (pre ++ 124%N :: rest)) =
    if contains (u " - ") (strip pre)
    then strip (last (rsplit1 (u " - ") (strip pre)) [])
    else strip pre.
Proof.
  intros Hpre. unfold extrair_etapa.
  cbn [isna py_str].
  rewrite strip_around_nonspace by reflexivity.
  match goal with
  | |- context [contains (u "|") ?s] =>
      assert (Hin : contains (u "|") s = true);
      [ apply (contains_char 124%N); apply in_or_app; right; now left
      | rewrite Hin ]
  end.
  match goal with
  | |- context [nth 0 (split (u "|") ?s) []] =>
      assert (Hsp : nth 0 (split (u "|") s) [] = lstrip pre);
      [ apply (split_first 124%N); intros H; apply Hpre; now apply lstrip_incl
      | rewrite Hsp ]
  end.
  now rewrite strip_lstrip.
Qed.

Lemma extrair_etapa_no_pipe_eq (text : str) :
  contains (u "|") text = false ->
  extrair_etapa (Str text) =
    if str_eqb (strip text) (u "TOTAL SECRETARIA")
    then u "TOTAL SECRETARIA" else u "Total escola".
Proof.
  intros H. unfold extrair_etapa. cbn [isna py_str].
  assert (Hs : contains (u "|") (strip text) = false).
  { destruct (contains (u "|") (strip text)) eqn:E; auto.
    apply (contains_char 124%N) in E. apply strip_incl in E.
    apply (contains_char 124%N) in E.
    pose proof (eq_trans (eq_sym E) H). discriminate. }
  now rewrite Hs.
Qed.

(** C3, the example of the claim fails: in "Ens. Fund | EF - 5º Ano" the
    part before the first pipe is "Ens. Fund", which holds no " - ", and
    that part is the stage the code returns, not "5º Ano". *)
Lemma extrair_etapa_example_not_5_ano :
  extrair_etapa (Str (u "Ens. Fund | EF - 5º Ano")) = u "Ens. Fund"
  /\ extrair_etapa (Str (u "Ens. Fund | EF - 5º Ano")) <> u "5º Ano".
Proof.
  split.
  - vm_compute. reflexivity.
  - intros H. vm_compute in H. discriminate.
Qed.

(** C3 (amended): for every Descricao text with a pipe, where [pre] is
    the text before the first pipe: if the trimmed [pre] holds no " - "
    the extractor returns the trimmed [pre]; if it holds one, the
    extractor returns the trimmed segment after the last occurrence of
    " - " in it.  In particular "Ens. Fund | EF - 5º Ano" gives
    "Ens. Fund" and "Escola X - 5º Ano | EF" gives "5º Ano"; a missing
    Descricao gives the empty text. *)
Theorem extrair_etapa_pipe_rule :
  (forall pre rest : str,
      ~ In 124%N pre ->
      (contains (u " - ") (strip pre) = false ->
       extrair_etapa (Str (pre ++ 124%N :: rest)) = strip pre)
      /\
      (contains (u " - ") (strip pre) = true ->
       exists a seg,
         strip pre = a ++ u " - " ++ seg
         /\ (forall a' seg', strip pre = a' ++ u " - " ++ seg' ->
                             List.length a' <= List.length a)
         /\ extrair_etapa (Str (pre ++ 124%N :: rest)) = strip seg))
  /\ extrair_etapa (Str (u "Ens. Fund | EF - 5º Ano")) = u "Ens. Fund"
  /\ extrair_etapa (Str (u "Escola X - 5º Ano | EF")) = u "5º Ano"
  /\ extrair_etapa NaN = u "".
Proof.
  split; [|repeat split; vm_compute; reflexivity].
  intros pre rest Hpre. rewrite extrair_etapa_pipe_eq by assumption.
  split; intros Hc; rewrite Hc.
  - reflexivity.
  - assert (Hsep : u " - " <> []) by discriminate.
    destruct (rfind_cut_contains _ _ Hsep Hc) as [a [seg E]].
    destruct (rfind_cut_some _ _ _ _ Hsep E) as [H1 H2].
    exists a, seg. repeat split; auto.
    unfold rsplit1. now rewrite E.
Qed.

Lemma extrair_etapa_pipe_rule_witness :
  ~ In 124%N (u " EF - 5º Ano ")
  /\ contains (u " - ") (strip (u " EF - 5º Ano ")) = true
  /\ exists a seg,
       strip (u " EF - 5º Ano ") = a ++ u " - " ++ seg
       /\ extrair_etapa (Str (u " EF - 5º Ano " ++ 124%N :: u " x")) = strip seg.
Proof.
  assert (Hn : ~ In 124%N (u " EF - 5º Ano ")).
  { vm_compute. intuition discriminate. }
  assert (Hc : contains (u " - ") (strip (u " EF - 5º Ano ")) = true)
    by reflexivity.
  split; [exact Hn|]. split; [exact Hc|].
  destruct (proj2 (proj1 extrair_etapa_pipe_rule _ (u " x") Hn) Hc)
    as [a [seg [H1 [_ H3]]]].
  exists a, seg. split; assumption.
Defined.

(** C4, the claim fails: " TOTAL SECRETARIA", with a leading blank, has no
    pipe and is not the text "TOTAL SECRETARIA", yet the extractor returns
    "TOTAL SECRETARIA": the text is trimmed before it is compared. *)
Lemma extrair_etapa_total_secretaria_trimmed :
  ~ (forall text : str,
        contains (u "|") text = false ->
        (extrair_etapa (Str text) = u "TOTAL SECRETARIA"
         <-> text = u "TOTAL SECRETARIA")).
Proof.
  intros H.
  destruct (H (u " TOTAL SECRETARIA") eq_refl) as [H1 _].
  assert (E : extrair_etapa (Str (u " TOTAL SECRETARIA")) = u "TOTAL SECRETARIA")
    by (vm_compute; reflexivity).
  apply H1 in E. vm_compute in E. discriminate.
Qed.

(** C4 (amended): for every Descricao text without a pipe, the extractor
    returns "TOTAL SECRETARIA" exactly when the text, trimmed of
    surrounding white space, equals "TOTAL SECRETARIA" (with case), and
    the literal "Total escola" for every other such text. *)
Theorem extrair_etapa_sem_pipe (text : str) :
  contains (u "|") text = false ->
  (extrair_etapa (Str text) = u "TOTAL SECRETARIA"
   <-> strip text = u "TOTAL SECRETARIA")
  /\ (strip text <> u "TOTAL SECRETARIA" ->
      extrair_etapa (Str text) = u "Total escola").
Proof.
  intros H. rewrite extrair_etapa_no_pipe_eq by assumption.
  destruct (str_eqb (strip text) (u "TOTAL SECRETARIA")) eqn:E.
  - apply str_eqb_eq in E. split; [tauto | congruence].
  - apply str_eqb_neq in E. split; [|reflexivity].
    split; [|tauto]. intros H1. vm_compute in H1. discriminate.
Qed.

Lemma extrair_etapa_sem_pipe_witness :
  contains (u "|") (u "total secretaria") = false
  /\ strip (u "total secretaria") <> u "TOTAL SECRETARIA"
  /\ extrair_etapa (Str (u "total secretaria")) = u "Total escola".
Proof.
  assert (Hn : strip (u "total secretaria") <> u "TOTAL SECRETARIA").
  { intros H. vm_compute in H. discriminate. }
  split; [reflexivity|]. split; [exact Hn|].
  exact (proj2 (extrair_etapa_sem_pipe (u "total secretaria") eq_refl) Hn).
Defined.

(** ** Numeric normaliser *)

(** Case analysis on the comparisons of code points in the goal and the
    hypotheses. *)
Ltac char_cases :=
  unfold stray, letra_de_numero, digit_or_dash, isdigit, isspace_ascii,
    lower in *;
  change (u "einfty") with [101; 105; 110; 102; 116; 121]%N in *;
  cbn [existsb] in *;
  repeat match goal with
         | H : context [if ?b then _ else _] |- _ => destruct b eqn:?
         | |- context [if ?b then _ else _] => destruct b eqn:?
         end;
  try match goal with
      | |- false = _ => symmetry
      | |- true = _ => symmetry
      end;
  repeat (progress
    (rewrite ?negb_true_iff, ?negb_false_iff, ?orb_true_iff, ?orb_false_iff,
       ?andb_true_iff, ?andb_false_iff, ?N.leb_le, ?N.leb_gt, ?N.ltb_lt,
       ?N.ltb_ge, ?N.eqb_eq, ?N.eqb_neq in *));
  try lia.

Section NormaliserFacts.

Open Scope N_scope.


Lemma replace_remove (old : char) (s : str) :
  replace old [] s = filter (fun c => negb (c =? old)) s.
Proof.
  induction s as [|c s IH]; simpl; auto.
  destruct (c =? old); simpl; now rewrite IH.
Qed.

Lemma replace_one (old new : char) (s : str) :
  replace old [new] s = map (fun c => if c =? old then new else c) s.
Proof.
  induction s as [|c s IH]; simpl; auto.
  destruct (c =? old); simpl; now rewrite IH.
Qed.

(** A character other than dot and dash survives the cleaning. *)
Lemma limpar_keeps (c : char) (t : str) :
  c <> 46 -> c <> 45 -> In c t -> In c (limpar t).
Proof.
  intros H1 H2 Hin. unfold limpar. rewrite replace_one, replace_remove.
  apply in_map_iff. exists c. split.
  - destruct (N.eqb_spec c 45) as [E|E]; [now apply H2 in E | reflexivity].
  - apply filter_In. split; auto.
    destruct (N.eqb_spec c 46) as [E|E]; [now apply H1 in E | reflexivity].
Qed.

(** The cleaned text holds neither dot nor dash. *)
Lemma limpar_clean (t : str) : ~ In 46 (limpar t) /\ ~ In 45 (limpar t).
Proof.
  unfold limpar. rewrite replace_one, replace_remove. split; intros H.
  - apply in_map_iff in H. destruct H as [c [H1 H2]].
    apply filter_In in H2. destruct H2 as [_ H2].
    destruct (N.eqb_spec c 45); [discriminate|].
    subst c. now rewrite N.eqb_refl in H2.
  - apply in_map_iff in H. destruct H as [c [H1 H2]].
    destruct (N.eqb_spec c 45); [discriminate|]. congruence.
Qed.

Lemma digits_value_app (a b : str) (x : N) :
  digits_value (a ++ b) x = digits_value b (digits_value a x).
Proof. unfold digits_value. apply fold_left_app. Qed.

Lemma read_digits_all (ds : str) (acc : N) (cnt : nat) :
  forallb isdigit ds = true ->
  read_digits ds acc cnt = (digits_value ds acc, (cnt + List.length ds)%nat, []).
Proof.
  revert acc cnt. induction ds as [|d ds IH]; intros acc cnt H; simpl.
  - now rewrite Nat.add_0_r.
  - simpl in H. apply andb_true_iff in H. destruct H as [Hd H].
    rewrite Hd, IH by assumption. now rewrite Nat.add_succ_r.
Qed.

(** *** Decimal notation *)

Lemma digits_aux_S (f : nat) (n : N) (acc : str) :
  digits_aux (S f) n acc =
    if n <? 10 then (48 + n) :: acc
    else digits_aux f (n / 10) ((48 + n mod 10) :: acc).
Proof. reflexivity. Qed.

Lemma digits_aux_spec (f : nat) :
  forall (n : N) (acc : str),
    n < 2 ^ N.of_nat f ->
    exists ds,
      digits_aux (S f) n acc = ds ++ acc
      /\ ds <> [] /\ forallb isdigit ds = true /\ digits_value ds 0 = n.
Proof.
  induction f as [|f IH]; intros n acc Hn.
  - change (2 ^ N.of_nat 0) with 1 in Hn.
    assert (n = 0) by lia. subst n.
    exists [48]. split; [reflexivity|]. split; [discriminate|]. split; reflexivity.
  - rewrite digits_aux_S. destruct (N.ltb_spec n 10) as [Hlt|Hge].
    + exists [48 + n]. split; [reflexivity|]. split; [discriminate|]. split.
      * cbn [forallb]. rewrite andb_true_r. char_cases.
      * unfold digits_value. cbn [fold_left]. lia.
    + assert (Hdiv : n / 10 < 2 ^ N.of_nat f).
      { rewrite Nat2N.inj_succ, N.pow_succ_r' in Hn.
        apply N.Div0.div_lt_upper_bound. lia. }
      destruct (IH (n / 10) ((48 + n mod 10) :: acc) Hdiv)
        as [ds [E [_ [Hd Hv]]]].
      exists (ds ++ [48 + n mod 10]).
      split; [|split; [|split]].
      * rewrite E, <- app_assoc. reflexivity.
      * destruct ds; discriminate.
      * rewrite forallb_app, Hd. cbn [forallb andb]. rewrite andb_true_r.
        pose proof (N.mod_upper_bound n 10 ltac:(lia)) as Hm.
        clear E. set (r := n mod 10) in *. clearbody r. char_cases.
      * rewrite digits_value_app, Hv. unfold digits_value. cbn [fold_left].
        pose proof (N.Div0.div_mod n 10) as Hm.
        clear E Hv Hdiv. set (r := n mod 10) in *. set (q := n / 10) in *.
        clearbody r q. lia.
Qed.

(** [str(n)] is a non-empty run of digits with value [n]. *)
Lemma str_of_N_spec (n : N) :
  str_of_N n <> [] /\ forallb isdigit (str_of_N n) = true
  /\ digits_value (str_of_N n) 0 = n.
Proof.
  unfold str_of_N.
  destruct (digits_aux_spec (N.to_nat (N.size n)) n [])
    as [ds [E [H1 [H2 H3]]]].
  - rewrite N2Nat.id. apply N.size_gt.
  - rewrite E, app_nil_r. auto.
Qed.

Lemma filter_cons_eq (p : char -> bool) (x : char) (l : str) :
  filter p (x :: l) = if p x then x :: filter p l else filter p l.
Proof. reflexivity. Qed.

Lemma group3_more (a b c d : char) (r : str) :
  group3 (a :: b :: c :: d :: r) = a :: b :: c :: 46 :: group3 (d :: r).
Proof. reflexivity. Qed.

Lemma filter_group3 (p : char -> bool) (k : nat) :
  p 46 = false ->
  forall l : str, (List.length l <= k)%nat ->
                  filter p (group3 l) = filter p l.
Proof.
  intros Hp. induction k as [k IH] using lt_wf_ind. intros l Hl.
  destruct l as [|a [|b [|c [|d r]]]]; try reflexivity.
  rewrite group3_more.
  assert (E : filter p (group3 (d :: r)) = filter p (d :: r)).
  { apply (IH (List.length (d :: r))); simpl in *; lia. }
  rewrite (filter_cons_eq p a), (filter_cons_eq p b), (filter_cons_eq p c),
    (filter_cons_eq p 46), Hp, E.
  reflexivity.
Qed.

Lemma filter_digits (ds : str) (c : char) :
  isdigit c = false -> forallb isdigit ds = true ->
  filter (fun x => negb (x =? c)) ds = ds.
Proof.
  intros Hc. induction ds as [|d ds IH]; simpl; auto.
  intros H. apply andb_true_iff in H. destruct H as [Hd H].
  destruct (N.eqb_spec d c) as [->|]; [congruence|].
  simpl. now rewrite IH.
Qed.

Lemma map_digits (ds : str) :
  forallb isdigit ds = true ->
  map (fun c => if c =? 45 then 48 else c) ds = ds.
Proof.
  induction ds as [|d ds IH]; simpl; auto.
  intros H. apply andb_true_iff in H. destruct H as [Hd H].
  rewrite IH by assumption.
  destruct (N.eqb_spec d 45) as [->|]; [discriminate|reflexivity].
Qed.

(** Cleaning the dotted notation of [n] gives back its digits. *)
Lemma limpar_format_with_dots (n : N) :
  limpar (format_with_dots n) = str_of_N n.
Proof.
  destruct (str_of_N_spec n) as [_ [Hd _]].
  unfold limpar, format_with_dots.
  rewrite replace_one, replace_remove.
  rewrite filter_rev.
  rewrite (filter_group3 _ (List.length (rev (str_of_N n))));
    [|reflexivity|lia].
  rewrite <- filter_rev, rev_involutive.
  rewrite filter_digits by auto.
  now apply map_digits.
Qed.

End NormaliserFacts.

(** *** What the number parser accepts *)

Section ParserFacts.

Open Scope N_scope.

Lemma c_str_id (s : str) : ~ In 0 s -> c_str s = s.
Proof.
  induction s as [|c s IH]; intros H; cbn [c_str]; [reflexivity|].
  destruct (N.eqb_spec c 0) as [->|Hc].
  - exfalso. apply H. now left.
  - rewrite IH; [reflexivity|]. intros Hin. apply H. now right.
Qed.

Lemma existsb_nul (s : str) : ~ In 0 s -> existsb (N.eqb 0) s = false.
Proof.
  intros H. destruct (existsb (N.eqb 0) s) eqn:E; [|reflexivity].
  apply existsb_exists in E. destruct E as [c [Hin Hc]].
  apply N.eqb_eq in Hc. subst c. contradiction.
Qed.

Lemma digits_no_nul (ds : str) : forallb isdigit ds = true -> ~ In 0 ds.
Proof.
  intros H Hin. rewrite forallb_forall in H. apply H in Hin.
  discriminate.
Qed.

(** A non-empty run of digits is the literal of its value. *)
Lemma parse_number_digits (ds : str) :
  ds <> [] -> forallb isdigit ds = true ->
  parse_number ds = Some (Inteiro (digits_value ds 0) (List.length ds)).
Proof.
  intros Hne H. destruct ds as [|d ds]; [congruence|].
  assert (Hd : isdigit d = true).
  { simpl in H. now apply andb_true_iff in H. }
  unfold parse_number.
  assert (E1 : skip_ws (d :: ds) = d :: ds).
  { simpl. replace (isspace_ascii d) with false; auto. clear -Hd. char_cases. }
  assert (E2 : skip_sign (d :: ds) = d :: ds).
  { simpl. replace (d =? 43) with false; auto. clear -Hd. char_cases. }
  rewrite E1, E2, read_digits_all by assumption.
  reflexivity.
Qed.

(** The parser makes the integer of a run of at most 4300 digits. *)
Lemma parse_cell_digits (ds : str) :
  ds <> [] -> forallb isdigit ds = true -> (List.length ds <= 4300)%nat ->
  parse_cell (Some ds) = PInt (digits_value ds 0).
Proof.
  intros Hne Hd Hlen. unfold parse_cell.
  rewrite (c_str_id ds (digits_no_nul ds Hd)).
  rewrite (parse_number_digits ds Hne Hd).
  rewrite (existsb_nul ds (digits_no_nul ds Hd)).
  replace (4300 <? N.of_nat (List.length ds)) with false; [reflexivity|].
  symmetry. apply N.ltb_ge. lia.
Qed.

Lemma parse_cell_empty : parse_cell (Some []) = PNull.
Proof. reflexivity. Qed.

Lemma skip_ws_stray (c : char) (s : str) :
  stray c = true -> In c s -> In c (skip_ws s).
Proof.
  intros Hc. induction s as [|x s IH]; simpl; auto.
  intros [->|H].
  - replace (isspace_ascii c) with false; [now left|]. clear -Hc. char_cases.
  - destruct (isspace_ascii x); [auto | now right].
Qed.

Lemma skip_ws_nil_stray (c : char) (s : str) :
  stray c = true -> skip_ws s = [] -> ~ In c s.
Proof.
  intros Hc E H. apply (skip_ws_stray c s Hc) in H. now rewrite E in H.
Qed.

Lemma skip_sign_stray (c : char) (s : str) :
  stray c = true -> In c s -> In c (skip_sign s).
Proof.
  intros Hc. destruct s as [|x s]; simpl; auto.
  intros [->|H].
  - replace (c =? 43) with false; [now left|]. clear -Hc. char_cases.
  - destruct (x =? 43); [auto | now right].
Qed.

Lemma read_digits_stray (c : char) (s : str) :
  stray c = true ->
  forall acc cnt v k r,
    read_digits s acc cnt = (v, k, r) -> In c s -> In c r.
Proof.
  intros Hc. induction s as [|x s IH]; intros acc cnt v k r E; simpl in E.
  - now intros [].
  - destruct (isdigit x) eqn:Hx.
    + intros [->|H].
      * exfalso. clear -Hc Hx. char_cases.
      * eapply IH; eauto.
    + injection E as _ _ <-. auto.
Qed.

(** A text with a stray character is no finite literal. *)
Lemma parse_number_stray (c : char) (s : str) :
  stray c = true -> In c s -> parse_number s = None.
Proof.
  intros Hc Hin. unfold parse_number.
  destruct (read_digits (skip_sign (skip_ws s)) 0 0) as [[m k] s2] eqn:E1.
  assert (H2 : In c s2).
  { eapply read_digits_stray; eauto.
    now apply skip_sign_stray, skip_ws_stray. }
  destruct k as [|k]; [reflexivity|].
  destruct s2 as [|c0 s3]; [now destruct H2|].
  destruct ((c0 =? 101) || (c0 =? 69)) eqn:He.
  - destruct (read_digits (skip_sign s3) 0 0) as [[e ke] s4] eqn:E2.
    assert (H3 : In c s3).
    { destruct H2 as [->|H2]; auto. exfalso. clear -Hc He. char_cases. }
    assert (H4 : In c s4).
    { eapply read_digits_stray; eauto. now apply skip_sign_stray. }
    destruct ke as [|ke]; [reflexivity|].
    destruct (skip_ws s4) eqn:E3; [|reflexivity].
    exfalso. now apply (skip_ws_nil_stray c s4 Hc E3).
  - destruct (skip_ws (c0 :: s3)) eqn:E3; [|reflexivity].
    exfalso. now apply (skip_ws_nil_stray c (c0 :: s3) Hc E3).
Qed.

Lemma lower_letter_not_stray (c : char) :
  existsb (N.eqb (lower c)) [105; 110; 102; 116; 121; 43] = true ->
  stray c = false.
Proof. cbn [existsb]. intros H. char_cases. Qed.

(** A text with a stray character is no spelling of infinity. *)
Lemma is_inf_literal_stray (c : char) (s : str) :
  stray c = true -> In c s -> is_inf_literal s = false.
Proof.
  intros Hc Hin. destruct (is_inf_literal s) eqn:E; [|reflexivity].
  unfold is_inf_literal in E. apply existsb_exists in E.
  destruct E as [lit [Hlit Heq]]. apply str_eqb_eq in Heq.
  assert (Hall : forallb (fun x => existsb (N.eqb x)
                                     [105; 110; 102; 116; 121; 43]) lit
                 = true).
  { destruct Hlit as [<-|[<-|[<-|[<-|[]]]]]; reflexivity. }
  rewrite forallb_forall in Hall.
  assert (Hl : In (lower c) lit).
  { rewrite <- Heq. now apply in_map. }
  apply Hall in Hl. apply lower_letter_not_stray in Hl. congruence.
Qed.

(** The parser makes nothing of a text with a stray character, when the
    text holds no null character. *)
Lemma parse_cell_stray (c : char) (s : str) :
  stray c = true -> In c s -> ~ In 0 s -> parse_cell (Some s) = PNull.
Proof.
  intros Hc Hin Hnul. unfold parse_cell. rewrite (c_str_id s Hnul).
  now rewrite (parse_number_stray c s), (is_inf_literal_stray c s).
Qed.

(** The characters of a cleaned text are those of the text, and the
    zeros that stand for its dashes. *)
Lemma limpar_In (c : char) (t : str) : In c (limpar t) -> In c t \/ c = 48.
Proof.
  unfold limpar. rewrite replace_one, replace_remove. intros H.
  apply in_map_iff in H. destruct H as [x [Hx Hin]].
  apply filter_In in Hin. destruct Hin as [Hin _].
  destruct (x =? 45); [now right | left; now subst].
Qed.

Lemma dash_as_zero_map (s : str) (acc : N) :
  digits_value (map (fun c => if c =? 45 then 48 else c) s) acc =
  fold_left (fun a c => a * 10 + (if c =? 45 then 0 else c - 48)) s acc.
Proof.
  unfold digits_value. revert acc.
  induction s as [|c s IH]; intros acc; simpl; auto.
  rewrite IH. destruct (c =? 45); reflexivity.
Qed.

Lemma limpar_digits_dashes (s : str) :
  forallb digit_or_dash s = true ->
  limpar s = map (fun c => if c =? 45 then 48 else c) s
  /\ forallb isdigit (limpar s) = true.
Proof.
  intros H. unfold limpar. rewrite replace_one, replace_remove.
  induction s as [|c s IH]; simpl; auto.
  simpl in H. apply andb_true_iff in H. destruct H as [Hc H].
  destruct (IH H) as [E1 E2].
  assert (Hne : (c =? 46) = false) by (clear -Hc; char_cases).
  rewrite Hne. simpl. rewrite E1. split; [reflexivity|].
  rewrite <- E1, E2, andb_true_r.
  clear -Hc. char_cases.
Qed.

(** The value of a run of digits is below the power of ten of its
    length. *)
Lemma digits_value_bound (ds : str) :
  forallb isdigit ds = true ->
  forall acc, digits_value ds acc
              < (acc + 1) * 10 ^ N.of_nat (List.length ds).
Proof.
  unfold digits_value.
  induction ds as [|d ds IH]; intros H acc.
  - cbn [fold_left List.length]. change (10 ^ N.of_nat 0) with 1. lia.
  - simpl in H. apply andb_true_iff in H. destruct H as [Hd H].
    cbn [fold_left List.length].
    specialize (IH H (acc * 10 + (d - 48))).
    rewrite Nat2N.inj_succ, N.pow_succ_r'.
    assert (Hd' : d - 48 <= 9) by (clear -Hd; char_cases).
    set (P := 10 ^ N.of_nat (List.length ds)) in *. clearbody P.
    nia.
Qed.

End ParserFacts.

(** *** The conversion of a column *)

Section ColumnFacts.

Lemma mapM_length {A B} (f : A -> result B) (l : list A) (bs : list B) :
  mapM f l = Ok bs -> List.length bs = List.length l.
Proof.
  revert bs. induction l as [|a l IH]; intros bs; simpl.
  - intros H. injection H as <-. reflexivity.
  - destruct (f a); simpl; [|discriminate].
    destruct (mapM f l) as [bs'|]; simpl; [|discriminate].
    intros H. injection H as <-. simpl. f_equal. now apply IH.
Qed.

Lemma mapM_nth {A B} (f : A -> result B) (l : list A) (bs : list B) :
  mapM f l = Ok bs ->
  forall i a, nth_error l i = Some a ->
              exists b, f a = Ok b /\ nth_error bs i = Some b.
Proof.
  revert bs. induction l as [|x l IH]; intros bs; simpl.
  - intros _ [|i] a H; discriminate.
  - destruct (f x) as [y|] eqn:Ex; simpl; [|discriminate].
    destruct (mapM f l) as [bs'|]; simpl; [|discriminate].
    intros H. injection H as <-. intros [|i] a Ha; simpl in *.
    + injection Ha as <-. eauto.
    + now apply IH.
Qed.

Lemma mapM_map {A B C} (f : B -> result C) (h : A -> B) (l : list A) :
  mapM f (map h l) = mapM (fun a => f (h a)) l.
Proof.
  induction l as [|x l IH]; simpl; [reflexivity|]. now rewrite IH.
Qed.

Lemma mapM_ok {A B} (f : A -> result B) (g : A -> B) (l : list A) :
  (forall a, In a l -> f a = Ok (g a)) -> mapM f l = Ok (map g l).
Proof.
  induction l as [|x l IH]; intros H; simpl; [reflexivity|].
  rewrite (H x) by now left. simpl.
  rewrite IH; [reflexivity|]. intros a Ha. apply H. now right.
Qed.

(** Line 56, cell by cell up to the conversion of the column. *)
Lemma normalizar_eq (s : Series) :
  normalizar s = astype_int (fillna0 (to_numeric (map texto_limpo s))).
Proof.
  unfold normalizar, astype_str, str_replace. rewrite !map_map.
  do 3 f_equal. apply map_ext. intros v.
  unfold texto_limpo, limpar. destruct (isna v); reflexivity.
Qed.

Lemma to_numeric_lido (s : Series) :
  to_numeric (map texto_limpo s) =
    let ps := map lido s in
    if existsb is_uint ps && existsb is_null ps then Objetos
    else if existsb is_null ps || existsb is_float ps
         then Floats (map fval ps)
    else if existsb is_uint ps then UInts (map ival ps)
    else Ints (map ival ps).
Proof. unfold to_numeric. rewrite map_map. reflexivity. Qed.

Lemma existsb_false_In {A} (p : A -> bool) (l : list A) (a : A) :
  existsb p l = false -> In a l -> p a = false.
Proof.
  intros H Ha. destruct (p a) eqn:E; [|reflexivity].
  rewrite <- H. symmetry. apply existsb_exists. eauto.
Qed.

Lemma wrap64_small (n : N) : (n < 2 ^ 63)%N -> wrap64 n = Z.of_N n.
Proof.
  intros H. unfold wrap64. apply N.ltb_lt in H. now rewrite H.
Qed.

Lemma to_double_small (n : N) : (n < 2 ^ 53)%N -> to_double n = Num n.
Proof.
  intros H. unfold to_double. apply N.ltb_lt in H. now rewrite H.
Qed.

(** What the normaliser stores for a cell, by the type of the converted
    column. *)
Lemma normalizar_nth (s : Series) (zs : list Z) :
  normalizar s = Ok zs ->
  forall i v, nth_error s i = Some v ->
    (exists x, float_to_int (preencher (fval (lido v))) = Ok x
               /\ nth_error zs i = Some x)
    \/ (is_null (lido v) = false /\ is_float (lido v) = false
        /\ nth_error zs i = Some (wrap64 (ival (lido v))))
    \/ (is_null (lido v) = false /\ is_float (lido v) = false
        /\ is_uint (lido v) = false
        /\ nth_error zs i = Some (Z.of_N (ival (lido v)))).
Proof.
  rewrite normalizar_eq, to_numeric_lido. cbv zeta.
  intros H i v Hv.
  assert (Hin : In (lido v) (map lido s)).
  { apply in_map. eapply nth_error_In; eauto. }
  destruct (existsb is_uint (map lido s) && existsb is_null (map lido s));
    [discriminate|].
  destruct (existsb is_null (map lido s)) eqn:En; cbn [orb] in H.
  - left. cbn [fillna0 astype_int] in H.
    destruct (mapM_nth _ _ _ H i (preencher (fval (lido v))))
      as [x [Hx Hi]]; [|eauto].
    rewrite !map_map.
    now apply (map_nth_error (fun x => preencher (fval (lido x)))).
  - destruct (existsb is_float (map lido s)) eqn:Ef.
    + left. cbn [fillna0 astype_int] in H.
      destruct (mapM_nth _ _ _ H i (preencher (fval (lido v))))
        as [x [Hx Hi]]; [|eauto].
      rewrite !map_map.
      now apply (map_nth_error (fun x => preencher (fval (lido x)))).
    + pose proof (existsb_false_In _ _ _ En Hin) as Hn.
      pose proof (existsb_false_In _ _ _ Ef Hin) as Hf.
      destruct (existsb is_uint (map lido s)) eqn:Eu;
        cbn [fillna0 astype_int] in H; injection H as <-.
      * right. left. split; [exact Hn|]. split; [exact Hf|].
        rewrite !map_map.
        now apply (map_nth_error (fun x => wrap64 (ival (lido x)))).
      * right. right. split; [exact Hn|]. split; [exact Hf|].
        split; [exact (existsb_false_In _ _ _ Eu Hin)|].
        rewrite !map_map.
        now apply (map_nth_error (fun x => Z.of_N (ival (lido x)))).
Qed.

(** A cell of which the parser makes nothing is stored as 0. *)
Lemma normalizar_nth_null (s : Series) (zs : list Z) (i : nat) (v : valor) :
  normalizar s = Ok zs -> nth_error s i = Some v -> lido v = PNull ->
  nth_error zs i = Some 0%Z.
Proof.
  intros H Hv Hl.
  destruct (normalizar_nth s zs H i v Hv) as [[x [Hx Hi]]|[[Hn _]|[Hn _]]].
  - rewrite Hl in Hx. cbn in Hx. injection Hx as <-. exact Hi.
  - rewrite Hl in Hn. discriminate.
  - rewrite Hl in Hn. discriminate.
Qed.

(** A cell of which the parser makes an integer below 2^53 is stored as
    that integer, in a column of any type. *)
Lemma normalizar_nth_small (s : Series) (zs : list Z) (i : nat) (v : valor)
  (n : N) :
  normalizar s = Ok zs -> nth_error s i = Some v -> lido v = PInt n ->
  (n < 2 ^ 53)%N ->
  nth_error zs i = Some (Z.of_N n).
Proof.
  intros H Hv Hl Hn.
  assert (Hn' : (n < 2 ^ 63)%N).
  { eapply N.lt_trans; [exact Hn | reflexivity]. }
  destruct (normalizar_nth s zs H i v Hv)
    as [[x [Hx Hi]]|[[_ [_ Hi]]|[_ [_ [_ Hi]]]]].
  - rewrite Hl in Hx. cbn [fval] in Hx. rewrite (to_double_small n Hn) in Hx.
    cbn [preencher float_to_int] in Hx. apply N.ltb_lt in Hn'. rewrite Hn' in Hx.
    injection Hx as <-. exact Hi.
  - rewrite Hl in Hi. cbn [ival] in Hi. now rewrite wrap64_small in Hi.
  - rewrite Hl in Hi. exact Hi.
Qed.

(** A column of integers below 2^63 is converted as a column of int64,
    without rounding. *)
Lemma normalizar_ints (s : Series) :
  (forall v, In v s -> exists n, lido v = PInt n /\ (n < 2 ^ 63)%N) ->
  normalizar s = Ok (map (fun v => Z.of_N (ival (lido v))) s).
Proof.
  intros Hs. rewrite normalizar_eq, to_numeric_lido. cbv zeta.
  assert (Hall : forall p, In p (map lido s) ->
                   is_null p = false /\ is_float p = false
                   /\ is_uint p = false).
  { intros p Hp. apply in_map_iff in Hp. destruct Hp as [v [<- Hv]].
    destruct (Hs v Hv) as [n [-> Hn]]. cbn [is_null is_float is_uint].
    assert (H1 : (2 ^ 64 <=? n)%N = false).
    { apply N.leb_gt. eapply N.lt_trans; [exact Hn | reflexivity]. }
    assert (H2 : (2 ^ 63 <=? n)%N = false) by now apply N.leb_gt.
    rewrite H1, H2. auto. }
  assert (En : existsb is_null (map lido s) = false).
  { destruct (existsb is_null (map lido s)) eqn:E; [|reflexivity].
    apply existsb_exists in E. destruct E as [p [Hp E]].
    destruct (Hall p Hp) as [H _]. congruence. }
  assert (Ef : existsb is_float (map lido s) = false).
  { destruct (existsb is_float (map lido s)) eqn:E; [|reflexivity].
    apply existsb_exists in E. destruct E as [p [Hp E]].
    destruct (Hall p Hp) as [_ [H _]]. congruence. }
  assert (Eu : existsb is_uint (map lido s) = false).
  { destruct (existsb is_uint (map lido s)) eqn:E; [|reflexivity].
    apply existsb_exists in E. destruct E as [p [Hp E]].
    destruct (Hall p Hp) as [_ [_ H]]. congruence. }
  rewrite En, Ef, Eu. cbn [andb orb fillna0 astype_int].
  now rewrite !map_map.
Qed.

(** A column whose cells are nothing or integers below 2^53 converts
    without failure and without rounding, whatever its type. *)
Lemma normalizar_small (s : Series) :
  (forall v, In v s ->
     lido v = PNull \/ exists n, lido v = PInt n /\ (n < 2 ^ 53)%N) ->
  normalizar s = Ok (map (fun v => Z.of_N (ival (lido v))) s).
Proof.
  intros Hs.
  assert (Hall : forall p, In p (map lido s) ->
                   is_float p = false /\ is_uint p = false
                   /\ float_to_int (preencher (fval p))
                      = Ok (Z.of_N (ival p))).
  { intros p Hp. apply in_map_iff in Hp. destruct Hp as [v [<- Hv]].
    destruct (Hs v Hv) as [->|[n [-> Hn]]]; [cbn; auto|].
    assert (Hn' : (n < 2 ^ 63)%N).
    { eapply N.lt_trans; [exact Hn | reflexivity]. }
    cbn [is_float is_uint fval ival].
    assert (H1 : (2 ^ 64 <=? n)%N = false).
    { apply N.leb_gt. eapply N.lt_trans; [exact Hn' | reflexivity]. }
    assert (H2 : (2 ^ 63 <=? n)%N = false) by now apply N.leb_gt.
    rewrite H1, H2, (to_double_small n Hn).
    cbn [preencher float_to_int andb].
    apply N.ltb_lt in Hn'. rewrite Hn'. auto. }
  rewrite normalizar_eq, to_numeric_lido. cbv zeta.
  assert (Ef : existsb is_float (map lido s) = false).
  { destruct (existsb is_float (map lido s)) eqn:E; [|reflexivity].
    apply existsb_exists in E. destruct E as [p [Hp E]].
    destruct (Hall p Hp) as [H _]. congruence. }
  assert (Eu : existsb is_uint (map lido s) = false).
  { destruct (existsb is_uint (map lido s)) eqn:E; [|reflexivity].
    apply existsb_exists in E. destruct E as [p [Hp E]].
    destruct (Hall p Hp) as [_ [H _]]. congruence. }
  rewrite Ef, Eu. cbn [andb]. rewrite orb_false_r.
  destruct (existsb is_null (map lido s)); cbn [fillna0 astype_int].
  - rewrite !map_map, mapM_map.
    apply (mapM_ok _ (fun v => Z.of_N (ival (lido v)))).
    intros v Hv. apply Hall. now apply in_map.
  - now rewrite !map_map.
Qed.

Lemma normalizar_length (s : Series) (zs : list Z) :
  normalizar s = Ok zs -> List.length zs = List.length s.
Proof.
  rewrite normalizar_eq, to_numeric_lido. cbv zeta.
  destruct (existsb is_uint (map lido s) && existsb is_null (map lido s));
    [discriminate|].
  destruct (existsb is_null (map lido s) || existsb is_float (map lido s)).
  - cbn [fillna0 astype_int]. intros H. apply mapM_length in H.
    now rewrite H, !length_map.
  - destruct (existsb is_uint (map lido s)); cbn [fillna0 astype_int];
      intros H; injection H as <-; now rewrite !length_map.
Qed.

End ColumnFacts.

(** *** Cells of digits *)

Section DigitCells.

Open Scope N_scope.

Lemma digits_aux_length (f : nat) :
  forall (n : N) (acc : str),
    (List.length (digits_aux f n acc) <= f + List.length acc)%nat.
Proof.
  induction f as [|f IH]; intros n acc; cbn [digits_aux]; [lia|].
  destruct (n <? 10); cbn [List.length]; [lia|].
  specialize (IH (n / 10) ((48 + n mod 10) :: acc)).
  cbn [List.length] in IH. lia.
Qed.

(** An integer below 2^63 is written with at most 64 digits. *)
Lemma str_of_N_short (n : N) :
  n < 2 ^ 63 -> (List.length (str_of_N n) <= 64)%nat.
Proof.
  intros Hn. unfold str_of_N.
  pose proof (digits_aux_length (S (N.to_nat (N.size n))) n []) as H.
  cbn [List.length] in H.
  assert (Hs : N.size n <= 63).
  { destruct (N.eq_dec n 0) as [->|Hz]; [cbn; lia|].
    rewrite N.size_log2 by assumption.
    assert (N.log2 n < 63) by (apply N.log2_lt_pow2; lia). lia. }
  lia.
Qed.

(** The cell of a number written with dots is read as the number. *)
Lemma lido_format_with_dots (n : N) :
  n < 2 ^ 63 -> lido (Str (format_with_dots n)) = PInt n.
Proof.
  intros Hn. unfold lido, texto_limpo. cbn [isna py_str].
  rewrite limpar_format_with_dots.
  destruct (str_of_N_spec n) as [Hne [Hd Hv]].
  assert (Hlen : (List.length (str_of_N n) <= 4300)%nat).
  { pose proof (str_of_N_short n Hn). lia. }
  rewrite (parse_cell_digits (str_of_N n) Hne Hd Hlen).
  now rewrite Hv.
Qed.

(** The cell of a non-empty text of digits and dashes, of at most 4300
    characters, is read as the number with each dash as 0. *)
Lemma lido_digits_dashes (t : str) :
  t <> [] -> forallb digit_or_dash t = true ->
  (List.length t <= 4300)%nat ->
  lido (Str t) = PInt (dash_as_zero t).
Proof.
  intros Hne Ht Hlen. unfold lido, texto_limpo. cbn [isna py_str].
  destruct (limpar_digits_dashes t Ht) as [E Hd].
  assert (Hne' : limpar t <> []).
  { rewrite E. destruct t; [congruence | discriminate]. }
  assert (Hlen' : (List.length (limpar t) <= 4300)%nat).
  { now rewrite E, length_map. }
  rewrite (parse_cell_digits (limpar t) Hne' Hd Hlen').
  rewrite E, dash_as_zero_map. reflexivity.
Qed.

Lemma dash_as_zero_bound (t : str) :
  forallb digit_or_dash t = true ->
  dash_as_zero t < 10 ^ N.of_nat (List.length t).
Proof.
  intros Ht. destruct (limpar_digits_dashes t Ht) as [E Hd].
  pose proof (digits_value_bound (limpar t) Hd 0) as H.
  rewrite E, dash_as_zero_map, length_map in H.
  unfold dash_as_zero. now rewrite N.add_0_l, N.mul_1_l in H.
Qed.

(** A text of at most 15 digits denotes a number below 2^53. *)
Lemma pow10_15 (k : nat) (x : N) :
  (k <= 15)%nat -> x < 10 ^ N.of_nat k -> x < 2 ^ 53.
Proof.
  intros Hk Hx.
  assert (H : 10 ^ N.of_nat k <= 10 ^ 15) by (apply N.pow_le_mono_r; lia).
  assert (H' : 10 ^ 15 < 2 ^ 53) by reflexivity.
  lia.
Qed.

Lemma replace_dot_report (t : str) :
  forallb (fun c => isdigit c || (c =? 46) || (c =? 45)) t = true ->
  forallb digit_or_dash (replace 46 [] t) = true.
Proof.
  induction t as [|c t IH]; intros H; [reflexivity|].
  cbn [forallb] in H. apply andb_true_iff in H. destruct H as [Hc H].
  cbn [replace]. destruct (N.eqb_spec c 46) as [->|Hne].
  - cbn [app]. now apply IH.
  - cbn [forallb]. rewrite (IH H), andb_true_r.
    clear -Hc Hne. char_cases.
Qed.

Lemma replace_dot_idem (t : str) :
  replace 46 [] (replace 46 [] t) = replace 46 [] t.
Proof.
  induction t as [|c t IH]; [reflexivity|]. cbn [replace].
  destruct (c =? 46) eqn:E; cbn [app]; [exact IH|].
  cbn [replace]. rewrite E. now rewrite IH.
Qed.

Lemma limpar_replace_dot (t : str) : limpar (replace 46 [] t) = limpar t.
Proof. unfold limpar. now rewrite replace_dot_idem. Qed.

(** A cell as the report writes it, with at most 15 digits and dashes,
    is read as nothing or as the number it denotes. *)
Lemma lido_report (v : valor) :
  celula_do_relatorio 15 v = true ->
  (lido v = PNull \/
   exists n, lido v = PInt n /\ n < 2 ^ 53)
  /\ ival (lido v) = valor_da_celula v.
Proof.
  destruct v as [|t|z|x]; cbn [celula_do_relatorio]; try discriminate.
  - intros _. split; [now left | reflexivity].
  - intros H. apply andb_true_iff in H. destruct H as [Ht Hlen].
    apply Nat.leb_le in Hlen.
    pose proof (replace_dot_report t Ht) as Hd.
    cbn [valor_da_celula].
    assert (El : lido (Str t) = lido (Str (replace 46 [] t))).
    { unfold lido, texto_limpo. cbn [isna py_str].
      now rewrite limpar_replace_dot. }
    rewrite El.
    destruct (replace 46 [] t) as [|c r] eqn:Er.
    + split; [now left | reflexivity].
    + rewrite (lido_digits_dashes (c :: r)); [|discriminate|assumption|lia].
      split; [|reflexivity].
      right. eexists. split; [reflexivity|].
      apply (pow10_15 (List.length (c :: r))); [assumption|].
      now apply dash_as_zero_bound.
Qed.

(** A cell whose text holds a stray character and no null character is
    read as nothing. *)
Lemma lido_stray (v : valor) (c : char) :
  In c (py_str v) -> stray c = true -> ~ In 0 (py_str v) ->
  lido v = PNull.
Proof.
  intros Hin Hc Hnul. unfold lido, texto_limpo.
  destruct (isna v); [reflexivity|].
  apply (parse_cell_stray c); [assumption| |].
  - apply limpar_keeps; auto; intros ->; discriminate.
  - intros H. apply limpar_In in H. destruct H as [H|H];
      [contradiction | discriminate].
Qed.

(** A column of cells as the report writes them is converted without an
    exception, as the numbers the cells denote. *)
Lemma normalizar_report (s : Series) :
  Forall (fun v => celula_do_relatorio 15 v = true) s ->
  normalizar s = Ok (map (fun v => Z.of_N (valor_da_celula v)) s).
Proof.
  intros Hs. rewrite Forall_forall in Hs. rewrite normalizar_small.
  - f_equal. apply map_ext_in. intros v Hv.
    now rewrite (proj2 (lido_report v (Hs v Hv))).
  - intros v Hv. exact (proj1 (lido_report v (Hs v Hv))).
Qed.

End DigitCells.

(** *** The claims on the normaliser *)

(** C2, the claim fails: 2^63 is written "9.223.372.036.854.775.808";
    cleaned and parsed it is 2^63, which only an unsigned 64-bit integer
    holds, and the signed one of [.astype(int)] stores it as -2^63. *)
Lemma normalizar_round_trip_overflows :
  normalizar [Str (format_with_dots (2 ^ 63))] = Ok [(- 2 ^ 63)%Z]
  /\ ~ (forall n : N, normalizar [Str (format_with_dots n)] = Ok [Z.of_N n]).
Proof.
  assert (E : normalizar [Str (format_with_dots (2 ^ 63))] = Ok [(- 2 ^ 63)%Z])
    by (vm_compute; reflexivity).
  split; [exact E|].
  intros H. rewrite (H (2 ^ 63)%N) in E. vm_compute in E. discriminate.
Qed.

(** C2 (amended): the normaliser makes 1234 of "1.234" and 0 of "-", of a
    missing cell and of the empty text.  A column of non-negative
    integers below 2^63, written with '.' between their groups of three
    digits, is returned as those integers.  A column of cells as the
    report writes them (missing cells and texts of digits, dots and
    dashes, of at most 15 digits and dashes each) is returned without an
    exception as the numbers the cells denote, a dash read as the digit 0
    and a cell without a digit as 0. *)
Theorem normalizar_spec :
  normalizar [Str (u "1.234")] = Ok [1234%Z]
  /\ normalizar [Str (u "-")] = Ok [0%Z]
  /\ normalizar [NaN] = Ok [0%Z]
  /\ normalizar [Str (u "")] = Ok [0%Z]
  /\ (forall ns : list N,
         Forall (fun n => (n < 2 ^ 63)%N) ns ->
         normalizar (map (fun n => Str (format_with_dots n)) ns)
         = Ok (map Z.of_N ns))
  /\ (forall s : Series,
         Forall (fun v => celula_do_relatorio 15 v = true) s ->
         normalizar s = Ok (map (fun v => Z.of_N (valor_da_celula v)) s)).
Proof.
  do 4 (split; [vm_compute; reflexivity|]).
  split.
  - intros ns Hns. rewrite Forall_forall in Hns.
    rewrite normalizar_ints.
    + rewrite map_map. f_equal. apply map_ext_in. intros n Hn.
      now rewrite lido_format_with_dots by auto.
    + intros v Hv. apply in_map_iff in Hv. destruct Hv as [n [<- Hn]].
      exists n. split; [apply lido_format_with_dots|]; auto.
  - exact normalizar_report.
Qed.

Lemma normalizar_spec_witness :
  normalizar [Str (u "1.234.567"); Str (u "9.223.372.036.854.775.807")]
  = Ok [1234567%Z; 9223372036854775807%Z]
  /\ normalizar [Str (u "1.200"); Str (u "-"); NaN; Str (u "")]
     = Ok [1200%Z; 0%Z; 0%Z; 0%Z].
Proof.
  split.
  - refine (proj1 (proj2 (proj2 (proj2 (proj2 normalizar_spec))))
              [1234567%N; 9223372036854775807%N] _).
    repeat constructor.
  - refine (proj2 (proj2 (proj2 (proj2 (proj2 normalizar_spec))))
              [Str (u "1.200"); Str (u "-"); NaN; Str (u "")] _).
    repeat constructor.
Defined.

(** C5, the claim fails: "1.2-3" holds a dot and a character that is no
    digit, the dash, and the normaliser makes 1203 of it: the dot is
    removed and the dash is read as the digit 0. *)
Lemma normalizar_dot_and_dash_is_number :
  normalizar [Str (u "1.2-3")] = Ok [1203%Z]
  /\ ~ (forall v : valor,
           In 46%N (py_str v) ->
           (exists c, In c (py_str v) /\ isdigit c = false /\ c <> 46%N) ->
           normalizar [v] = Ok [0%Z]).
Proof.
  assert (E : normalizar [Str (u "1.2-3")] = Ok [1203%Z])
    by (vm_compute; reflexivity).
  split; [exact E|].
  intros H. rewrite (H (Str (u "1.2-3"))) in E.
  - discriminate.
  - vm_compute. tauto.
  - exists 45%N. split; [vm_compute; tauto|]. split; [reflexivity|discriminate].
Qed.

(** C5 (amended): a raw cell whose string form holds a '.' and a
    character that is neither a digit, a dot, a dash, a plus sign, white
    space nor one of the letters e, i, n, f, t, y, and holds no null
    character, is returned as 0: alone in its column, and in every
    column that the normaliser converts. *)
Theorem normalizar_stray_is_zero (v : valor) :
  In 46%N (py_str v) ->
  (exists c, In c (py_str v) /\ stray c = true) ->
  ~ In 0%N (py_str v) ->
  normalizar [v] = Ok [0%Z]
  /\ (forall (s : Series) (zs : list Z) (i : nat),
         normalizar s = Ok zs -> nth_error s i = Some v ->
         nth_error zs i = Some 0%Z).
Proof.
  intros _ [c [Hin Hc]] Hnul.
  pose proof (lido_stray v c Hin Hc Hnul) as Hl.
  split.
  - rewrite normalizar_small.
    + cbn [map]. now rewrite Hl.
    + intros w [<-|[]]. now left.
  - intros s zs i H Hv. exact (normalizar_nth_null s zs i v H Hv Hl).
Qed.

Lemma normalizar_stray_is_zero_witness :
  normalizar [Str (u "1.200,50")] = Ok [0%Z]
  /\ normalizar [Str (u "1.2kg")] = Ok [0%Z]
  /\ normalizar [Str (u "7"); Str (u "R$ 1.000"); Str (u "1.200")]
     = Ok [7%Z; 0%Z; 1200%Z]
  /\ nth_error [7%Z; 0%Z; 1200%Z] 1 = Some 0%Z.
Proof.
  split; [|split; [|split; [vm_compute; reflexivity|]]].
  - refine (proj1 (normalizar_stray_is_zero (Str (u "1.200,50")) _ _ _)).
    + vm_compute. tauto.
    + exists 44%N. split; [vm_compute; tauto | reflexivity].
    + vm_compute. intuition discriminate.
  - refine (proj1 (normalizar_stray_is_zero (Str (u "1.2kg")) _ _ _)).
    + vm_compute. tauto.
    + exists 107%N. split; [vm_compute; tauto | reflexivity].
    + vm_compute. intuition discriminate.
  - refine (proj2 (normalizar_stray_is_zero (Str (u "R$ 1.000")) _ _ _)
              [Str (u "7"); Str (u "R$ 1.000"); Str (u "1.200")]
              [7%Z; 0%Z; 1200%Z] 1%nat _ _).
    + vm_compute. tauto.
    + exists 36%N. split; [vm_compute; tauto | reflexivity].
    + vm_compute. intuition discriminate.
    + vm_compute. reflexivity.
    + reflexivity.
Defined.

(** C10, the claim fails: "1-000000000000000000", read with the dash as
    0, is 10^19, which only an unsigned 64-bit integer holds, and the
    signed one of [.astype(int)] stores it as 10^19 - 2^64. *)
Lemma normalizar_dashes_overflow :
  normalizar [Str (u "1-000000000000000000")] = Ok [(10 ^ 19 - 2 ^ 64)%Z]
  /\ ~ (forall s : str,
           s <> [] -> forallb digit_or_dash s = true ->
           normalizar [Str s] = Ok [Z.of_N (dash_as_zero s)]).
Proof.
  assert (E : normalizar [Str (u "1-000000000000000000")]
              = Ok [(10 ^ 19 - 2 ^ 64)%Z]) by (vm_compute; reflexivity).
  split; [exact E|].
  intros H. rewrite (H (u "1-000000000000000000")) in E.
  - vm_compute in E. discriminate.
  - discriminate.
  - reflexivity.
Qed.

(** C10 (amended): the normaliser replaces every '-' of the cell's string
    form by the digit 0, not only a cell that is the dash alone.  A
    column of non-empty texts of digits and dashes, of at most 300
    characters each, whose values, each dash read as 0, are below 2^63,
    is returned as those values.  In every column that the normaliser
    converts, such a text of at most 15 characters is returned as its
    value.  "1-2" gives 102, not 0. *)
Theorem normalizar_dash_as_zero :
  (forall ts : list str,
      Forall (fun t => t <> [] /\ forallb digit_or_dash t = true
                       /\ (List.length t <= 300)%nat
                       /\ (dash_as_zero t < 2 ^ 63)%N) ts ->
      normalizar (map Str ts) = Ok (map (fun t => Z.of_N (dash_as_zero t)) ts))
  /\ (forall (s : Series) (zs : list Z) (i : nat) (t : str),
         normalizar s = Ok zs -> nth_error s i = Some (Str t) ->
         t <> [] -> forallb digit_or_dash t = true ->
         (List.length t <= 15)%nat ->
         nth_error zs i = Some (Z.of_N (dash_as_zero t)))
  /\ normalizar [Str (u "1-2")] = Ok [102%Z]
  /\ normalizar [Str (u "1-2")] <> Ok [0%Z].
Proof.
  split; [|split;
           [|split; [vm_compute; reflexivity
                    | intros H; vm_compute in H; discriminate]]].
  - intros ts Hts. rewrite Forall_forall in Hts.
    rewrite normalizar_ints.
    + rewrite map_map. f_equal. apply map_ext_in. intros t Ht.
      destruct (Hts t Ht) as [H1 [H2 [H3 _]]].
      rewrite lido_digits_dashes; auto. lia.
    + intros v Hv. apply in_map_iff in Hv. destruct Hv as [t [<- Ht]].
      destruct (Hts t Ht) as [H1 [H2 [H3 H4]]].
      exists (dash_as_zero t). split; [|exact H4].
      apply lido_digits_dashes; auto. lia.
  - intros s zs i t H Hv Hne Ht Hlen.
    apply (normalizar_nth_small s zs i (Str t) (dash_as_zero t) H Hv).
    + apply lido_digits_dashes; auto. lia.
    + apply (pow10_15 (List.length t)); [assumption|].
      now apply dash_as_zero_bound.
Qed.

Lemma normalizar_dash_as_zero_witness :
  normalizar [Str (u "-7-"); Str (u "9223372036854775807")]
  = Ok [70%Z; 9223372036854775807%Z]
  /\ normalizar [Str (u "x"); Str (u "1-2")] = Ok [0%Z; 102%Z]
  /\ nth_error [0%Z; 102%Z] 1 = Some 102%Z.
Proof.
  split; [|split; [vm_compute; reflexivity|]].
  - refine (proj1 normalizar_dash_as_zero
              [u "-7-"; u "9223372036854775807"] _).
    constructor; [|constructor; [|constructor]];
      (split; [discriminate
              | split; [reflexivity
                       | split; [vm_compute; lia | reflexivity]]]).
  - refine (proj1 (proj2 normalizar_dash_as_zero)
              [Str (u "x"); Str (u "1-2")] [0%Z; 102%Z] 1%nat (u "1-2")
              _ _ _ _ _).
    + vm_compute. reflexivity.
    + reflexivity.
    + discriminate.
    + reflexivity.
    + vm_compute. lia.
Defined.

(** ** Frames *)

Section FrameFacts.

Lemma cell_set_same (i : nat) (v : valor) (r : list valor) :
  cell i (set_cell i v r) = v.
Proof.
  unfold cell. revert r. induction i as [|i IH]; intros [|x r]; simpl; auto.
Qed.

Lemma cell_nil (j : nat) : cell j [] = NaN.
Proof. unfold cell. destruct j; reflexivity. Qed.

Lemma cell_set_other (i j : nat) (v : valor) (r : list valor) :
  i <> j -> cell j (set_cell i v r) = cell j r.
Proof.
  unfold cell. revert j r.
  induction i as [|i IH]; intros [|j] [|x r] H; simpl; auto;
    try congruence.
  - destruct j; reflexivity.
  - rewrite IH by congruence. destruct j; reflexivity.
Qed.

Lemma map_cell_zip_same (i : nat) (s : Series) (rs : list (list valor)) :
  List.length s = List.length rs ->
  map (cell i) (zip_rows (set_cell i) s rs) = s.
Proof.
  revert rs. induction s as [|v s IH]; intros [|r rs] H; simpl in *;
    try discriminate; auto.
  rewrite cell_set_same, IH; auto.
Qed.

Lemma map_cell_zip_other (i j : nat) (s : Series) (rs : list (list valor)) :
  i <> j ->
  map (cell j) (zip_rows (set_cell i) s rs) = map (cell j) rs.
Proof.
  intros Hij. revert rs.
  induction s as [|v s IH]; intros [|r rs]; simpl; auto.
  rewrite cell_set_other, IH; auto.
Qed.

Lemma zip_rows_length (f : valor -> list valor -> list valor)
  (s : Series) (rs : list (list valor)) :
  List.length (zip_rows f s rs) = List.length rs.
Proof.
  revert rs. induction s as [|v s IH]; intros [|r rs]; simpl; auto.
Qed.

(** Two names with the same first position are the same name. *)
Lemma col_index_inj (c c' : str) (cols : list str) (i : nat) :
  col_index c cols = Some i -> col_index c' cols = Some i -> c = c'.
Proof.
  revert i. induction cols as [|x cols IH]; intros i; simpl; [discriminate|].
  destruct (str_eqb x c) eqn:E1, (str_eqb x c') eqn:E2.
  - apply str_eqb_eq in E1, E2. congruence.
  - intros H1 H2. injection H1 as <-.
    destruct (col_index c' cols); discriminate.
  - intros H1 H2. injection H2 as <-.
    destruct (col_index c cols); discriminate.
  - destruct (col_index c cols) as [a|], (col_index c' cols) as [b|];
      simpl; try discriminate.
    intros H1 H2. injection H1 as <-. injection H2 as H2.
    apply (IH a); congruence.
Qed.

Lemma get_col_length (df : DataFrame) (col : str) (s : Series) :
  get_col df col = Ok s -> List.length s = List.length (rows df).
Proof.
  unfold get_col. destruct (col_index col (columns df)); [|discriminate].
  intros H. injection H as <-. apply length_map.
Qed.

Lemma has_col_get (df : DataFrame) (col : str) :
  has_col df col = true -> exists s, get_col df col = Ok s.
Proof.
  unfold has_col, get_col.
  destruct (col_index col (columns df)); [eauto | discriminate].
Qed.

Lemma get_col_has (df : DataFrame) (col : str) (s : Series) :
  get_col df col = Ok s -> has_col df col = true.
Proof.
  unfold has_col, get_col.
  destruct (col_index col (columns df)); [reflexivity | discriminate].
Qed.

(** Overwriting a column the frame has: the columns stay, the column
    holds the new cells, the others are untouched. *)
Lemma set_col_columns (df : DataFrame) (col : str) (s : Series) :
  has_col df col = true -> columns (set_col df col s) = columns df.
Proof.
  unfold has_col, set_col.
  destruct (col_index col (columns df)); [reflexivity | discriminate].
Qed.

Lemma set_col_rows_length (df : DataFrame) (col : str) (s : Series) :
  List.length (rows (set_col df col s)) = List.length (rows df).
Proof.
  unfold set_col.
  destruct (col_index col (columns df)); simpl; apply zip_rows_length.
Qed.

Lemma get_set_col_same (df : DataFrame) (col : str) (s : Series) :
  has_col df col = true -> List.length s = List.length (rows df) ->
  get_col (set_col df col s) col = Ok s.
Proof.
  unfold has_col, set_col, get_col.
  destruct (col_index col (columns df)) as [i|] eqn:E; [|discriminate].
  intros _ H. simpl. rewrite E. now rewrite map_cell_zip_same.
Qed.

Lemma get_set_col_other (df : DataFrame) (col col' : str) (s : Series) :
  has_col df col = true -> col <> col' ->
  get_col (set_col df col s) col' = get_col df col'.
Proof.
  unfold has_col, set_col, get_col.
  destruct (col_index col (columns df)) as [i|] eqn:E; [|discriminate].
  intros _ Hne. simpl.
  destruct (col_index col' (columns df)) as [j|] eqn:E'; [|reflexivity].
  rewrite map_cell_zip_other; [reflexivity|].
  intros ->. apply Hne. eapply col_index_inj; eauto.
Qed.

Lemma select_rows_map (p : list valor -> bool) (rs : list (list valor)) :
  select_rows (map p rs) rs = filter p rs.
Proof.
  induction rs as [|r rs IH]; simpl; auto.
  destruct (p r); now rewrite IH.
Qed.

Lemma mask_and_map (p q : list valor -> bool) (rs : list (list valor)) :
  mask_and (map p rs) (map q rs) = map (fun r => p r && q r) rs.
Proof. induction rs as [|r rs IH]; simpl; auto. now rewrite IH. Qed.

Lemma repeat_true_map (rs : list (list valor)) :
  repeat true (List.length rs) = map (fun _ => true) rs.
Proof. induction rs as [|r rs IH]; simpl; auto. now rewrite IH. Qed.

Lemma filter_true (rs : list (list valor)) : filter (fun _ => true) rs = rs.
Proof. induction rs as [|r rs IH]; simpl; auto. now rewrite IH. Qed.

(** One step of the filter: the mask of the rows that pass [p], narrowed
    by the test [q] on the column [col] when the constraint is in
    force. *)
Lemma mask_step (df : DataFrame) (col : str) (active : bool)
  (q : valor -> bool) (p : list valor -> bool) :
  (if active
   then bind (get_col df col)
             (fun s => Ok (mask_and (map p (rows df)) (map q s)))
   else Ok (map p (rows df)))
  = if negb active || has_col df col
    then Ok (map (fun r => p r && (negb active || q (cell_of df col r)))
                 (rows df))
    else Raise KeyError.
Proof.
  unfold get_col, has_col, cell_of.
  destruct active; simpl.
  - destruct (col_index col (columns df)) as [i|]; simpl; [|reflexivity].
    rewrite map_map, mask_and_map. reflexivity.
  - f_equal. apply map_ext. intros r. now rewrite andb_true_r.
Qed.

End FrameFacts.

(** ** Filter engine *)

(** What the filter computes: a [KeyError] when a constraint in force
    names a column the frame lacks, and otherwise the frame with the rows
    that pass the three constraints, in their order. *)
Lemma aplicar_filtros_eq (df : DataFrame) (m : valor) (e s : list valor) :
  aplicar_filtros df m e s =
    if filtros_ok df m e s
    then Ok (mkDataFrame (columns df) (filter (linha_passa df m e s) (rows df)))
    else Raise KeyError.
Proof.
  unfold aplicar_filtros, filtros_ok, series_eq, isin.
  rewrite repeat_true_map.
  rewrite (mask_step df (u "Municipio")
             (negb (valor_eqb m (Str TODOS_OS_MUNICIPIOS)))
             (fun v => valor_eqb v m) (fun _ => true)).
  rewrite negb_involutive.
  destruct (valor_eqb m (Str TODOS_OS_MUNICIPIOS) || has_col df (u "Municipio"));
    [|reflexivity].
  cbn [bind andb].
  rewrite (mask_step df (u "Etapa") (truthy e) (fun v => valor_in v e)).
  destruct (negb (truthy e) || has_col df (u "Etapa")); [|reflexivity].
  cbn [bind andb].
  rewrite (mask_step df (u "Status") (truthy s) (fun v => valor_in v s)).
  destruct (negb (truthy s) || has_col df (u "Status")); [|reflexivity].
  cbn [bind]. unfold select. rewrite select_rows_map.
  reflexivity.
Qed.

(** C6: for every table, the filter with the empty selection (the
    sentinel for Municipio, no Etapa, no Status) returns the table itself,
    the same rows in the same order.  A constraint whose selection is the
    sentinel or empty holds of every row, and the rows the filter keeps
    are those that pass the three constraints. *)
Theorem aplicar_filtros_identidade :
  (forall df : DataFrame,
      aplicar_filtros df (Str TODOS_OS_MUNICIPIOS) [] [] = Ok df)
  /\ (forall df r, passa_municipio df (Str TODOS_OS_MUNICIPIOS) r = true)
  /\ (forall df r, passa_etapa df [] r = true)
  /\ (forall df r, passa_status df [] r = true)
  /\ (forall df m e s,
         aplicar_filtros df m e s =
           if filtros_ok df m e s
           then Ok (mkDataFrame (columns df)
                                (filter (fun r => passa_municipio df m r
                                                  && passa_etapa df e r
                                                  && passa_status df s r)
                                        (rows df)))
           else Raise KeyError).
Proof.
  split; [|split; [|split; [|split]]]; try reflexivity.
  - intros [cols rs]. rewrite aplicar_filtros_eq. cbn.
    now rewrite filter_true.
  - intros df m e s. apply aplicar_filtros_eq.
Qed.

(** ** Table loader *)

Section LoaderFacts.

Lemma COLUNAS_NUMERICAS_NoDup : NoDup COLUNAS_NUMERICAS.
Proof.
  unfold COLUNAS_NUMERICAS.
  repeat (constructor; [vm_compute; intuition discriminate|]).
  constructor.
Qed.

(** What the loop of lines 54-56 has done when it ends without an
    exception: the columns and the number of rows are kept, every
    measure column the frame has is rewritten with the integers of the
    normaliser, and every other column is left as it was. *)
Lemma normalizar_colunas_inv (cols : list str) :
  NoDup cols ->
  forall df df',
    normalizar_colunas cols df = Ok df' ->
    columns df' = columns df
    /\ List.length (rows df') = List.length (rows df)
    /\ (forall col s, In col cols -> get_col df col = Ok s ->
          exists zs, normalizar s = Ok zs
                     /\ get_col df' col = Ok (map Int zs))
    /\ (forall col, ~ In col cols -> get_col df' col = get_col df col).
Proof.
  induction 1 as [|c cols Hnin Hnd IH]; intros df df' E.
  - cbn [normalizar_colunas] in E. injection E as <-.
    split; [reflexivity|]. split; [reflexivity|].
    split; [intros col s []|reflexivity].
  - cbn [normalizar_colunas] in E. destruct (has_col df c) eqn:Hc.
    + destruct (has_col_get df c Hc) as [s Hs]. rewrite Hs in E.
      cbn [bind] in E.
      destruct (normalizar s) as [zs|] eqn:Hzs; cbn [bind] in E;
        [|discriminate].
      assert (Hlen : List.length (map Int zs) = List.length (rows df)).
      { rewrite length_map, (normalizar_length s zs Hzs).
        now apply (get_col_length df c). }
      assert (Hother : forall col', c <> col' ->
                get_col (set_col df c (map Int zs)) col' = get_col df col').
      { intros col' Hne. now apply get_set_col_other. }
      destruct (IH _ _ E) as [Hcols [Hrows [Hin Hout]]].
      split; [rewrite Hcols; now apply set_col_columns|].
      split; [rewrite Hrows; apply set_col_rows_length|].
      split.
      * intros col s' [<-|Hcol] Hg.
        -- exists zs. rewrite Hs in Hg. injection Hg as <-.
           split; [assumption|].
           rewrite Hout by assumption. now apply get_set_col_same.
        -- apply Hin; [assumption|].
           rewrite Hother by (intros ->; contradiction). assumption.
      * intros col Hn. rewrite Hout by (intros H'; apply Hn; now right).
        apply Hother. intros ->. apply Hn. now left.
    + destruct (IH _ _ E) as [Hcols [Hrows [Hin Hout]]].
      split; [exact Hcols|]. split; [exact Hrows|]. split.
      * intros col s [<-|Hcol] Hg.
        -- apply get_col_has in Hg. rewrite Hg in Hc. discriminate.
        -- now apply Hin.
      * intros col Hn. apply Hout. intros H'. apply Hn. now right.
Qed.


End LoaderFacts.

(** C7, the loader at two inputs on which it does not do what the claim
    says.  For the file with the lines "Mat. Total;Enturmados" and
    "abc;inf", of which the reader makes a text and an infinite float,
    the unparseable column alone would load as zeros, but the infinity
    of the other column survives [errors="coerce"] and [.fillna(0)],
    [.astype(int)] raises, and the loader answers "no data" for the
    whole file.  For a path on which [caminho.exists()] raises, the
    exception reaches the caller, because line 50 stands before the
    [try]. *)
Theorem carregar_csv_inf_gives_no_data :
  let df := mkDataFrame [u "Mat. Total"; u "Enturmados"]
                        [[Str (u "abc"); Float (Inf false)]] in
  normalizar [Str (u "abc")] = Ok [0%Z]
  /\ normalizar [Float (Inf false)] = Raise IntCastingNaNError
  /\ carregar_csv unit (fun _ => Ok true) (fun _ => Ok df) tt = Ok None
  /\ carregar_csv unit (fun _ => Raise OSError) (fun _ => Ok df) tt
     = Raise OSError.
Proof.
  cbv zeta. repeat split; vm_compute; reflexivity.
Qed.

(** ** End-to-end scenario *)

(** C1, the claim fails: the description "A - 3º Ano" has no pipe, so
    the row's stage is "Total escola", not "3º Ano", and the filter with
    the stage set {"3º Ano"} drops the row; and Mat. Total, which the
    reader delivers as the float 1.2, is loaded as 12, not 1200. *)
Lemma cenario_etapa_not_3_ano :
  exists df df_e,
    carregar_csv unit (fun _ => Ok true) (fun _ => Ok cenario_bruto) tt
    = Ok (Some df)
    /\ get_col df (u "Mat. Total") = Ok [Int 12]
    /\ derivar_etapa df = Ok df_e
    /\ get_col df_e (u "Etapa") = Ok [Str (u "Total escola")]
    /\ get_col df_e (u "Etapa") <> Ok [Str (u "3º Ano")]
    /\ exists d,
         aplicar_filtros df_e (Str TODOS_OS_MUNICIPIOS) [Str (u "3º Ano")] []
         = Ok d
         /\ rows d = [].
Proof.
  eexists. eexists.
  split; [vm_compute; reflexivity|].
  split; [vm_compute; reflexivity|].
  split; [vm_compute; reflexivity|].
  split; [vm_compute; reflexivity|].
  split; [intros H; vm_compute in H; discriminate|].
  eexists. split; [vm_compute; reflexivity|reflexivity].
Qed.

(** C1 (amended): for the raw row of the scenario as the reader
    delivers it, loading gives Não Enturmados = 0 for the dash, and
    deriving the stage gives Etapa = "Total escola", because the
    description "A - 3º Ano" holds no pipe; the filter with the stage
    set {"Total escola"} keeps the row, and the filters with {"3º Ano"}
    and with {"Creche"} drop it. *)
Theorem cenario_ponta_a_ponta (Path : Type)
  (path_exists : Path -> result bool)
  (read_csv : Path -> result DataFrame) (p : Path) :
  path_exists p = Ok true -> read_csv p = Ok cenario_bruto ->
  exists df df_e,
    carregar_csv Path path_exists read_csv p = Ok (Some df)
    /\ get_col df (u "Não Enturmados") = Ok [Int 0]
    /\ derivar_etapa df = Ok df_e
    /\ get_col df_e (u "Etapa") = Ok [Str (u "Total escola")]
    /\ aplicar_filtros df_e (Str TODOS_OS_MUNICIPIOS)
                       [Str (u "Total escola")] [] = Ok df_e
    /\ aplicar_filtros df_e (Str TODOS_OS_MUNICIPIOS) [Str (u "3º Ano")] []
       = Ok (mkDataFrame (columns df_e) [])
    /\ aplicar_filtros df_e (Str TODOS_OS_MUNICIPIOS) [Str (u "Creche")] []
       = Ok (mkDataFrame (columns df_e) []).
Proof.
  intros Hex Hrd. unfold carregar_csv. rewrite Hex, Hrd. cbn [negb bind].
  eexists. eexists.
  split; [vm_compute; reflexivity|].
  repeat (split; [vm_compute; reflexivity|]).
  vm_compute; reflexivity.
Qed.

Lemma cenario_ponta_a_ponta_witness :
  exists df df_e,
    carregar_csv unit (fun _ => Ok true) (fun _ => Ok cenario_bruto) tt
    = Ok (Some df)
    /\ get_col df (u "Não Enturmados") = Ok [Int 0]
    /\ derivar_etapa df = Ok df_e
    /\ get_col df_e (u "Etapa") = Ok [Str (u "Total escola")]
    /\ aplicar_filtros df_e (Str TODOS_OS_MUNICIPIOS)
                       [Str (u "Total escola")] [] = Ok df_e
    /\ aplicar_filtros df_e (Str TODOS_OS_MUNICIPIOS) [Str (u "3º Ano")] []
       = Ok (mkDataFrame (columns df_e) [])
    /\ aplicar_filtros df_e (Str TODOS_OS_MUNICIPIOS) [Str (u "Creche")] []
       = Ok (mkDataFrame (columns df_e) []).
Proof.
  exact (cenario_ponta_a_ponta unit (fun _ => Ok true)
           (fun _ => Ok cenario_bruto) tt eq_refl eq_refl).
Defined.

(** ** Order and equality of cells *)

Section OrderFacts.

Open Scope N_scope.

Lemma str_leb_total (a b : str) : str_leb a b = false -> str_leb b a = true.
Proof.
  revert b. induction a as [|x a IH]; intros [|y b]; cbn [str_leb];
    intros Hab; try congruence.
  revert Hab.
  destruct (N.ltb_spec x y), (N.eqb_spec x y), (N.ltb_spec y x),
    (N.eqb_spec y x); cbn [orb andb]; intros Hab;
    try congruence; try lia; auto.
Qed.

Lemma str_leb_trans (a b c : str) :
  str_leb a b = true -> str_leb b c = true -> str_leb a c = true.
Proof.
  revert b c. induction a as [|x a IH]; intros [|y b] [|z c];
    cbn [str_leb]; intros Hab Hbc; try congruence.
  revert Hab Hbc.
  destruct (N.ltb_spec x y), (N.eqb_spec x y), (N.ltb_spec y z),
    (N.eqb_spec y z), (N.ltb_spec x z), (N.eqb_spec x z);
    cbn [orb andb]; intros Hab Hbc; try congruence; try lia; eauto.
Qed.

Close Scope N_scope.

Lemma numero_eqb_refl (a : numero) : numero_eqb a a = true.
Proof.
  destruct a; cbn [numero_eqb]; auto. apply Qeq_bool_iff. apply Qeq_refl.
Qed.

Lemma numero_eqb_sym (a b : numero) : numero_eqb a b = numero_eqb b a.
Proof.
  destruct a, b; cbn [numero_eqb]; auto.
  destruct (Qeq_bool q q0) eqn:E1, (Qeq_bool q0 q) eqn:E2; auto.
  - apply Qeq_bool_iff in E1. apply Qeq_sym in E1.
    apply Qeq_bool_iff in E1. congruence.
  - apply Qeq_bool_iff in E2. apply Qeq_sym in E2.
    apply Qeq_bool_iff in E2. congruence.
Qed.

Lemma numero_leb_total (a b : numero) :
  numero_leb a b = false -> numero_leb b a = true.
Proof.
  destruct a, b; cbn [numero_leb]; auto; try discriminate.
  intros H. apply Qle_bool_iff. apply Qlt_le_weak, Qnot_le_lt.
  intros Hle. apply Qle_bool_iff in Hle. congruence.
Qed.

Lemma numero_leb_trans (a b c : numero) :
  numero_leb a b = true -> numero_leb b c = true -> numero_leb a c = true.
Proof.
  destruct a, b, c; cbn [numero_leb]; auto; try discriminate.
  rewrite !Qle_bool_iff. apply Qle_trans.
Qed.

Lemma valor_eqb_refl (v : valor) : isna v = false -> valor_eqb v v = true.
Proof.
  destruct v as [|s|z|[neg|neg m e]]; cbn [isna valor_eqb numero_de];
    try discriminate; intros _;
    auto using str_eqb_refl, numero_eqb_refl.
Qed.

Lemma valor_eqb_sym (v w : valor) : valor_eqb v w = valor_eqb w v.
Proof.
  destruct v as [|s|z|x], w as [|s'|z'|x']; cbn [valor_eqb];
    try reflexivity;
    try (destruct (numero_de _); reflexivity);
    try (destruct (numero_de _), (numero_de _);
         auto using numero_eqb_sym).
  destruct (str_eqb s s') eqn:E1, (str_eqb s' s) eqn:E2; auto.
  - apply str_eqb_eq in E1. subst. now rewrite str_eqb_refl in E2.
  - apply str_eqb_eq in E2. subst. now rewrite str_eqb_refl in E1.
Qed.

(** Only a text equals a text. *)
Lemma valor_eqb_Str (v : valor) (s : str) :
  valor_eqb v (Str s) = true -> v = Str s.
Proof.
  destruct v as [|t|z|[neg|neg m e]]; cbn [valor_eqb numero_de];
    try discriminate.
  intros H. apply str_eqb_eq in H. now subst.
Qed.

Lemma is_str_leb_total (a b : valor) :
  is_str a = true -> is_str b = true ->
  valor_leb a b = false -> valor_leb b a = true.
Proof.
  destruct a, b; try discriminate. intros _ _. apply str_leb_total.
Qed.

Lemma is_str_leb_trans (a b c : valor) :
  is_str a = true -> is_str b = true -> is_str c = true ->
  valor_leb a b = true -> valor_leb b c = true -> valor_leb a c = true.
Proof.
  destruct a, b, c; try discriminate. intros _ _ _. apply str_leb_trans.
Qed.

Lemma is_num_leb (a b : valor) :
  is_num a = true -> is_num b = true ->
  exists p q, numero_de a = Some p /\ numero_de b = Some q
              /\ valor_leb a b = numero_leb p q.
Proof.
  unfold is_num.
  destruct (numero_de a) as [p|] eqn:Ea; [|discriminate].
  destruct (numero_de b) as [q|] eqn:Eb; [|discriminate].
  intros _ _. exists p, q. split; [reflexivity|]. split; [reflexivity|].
  destruct a, b; cbn [valor_leb]; try discriminate;
    now rewrite ?Ea, ?Eb.
Qed.

Lemma is_num_leb_total (a b : valor) :
  is_num a = true -> is_num b = true ->
  valor_leb a b = false -> valor_leb b a = true.
Proof.
  intros Ha Hb.
  destruct (is_num_leb a b Ha Hb) as [p [q [Ep [Eq E1]]]].
  destruct (is_num_leb b a Hb Ha) as [q' [p' [Eq' [Ep' E2]]]].
  rewrite E1, E2. assert (p' = p) by congruence.
  assert (q' = q) by congruence. subst. apply numero_leb_total.
Qed.

Lemma is_num_leb_trans (a b c : valor) :
  is_num a = true -> is_num b = true -> is_num c = true ->
  valor_leb a b = true -> valor_leb b c = true -> valor_leb a c = true.
Proof.
  intros Ha Hb Hc.
  destruct (is_num_leb a b Ha Hb) as [p [q [Ep [Eq E1]]]].
  destruct (is_num_leb b c Hb Hc) as [q' [r [Eq' [Er E2]]]].
  destruct (is_num_leb a c Ha Hc) as [p' [r' [Ep' [Er' E3]]]].
  rewrite E1, E2, E3.
  assert (p' = p) by congruence. assert (q' = q) by congruence.
  assert (r' = r) by congruence. subst. apply numero_leb_trans.
Qed.

End OrderFacts.

(** ** [dropna], [unique] and [sorted] *)

Section SortFacts.

(** The cells of one kind that [sorted] compares. *)
Variable kind : valor -> bool.
Hypothesis kind_total :
  forall a b, kind a = true -> kind b = true ->
              valor_leb a b = false -> valor_leb b a = true.
Hypothesis kind_trans :
  forall a b c, kind a = true -> kind b = true -> kind c = true ->
                valor_leb a b = true -> valor_leb b c = true ->
                valor_leb a c = true.

Lemma insert_sorted_perm (x : valor) (l : list valor) :
  Permutation (insert_sorted x l) (x :: l).
Proof.
  induction l as [|y l IH]; cbn [insert_sorted]; [reflexivity|].
  destruct (valor_leb x y); [reflexivity|].
  rewrite IH. apply perm_swap.
Qed.

Lemma isort_perm (l : list valor) : Permutation (isort l) l.
Proof.
  induction l as [|x l IH]; cbn [isort]; [reflexivity|].
  rewrite insert_sorted_perm. now constructor.
Qed.

Lemma insert_sorted_sorted (x : valor) (l : list valor) :
  kind x = true -> Forall (fun v => kind v = true) l ->
  StronglySorted (fun a b => valor_leb a b = true) l ->
  StronglySorted (fun a b => valor_leb a b = true) (insert_sorted x l).
Proof.
  intros Hx. induction l as [|y l IH]; intros Hl Hs; cbn [insert_sorted].
  - repeat constructor.
  - inversion Hs as [|y' l' Hs' Hy]; subst.
    inversion Hl as [|y' l' Hys Hl']; subst.
    destruct (valor_leb x y) eqn:E.
    + constructor; [assumption|]. constructor; [exact E|].
      rewrite Forall_forall in *. intros z Hz.
      apply (kind_trans x y z); auto.
    + constructor; [now apply IH|].
      rewrite Forall_forall in *. intros z Hz.
      apply (Permutation_in _ (insert_sorted_perm x l)) in Hz.
      destruct Hz as [<-|Hz]; [|now apply Hy].
      now apply kind_total.
Qed.

Lemma isort_sorted (l : list valor) :
  Forall (fun v => kind v = true) l ->
  StronglySorted (fun a b => valor_leb a b = true) (isort l).
Proof.
  induction l as [|x l IH]; intros Hl; cbn [isort]; [constructor|].
  inversion Hl; subst. apply insert_sorted_sorted; auto.
  rewrite Forall_forall in *. intros z Hz.
  apply (Permutation_in _ (isort_perm l)) in Hz. auto.
Qed.

End SortFacts.

Section UniqueFacts.

Lemma dropna_In (s : Series) (v : valor) :
  In v (dropna s) <-> In v s /\ isna v = false.
Proof.
  unfold dropna. rewrite filter_In, negb_true_iff. tauto.
Qed.

(** The values [unique] keeps are values of the column. *)
Lemma unique_aux_incl (s : Series) :
  forall seen v, In v (unique_aux seen s) -> In v s.
Proof.
  induction s as [|x s IH]; intros seen v; cbn [unique_aux]; [auto|].
  destruct (existsb (valor_eqb x) seen).
  - intros H. right. eauto.
  - intros [<-|H]; [now left | right; eauto].
Qed.

(** Every value of the column equals one that [unique] keeps, or one
    seen before. *)
Lemma unique_aux_cover (s : Series) :
  (forall v, In v s -> isna v = false) ->
  forall seen v,
    In v s ->
    exists w, (In w seen \/ In w (unique_aux seen s))
              /\ valor_eqb v w = true.
Proof.
  induction s as [|x s IH]; intros Hs seen v; [intros []|].
  assert (Hs' : forall w, In w s -> isna w = false)
    by (intros w Hw; apply Hs; now right).
  cbn [unique_aux]. destruct (existsb (valor_eqb x) seen) eqn:E.
  - intros [<-|Hv].
    + apply existsb_exists in E. destruct E as [w [Hw Ew]].
      exists w. auto.
    + apply (IH Hs' seen v Hv).
  - intros [<-|Hv].
    + exists x. split; [right; now left|].
      apply valor_eqb_refl, Hs. now left.
    + destruct (IH Hs' (x :: seen) v Hv) as [w [[[Ex|Hw]|Hw] Ew]];
        exists w; split; auto.
      * right. now left.
      * right. now right.
Qed.

(** The values [unique] keeps differ from each other and from those seen
    before. *)
Lemma unique_aux_distinct (s : Series) :
  forall seen,
    (forall a w, In a (unique_aux seen s) -> In w seen ->
                 valor_eqb a w = false)
    /\ ForallOrdPairs (fun a b => valor_eqb b a = false)
                      (unique_aux seen s).
Proof.
  induction s as [|x s IH]; intros seen; cbn [unique_aux].
  - split; [intros a w []|constructor].
  - destruct (existsb (valor_eqb x) seen) eqn:E; [apply IH|].
    destruct (IH (x :: seen)) as [H1 H2]. split.
    + intros a w [<-|Ha] Hw.
      * now apply (existsb_false_In _ _ _ E).
      * apply H1; [assumption | now right].
    + constructor; [|exact H2].
      apply Forall_forall. intros b Hb. apply H1; [assumption | now left].
Qed.

(** A list of cells that differ from each other holds no cell twice, and
    two of its cells that are equal are the same. *)
Lemma distinct_NoDup (l : list valor) :
  (forall v, In v l -> isna v = false) ->
  ForallOrdPairs (fun a b => valor_eqb b a = false) l ->
  NoDup l
  /\ (forall a b, In a l -> In b l -> valor_eqb a b = true -> a = b).
Proof.
  intros Hna H. induction H as [|x l Hx Hl IH].
  - split; [constructor | intros a b []].
  - assert (Hna' : forall v, In v l -> isna v = false)
      by (intros v Hv; apply Hna; now right).
    destruct (IH Hna') as [Hnd Heq].
    rewrite Forall_forall in Hx. split.
    + constructor; [|exact Hnd]. intros Hin.
      specialize (Hx x Hin).
      rewrite valor_eqb_refl in Hx; [discriminate|].
      apply Hna. now left.
    + intros a b [<-|Ha] [<-|Hb] E; auto.
      * specialize (Hx b Hb). rewrite valor_eqb_sym in Hx. congruence.
      * specialize (Hx a Ha). congruence.
Qed.

(** A sorted list without repetition is strictly sorted. *)
Lemma sorted_strict (l : list valor) :
  NoDup l ->
  (forall a b, In a l -> In b l -> valor_eqb a b = true -> a = b) ->
  StronglySorted (fun a b => valor_leb a b = true) l ->
  StronglySorted (fun a b => valor_ltb a b = true) l.
Proof.
  intros Hnd Heq Hs. induction Hs as [|x l Hs IH Hx].
  - constructor.
  - inversion Hnd as [|x' l' Hnin Hnd']; subst.
    constructor.
    + apply IH; [assumption|]. intros a b Ha Hb. apply Heq; now right.
    + rewrite Forall_forall in *. intros b Hb. unfold valor_ltb.
      rewrite (Hx b Hb). cbn [andb]. apply negb_true_iff.
      destruct (valor_eqb x b) eqn:E; [|reflexivity].
      apply Heq in E; [|now left | now right]. subst. contradiction.
Qed.

Lemma forallb_Forall {A} (p : A -> bool) (l : list A) :
  forallb p l = true <-> Forall (fun a => p a = true) l.
Proof. rewrite forallb_forall, Forall_forall. tauto. Qed.

(** What [sorted(df[col].dropna().unique())] is when it is computed: the
    values of the column that are not missing, each once, all texts or
    all numbers, in strictly increasing order. *)
Lemma sorted_unique_dropna (col : Series) (ms : list valor) :
  sorted (unique (dropna col)) = Ok ms ->
  (forall m, In m ms -> In m col /\ isna m = false)
  /\ (forall v, In v col -> isna v = false ->
                exists m, In m ms /\ valor_eqb v m = true)
  /\ StronglySorted (fun a b => valor_ltb a b = true) ms
  /\ (Forall (fun m => is_str m = true) ms
      \/ Forall (fun m => is_num m = true) ms).
Proof.
  unfold sorted, unique. set (l := unique_aux [] (dropna col)).
  assert (Hna : forall v, In v (dropna col) -> isna v = false).
  { intros v Hv. now apply dropna_In in Hv. }
  assert (Hl : forall v, In v l -> In v col /\ isna v = false).
  { intros v Hv. apply dropna_In. now apply (unique_aux_incl _ [] v). }
  destruct (unique_aux_distinct (dropna col) []) as [_ Hd]. fold l in Hd.
  destruct (distinct_NoDup l (fun v Hv => proj2 (Hl v Hv)) Hd)
    as [Hnd Heq].
  destruct (forallb is_str l || forallb is_num l) eqn:Ek; [|discriminate].
  intros H. injection H as <-.
  pose proof (isort_perm l) as Hp.
  split; [|split; [|split]].
  - intros m Hm. apply Hl. now apply (Permutation_in _ Hp).
  - intros v Hv Hn.
    destruct (unique_aux_cover (dropna col) Hna [] v) as [w [[[]|Hw] Ew]].
    { now apply dropna_In. }
    exists w. split; [|exact Ew].
    now apply (Permutation_in _ (Permutation_sym Hp)).
  - apply sorted_strict.
    + now apply (Permutation_NoDup (Permutation_sym Hp)).
    + intros a b Ha Hb. apply Heq; now apply (Permutation_in _ Hp).
    + apply orb_true_iff in Ek. destruct Ek as [Ek|Ek];
        apply forallb_Forall in Ek.
      * apply (isort_sorted is_str); auto using is_str_leb_total.
        intros a b c. apply is_str_leb_trans.
      * apply (isort_sorted is_num); auto using is_num_leb_total.
        intros a b c. apply is_num_leb_trans.
  - apply orb_true_iff in Ek. destruct Ek as [Ek|Ek];
      apply forallb_Forall in Ek; [left | right];
      rewrite Forall_forall in *; intros m Hm; apply Ek;
      now apply (Permutation_in _ Hp).
Qed.

End UniqueFacts.

(** ** Workbooks and archives *)

Section WorkbookFacts.

Lemma check_string_Ok (s t : str) :
  check_string s = Ok t -> t = cortar s /\ existsb ilegal t = false.
Proof.
  unfold check_string. cbv zeta.
  destruct (existsb ilegal (cortar s)) eqn:E; [discriminate|].
  intros H. split; [congruence|]. congruence.
Qed.

Lemma cortar_short (s : str) :
  (N.of_nat (List.length s) <= 32767)%N -> cortar s = s.
Proof. intros H. unfold cortar. apply firstn_all2. lia. Qed.

Lemma check_string_legal (s : str) :
  existsb ilegal s = false -> (N.of_nat (List.length s) <= 32767)%N ->
  check_string s = Ok s.
Proof.
  intros H Hlen. unfold check_string. cbv zeta.
  rewrite (cortar_short s Hlen). now rewrite H.
Qed.

Lemma check_data_extracao :
  check_string (u "Data de Extração dos Dados:")
  = Ok (u "Data de Extração dos Dados:").
Proof. vm_compute. reflexivity. Qed.

Lemma check_data_relatorio :
  check_string (u "Data do Relatório:") = Ok (u "Data do Relatório:").
Proof. vm_compute. reflexivity. Qed.

(** The sheet "Informações", when it is built. *)
Lemma sheet_info_Ok (titulo d r : str) (filtros : list str)
  (ws : Worksheet) :
  sheet_info titulo d r filtros = Ok ws ->
  exists resto,
    mapM (fun '(c, s) => t <- check_string s ;; Ok (c, Str t))
         (celulas_filtros filtros) = Ok resto
    /\ ws = info_com (cortar titulo) (cortar (texto_b3 d)) (cortar r) resto.
Proof.
  unfold sheet_info. cbv zeta. cbn [app mapM]. rewrite check_data_extracao, check_data_relatorio.
  destruct (check_string titulo) as [t1|] eqn:E1; cbn [bind];
    [|discriminate].
  destruct (check_string (texto_b3 d)) as [t3|] eqn:E3; cbn [bind];
    [|discriminate].
  destruct (check_string r) as [t5|] eqn:E5; cbn [bind]; [|discriminate].
  intros H.
  match type of H with
  | context [mapM ?f (celulas_filtros filtros)] =>
      destruct (mapM f (celulas_filtros filtros)) as [resto|] eqn:Er;
      cbn [bind] in H; [|discriminate]
  end.
  injection H as <-. exists resto. split; [exact Er|].
  apply check_string_Ok in E1, E3, E5.
  destruct E1 as [-> _], E3 as [-> _], E5 as [-> _]. reflexivity.
Qed.

(** A workbook, when it is built: the two sheets, "Informações" first. *)
Lemma montar_workbook_Ok (titulo d : str) (now : datetime) (df : DataFrame)
  (filtros : list str) (wb : Workbook) :
  montar_workbook titulo d now df filtros = Ok wb ->
  exists rel resto,
    sheet_relatorio df = Ok rel
    /\ mapM (fun '(c, s) => t <- check_string s ;; Ok (c, Str t))
            (celulas_filtros filtros) = Ok resto
    /\ (List.length (columns df) <= 26)%nat
    /\ wb = [info_com (cortar titulo) (cortar (texto_b3 d))
                      (cortar (strftime_relatorio now)) resto; rel].
Proof.
  unfold montar_workbook.
  destruct (sheet_relatorio df) as [rel|]; cbn [bind]; [|discriminate].
  destruct (sheet_info titulo d (strftime_relatorio now) filtros)
    as [info|] eqn:Ei; cbn [bind]; [|discriminate].
  destruct (Nat.ltb_spec 26 (List.length (columns df))) as [Hc|Hc];
    [discriminate|].
  intros H. injection H as <-.
  destruct (sheet_info_Ok _ _ _ _ _ Ei) as [resto [Hr ->]].
  exists rel, resto. auto.
Qed.

Lemma enumerate_nth {A} (l : list A) :
  forall k i a, nth_error l i = Some a ->
                nth_error (enumerate k l) i = Some (k + i, a).
Proof.
  induction l as [|x l IH]; intros k [|i] a H; try discriminate;
    cbn [enumerate nth_error] in *.
  - injection H as <-. now rewrite Nat.add_0_r.
  - rewrite (IH (S k) i a H). f_equal. f_equal. lia.
Qed.

Lemma enumerate_length {A} (l : list A) (k : nat) :
  List.length (enumerate k l) = List.length l.
Proof.
  revert k. induction l as [|x l IH]; intros k; cbn; [reflexivity|].
  now rewrite IH.
Qed.

(** The names of the entries of an archive are those of its
    municipalities, in their order. *)
Lemma mapM_nomes {A B} (f : nat * A -> result (str * B)) (nome : A -> str)
  (l : list A) :
  (forall k a b, f (k, a) = Ok b -> fst b = nome a) ->
  forall k bs, mapM f (enumerate k l) = Ok bs -> map fst bs = map nome l.
Proof.
  intros Hf. induction l as [|x l IH]; intros k bs; cbn [enumerate mapM].
  - intros H. injection H as <-. reflexivity.
  - destruct (f (k, x)) as [b|] eqn:Eb; cbn [bind]; [|discriminate].
    destruct (mapM f (enumerate (S k) l)) as [bs'|] eqn:Ebs; cbn [bind];
      [|discriminate].
    intros H. injection H as <-. cbn [map].
    now rewrite (Hf k x b Eb), (IH (S k) bs' Ebs).
Qed.

End WorkbookFacts.

(** C8, the claim fails: a column Municipio of the integer codes 10, 9
    and 100 is sorted by value, and the entries 9.xlsx, 10.xlsx, 100.xlsx
    are not in the lexicographic order of their names, in which "10"
    comes before "9".  And not every table gives an archive: on a table
    without a column Municipio the packager raises [KeyError]. *)
Lemma gerar_xlsx_por_municipio_numeric_order :
  let df := mkDataFrame [u "Municipio"; u "Status"]
              [[Int 10; Str (u "Normal")];
               [Int 9; Str (u "Normal")];
               [Int 100; Str (u "Normal")]] in
  (exists arch,
      gerar_xlsx_por_municipio sem_log df [] = Ok arch
      /\ map fst arch = [u "9.xlsx"; u "10.xlsx"; u "100.xlsx"]
      /\ str_leb (u "9") (u "10") = false
      /\ ~ StronglySorted (fun a b => str_leb a b = true) (map fst arch))
  /\ gerar_xlsx_por_municipio sem_log
       (mkDataFrame [u "Status"] [[Str (u "Normal")]]) []
     = Raise KeyError.
Proof.
  cbv zeta. split; [|vm_compute; reflexivity].
  eexists. split; [vm_compute; reflexivity|].
  split; [reflexivity|]. split; [reflexivity|].
  intros H. inversion H as [|a l _ Hf]; subst.
  inversion Hf as [|b l' Hb _]; subst. vm_compute in Hb. discriminate.
Qed.

(** C8 (amended): whenever the packager returns an archive, the table
    has a column Municipio and the entries are named "<Municipio>.xlsx"
    for the municipalities [ms], where [ms] holds the values of the
    column that are not missing, each once, all texts or all numbers, in
    strictly increasing order: texts in the lexicographic order of their
    code points, numbers by value.  The entry in position [k] is the
    workbook of the rows of its municipality.  For the municipalities
    "B", "A", "C" an archive is returned, and its entries are A.xlsx,
    B.xlsx, C.xlsx in this order. *)
Theorem gerar_xlsx_por_municipio_entries :
  (forall (amb : Ambiente) (df : DataFrame) (filtros : list str)
          (arch : Archive),
      gerar_xlsx_por_municipio amb df filtros = Ok arch ->
      exists (d : str) (col : Series) (ms : list valor),
        ler_data_extracao amb = Ok d
        /\ get_col df (u "Municipio") = Ok col
        /\ map fst arch = map (fun m => py_str m ++ u ".xlsx") ms
        /\ (forall m, In m ms -> In m col /\ isna m = false)
        /\ (forall v, In v col -> isna v = false ->
                      exists m, In m ms /\ valor_eqb v m = true)
        /\ StronglySorted (fun a b => valor_ltb a b = true) ms
        /\ (Forall (fun m => is_str m = true) ms
            \/ Forall (fun m => is_num m = true) ms)
        /\ (forall k m, nth_error ms k = Some m ->
              exists wb,
                nth_error arch k = Some (py_str m ++ u ".xlsx", wb)
                /\ montar_workbook (u "Relatório SIGE - " ++ py_str m) d
                     (relogio amb k) (select df (series_eq col m)) filtros
                   = Ok wb))
  /\ (forall (amb : Ambiente) (filtros : list str) (arch : Archive),
        gerar_xlsx_por_municipio amb exemplo_bac filtros = Ok arch ->
        map fst arch = [u "A.xlsx"; u "B.xlsx"; u "C.xlsx"])
  /\ (exists arch, gerar_xlsx_por_municipio sem_log exemplo_bac [] = Ok arch).
Proof.
  split; [|split].
  - intros amb df filtros arch. unfold gerar_xlsx_por_municipio.
    destruct (ler_data_extracao amb) as [d|]; cbn [bind]; [|discriminate].
    destruct (get_col df (u "Municipio")) as [col|]; cbn [bind];
      [|discriminate].
    destruct (sorted (unique (dropna col))) as [ms|] eqn:Es; cbn [bind];
      [|discriminate].
    intros H. exists d, col, ms.
    destruct (sorted_unique_dropna col ms Es) as [H1 [H2 [H3 H4]]].
    split; [reflexivity|]. split; [reflexivity|].
    split; [|split; [exact H1|split; [exact H2|split; [exact H3|
             split; [exact H4|]]]]].
    + refine (mapM_nomes _ (fun m => py_str m ++ u ".xlsx") ms _ 0 arch H).
      intros k a b. cbv zeta.
      destruct (montar_workbook _ _ _ _ _); cbn [bind]; [|discriminate].
      intros E. injection E as <-. reflexivity.
    + intros k m Hm.
      destruct (mapM_nth _ _ _ H k (0 + k, m)) as [b [Hb Hk]].
      { now apply enumerate_nth. }
      cbv zeta in Hb. cbn [Nat.add] in Hb.
      destruct (montar_workbook _ _ _ _ _) as [wb|] eqn:Ew; cbn [bind] in Hb;
        [|discriminate].
      injection Hb as <-. exists wb. auto.
  - intros amb filtros arch. unfold gerar_xlsx_por_municipio.
    destruct (ler_data_extracao amb) as [d|]; cbn [bind]; [|discriminate].
    change (get_col exemplo_bac (u "Municipio"))
      with (Ok [Str (u "B"); Str (u "A"); Str (u "C")]).
    cbn [bind].
    change (sorted (unique (dropna [Str (u "B"); Str (u "A"); Str (u "C")])))
      with (Ok [Str (u "A"); Str (u "B"); Str (u "C")]).
    cbn [bind]. intros H.
    change (map fst arch
            = map (fun m => py_str m ++ u ".xlsx")
                  [Str (u "A"); Str (u "B"); Str (u "C")]).
    refine (mapM_nomes _ (fun m => py_str m ++ u ".xlsx") _ _ 0 arch H).
    intros k a b. cbv beta iota zeta.
    destruct (montar_workbook _ _ _ _ _); cbn [bind]; [|discriminate].
    intros E. injection E as <-. reflexivity.
  - eexists. vm_compute. reflexivity.
Qed.

Lemma gerar_xlsx_por_municipio_entries_witness :
  let df := mkDataFrame [u "Municipio"; u "Status"]
              [[Str (u "B"); Str (u "Normal")];
               [Str (u "A"); Str (u "Crítica")];
               [NaN; Str (u "Normal")];
               [Str (u "C"); Str (u "Normal")];
               [Str (u "A"); Str (u "Normal")]] in
  exists arch,
    gerar_xlsx_por_municipio sem_log df [] = Ok arch
    /\ exists (d : str) (col : Series) (ms : list valor),
        ler_data_extracao sem_log = Ok d
        /\ get_col df (u "Municipio") = Ok col
        /\ map fst arch = map (fun m => py_str m ++ u ".xlsx") ms
        /\ (forall m, In m ms -> In m col /\ isna m = false)
        /\ (forall v, In v col -> isna v = false ->
                      exists m, In m ms /\ valor_eqb v m = true)
        /\ StronglySorted (fun a b => valor_ltb a b = true) ms
        /\ (Forall (fun m => is_str m = true) ms
            \/ Forall (fun m => is_num m = true) ms)
        /\ (forall k m, nth_error ms k = Some m ->
              exists wb,
                nth_error arch k = Some (py_str m ++ u ".xlsx", wb)
                /\ montar_workbook (u "Relatório SIGE - " ++ py_str m) d
                     (relogio sem_log k) (select df (series_eq col m)) []
                   = Ok wb).
Proof.
  cbv zeta. eexists. split.
  - vm_compute. reflexivity.
  - refine (proj1 gerar_xlsx_por_municipio_entries sem_log _ [] _ _).
    vm_compute. reflexivity.
Defined.




(** ** Further properties of the stage extractor *)

Section ExtractorFacts.

Lemma lstrip_head (s : str) :
  lstrip s = [] \/ exists c r, lstrip s = c :: r /\ isspace c = false.
Proof.
  induction s as [|c s IH]; cbn [lstrip]; [now left|].
  destruct (isspace c) eqn:E; [exact IH|].
  right. now exists c, s.
Qed.

Lemma rstrip_idem (s : str) : rstrip (rstrip s) = rstrip s.
Proof. unfold rstrip. now rewrite rev_involutive, lstrip_idem. Qed.

Lemma strip_cons_nonspace (c : char) (r : str) :
  isspace c = false -> strip (c :: r) = c :: rstrip r.
Proof. intros Hc. exact (strip_around_nonspace [] c r Hc). Qed.

Lemma strip_idem (s : str) : strip (strip s) = strip s.
Proof.
  rewrite <- (strip_lstrip s).
  destruct (lstrip_head s) as [E|[c [r [E Hc]]]]; rewrite E.
  - reflexivity.
  - rewrite (strip_cons_nonspace c r Hc).
    rewrite (strip_cons_nonspace c (rstrip r) Hc).
    now rewrite rstrip_idem.
Qed.

(** The first occurrence of a character. *)
Lemma in_split_first (c : char) (s : str) :
  In c s -> exists a r, s = a ++ c :: r /\ ~ In c a.
Proof.
  induction s as [|x s IH]; [intros []|].
  intros H. destruct (N.eq_dec x c) as [->|Hne].
  - exists [], s. split; [reflexivity|]. intros [].
  - destruct H as [H|H]; [contradiction|].
    destruct (IH H) as [a [r [E Ha]]].
    exists (x :: a), r. split; [now rewrite E|].
    intros [H'|H']; [contradiction | now apply Ha].
Qed.

(** The stage is the trimmed form of a text without a pipe. *)
Lemma extrair_etapa_form (desc : valor) :
  exists t, extrair_etapa desc = strip t /\ ~ In 124%N t.
Proof.
  unfold extrair_etapa. cbv zeta. destruct (isna desc).
  { exists []. split; [reflexivity | intros []]. }
  generalize (strip (py_str desc)). intros s.
  destruct (contains (u "|") s) eqn:Hpipe.
  - assert (Hin : In 124%N s) by (now apply (contains_char 124%N)).
    destruct (in_split_first 124%N s Hin) as [pre [rest [E Hpre]]].
    rewrite E.
    match goal with
    | |- context [nth 0 (split (u "|") ?x) []] =>
        assert (Hsp : nth 0 (split (u "|") x) [] = pre);
        [ now apply (split_first 124%N) | rewrite Hsp ]
    end.
    destruct (contains (u " - ") (strip pre)) eqn:Hsep.
    + assert (Hne : u " - " <> []) by discriminate.
      destruct (rfind_cut_contains _ _ Hne Hsep) as [a [b Hab]].
      unfold rsplit1. rewrite Hab. cbn [last].
      exists b. split; [reflexivity|].
      destruct (rfind_cut_some _ _ _ _ Hne Hab) as [Eq _].
      intros Hb. apply Hpre. apply strip_incl. rewrite Eq.
      apply in_or_app. right. apply in_or_app. now right.
    + exists pre. split; [reflexivity | assumption].
  - destruct (str_eqb s (u "TOTAL SECRETARIA")).
    + exists (u "TOTAL SECRETARIA").
      split; [reflexivity | vm_compute; intuition discriminate].
    + exists (u "Total escola").
      split; [reflexivity | vm_compute; intuition discriminate].
Qed.

End ExtractorFacts.

(** X1: [extrair_etapa] never returns a text with white space at its
    start or its end, nor a text that holds a pipe: trimming the result
    changes nothing, for every cell, missing or not. *)
Theorem extrair_etapa_trimmed_no_pipe (desc : valor) :
  strip (extrair_etapa desc) = extrair_etapa desc
  /\ ~ In 124%N (extrair_etapa desc).
Proof.
  destruct (extrair_etapa_form desc) as [t [E Ht]]. rewrite E. split.
  - apply strip_idem.
  - intros H. apply Ht. now apply strip_incl.
Qed.

(** ** Further properties of the normaliser *)

Section NormaliserMore.

Open Scope N_scope.

Lemma digit_is_digit_or_dash (ds : str) :
  forallb isdigit ds = true -> forallb digit_or_dash ds = true.
Proof.
  intros H. rewrite forallb_forall in *. intros c Hc. unfold digit_or_dash.
  now rewrite (H c Hc).
Qed.

Lemma dash_as_zero_digits (ds : str) (acc : N) :
  forallb isdigit ds = true ->
  fold_left (fun a c => a * 10 + (if c =? 45 then 0 else c - 48)) ds acc
  = digits_value ds acc.
Proof.
  unfold digits_value. revert acc.
  induction ds as [|c ds IH]; intros acc H; [reflexivity|].
  cbn [forallb] in H. apply andb_true_iff in H. destruct H as [Hc H].
  cbn [fold_left]. rewrite (IH _ H). f_equal.
  destruct (N.eqb_spec c 45) as [->|]; [discriminate | reflexivity].
Qed.

(** An integer cell is read as its absolute value. *)
Lemma lido_Int (z : Z) :
  (Z.abs z < 2 ^ 63)%Z -> lido (Int z) = PInt (Z.abs_N z).
Proof.
  intros Hz.
  assert (Hn : Z.abs_N z < 2 ^ 63).
  { apply N2Z.inj_lt. rewrite N2Z.inj_abs_N. exact Hz. }
  change (lido (Int z)) with (lido (Str (str_of_Z z))).
  destruct (str_of_N_spec (Z.abs_N z)) as [Hne [Hd Hv]].
  pose proof (str_of_N_short _ Hn) as Hlen.
  assert (E : str_of_Z z = str_of_N (Z.abs_N z)
              \/ str_of_Z z = 45 :: str_of_N (Z.abs_N z)).
  { destruct z; [left | left | right]; reflexivity. }
  destruct E as [E|E]; rewrite E.
  - rewrite lido_digits_dashes;
      [|assumption | now apply digit_is_digit_or_dash | lia].
    unfold dash_as_zero. now rewrite dash_as_zero_digits, Hv.
  - rewrite lido_digits_dashes.
    + unfold dash_as_zero. cbn [fold_left].
      change (0 * 10 + (if 45 =? 45 then 0 else 45 - 48)) with 0.
      now rewrite dash_as_zero_digits, Hv.
    + discriminate.
    + cbn [forallb]. now rewrite (digit_is_digit_or_dash _ Hd).
    + cbn [List.length]. lia.
Qed.

Close Scope N_scope.

Lemma wrap64_range (n : N) :
  (n < 2 ^ 64)%N -> (- 2 ^ 63 <= wrap64 n < 2 ^ 63)%Z.
Proof.
  intros Hn. unfold wrap64.
  assert (H64 : (Z.of_N n < 2 ^ 64)%Z).
  { change (2 ^ 64)%Z with (Z.of_N (2 ^ 64)). now apply N2Z.inj_lt. }
  destruct (N.ltb_spec n (2 ^ 63)) as [H|H].
  - assert (Z.of_N n < 2 ^ 63)%Z.
    { change (2 ^ 63)%Z with (Z.of_N (2 ^ 63)). now apply N2Z.inj_lt. }
    lia.
  - assert (2 ^ 63 <= Z.of_N n)%Z.
    { change (2 ^ 63)%Z with (Z.of_N (2 ^ 63)). now apply N2Z.inj_le. }
    lia.
Qed.

Lemma float_to_int_range (x : numeric) (z : Z) :
  float_to_int x = Ok z -> (- 2 ^ 63 <= z < 2 ^ 63)%Z.
Proof.
  destruct x as [| |n]; cbn [float_to_int]; try discriminate.
  destruct (N.ltb_spec n (2 ^ 63)) as [H|H]; intros E; injection E as <-.
  - assert (Z.of_N n < 2 ^ 63)%Z.
    { change (2 ^ 63)%Z with (Z.of_N (2 ^ 63)). now apply N2Z.inj_lt. }
    lia.
  - lia.
Qed.

(** Every integer the normaliser stores is one of a 64-bit signed
    integer. *)
Lemma normalizar_int64 (s : Series) (zs : list Z) :
  normalizar s = Ok zs ->
  Forall (fun z => (- 2 ^ 63 <= z < 2 ^ 63)%Z) zs.
Proof.
  intros H. pose proof (normalizar_length s zs H) as Hlen.
  apply Forall_forall. intros z Hz.
  apply In_nth_error in Hz. destruct Hz as [i Hi].
  assert (Hlt : (i < List.length s)%nat).
  { rewrite <- Hlen. apply nth_error_Some. congruence. }
  destruct (nth_error s i) as [v|] eqn:Hv;
    [|apply nth_error_None in Hv; lia].
  destruct (normalizar_nth s zs H i v Hv)
    as [[x [Hx Hi']]|[[Hn [Hf Hi']]|[_ [Hf [Hu Hi']]]]].
  - assert (z = x) as -> by congruence.
    now apply (float_to_int_range _ _ Hx).
  - assert (z = wrap64 (ival (lido v))) as -> by congruence.
    apply wrap64_range.
    destruct (lido v) as [|n|x]; cbn [ival is_null is_float] in *;
      try discriminate.
    now apply N.leb_gt in Hf.
  - assert (z = Z.of_N (ival (lido v))) as -> by congruence.
    destruct (lido v) as [|n|x]; cbn [ival is_uint is_float] in *;
      [lia| |lia].
    apply N.leb_gt in Hf. apply N.ltb_lt in Hf. rewrite Hf, andb_true_r in Hu.
    apply N.leb_gt in Hu.
    assert (Z.of_N n < 2 ^ 63)%Z.
    { change (2 ^ 63)%Z with (Z.of_N (2 ^ 63)). now apply N2Z.inj_lt. }
    lia.
Qed.

End NormaliserMore.

(** X2: the normaliser loses the sign of an integer cell: a cell that
    holds the integer z, of absolute value below 2^63, becomes |z|,
    because the minus sign of its string form is replaced by the digit
    0. *)
Theorem normalizar_int_abs (z : Z) :
  (Z.abs z < 2 ^ 63)%Z -> normalizar [Int z] = Ok [Z.abs z].
Proof.
  intros Hz.
  assert (Hn : (Z.abs_N z < 2 ^ 63)%N).
  { apply N2Z.inj_lt. rewrite N2Z.inj_abs_N. exact Hz. }
  rewrite normalizar_ints.
  - cbn [map]. rewrite (lido_Int z Hz). cbn [ival].
    now rewrite N2Z.inj_abs_N.
  - intros v [<-|[]]. exists (Z.abs_N z). split; [now apply lido_Int|exact Hn].
Qed.

Lemma normalizar_int_abs_witness :
  (Z.abs (-5) < 2 ^ 63)%Z /\ normalizar [Int (-5)] = Ok [5%Z].
Proof.
  assert (H : (Z.abs (-5) < 2 ^ 63)%Z) by reflexivity.
  split; [exact H | exact (normalizar_int_abs (-5) H)].
Defined.

(** X3: when the normaliser returns, it returns one integer per cell of
    the column, each within the range of a 64-bit signed integer. *)
Theorem normalizar_length_range (s : Series) (zs : list Z) :
  normalizar s = Ok zs ->
  List.length zs = List.length s
  /\ Forall (fun z => (- 2 ^ 63 <= z < 2 ^ 63)%Z) zs.
Proof.
  intros H. split; [now apply normalizar_length|].
  now apply (normalizar_int64 s).
Qed.

Lemma normalizar_length_range_witness :
  List.length [1200%Z; 7%Z; (- 2 ^ 63)%Z] = 3%nat
  /\ Forall (fun z => (- 2 ^ 63 <= z < 2 ^ 63)%Z)
            [1200%Z; 7%Z; (- 2 ^ 63)%Z].
Proof.
  refine (normalizar_length_range
            [Str (u "1.200"); Int 7; Str (u "9223372036854775808")]
            [1200%Z; 7%Z; (- 2 ^ 63)%Z] _).
  vm_compute. reflexivity.
Defined.
(** ** Further properties of the loader *)

(** X4: whenever the loader returns a table, the test of the path has
    answered that it exists and the reader has parsed the file; the table
    has the columns and the number of rows of the file, every column
    that is no measure column holds the cells of the file, and every
    measure column of the file holds integers, one for each row, each in
    the range of a 64-bit signed integer. *)
Theorem carregar_csv_some (Path : Type) (path_exists : Path -> result bool)
  (read_csv : Path -> result DataFrame) (p : Path) (df' : DataFrame) :
  carregar_csv Path path_exists read_csv p = Ok (Some df') ->
  path_exists p = Ok true
  /\ exists df,
       read_csv p = Ok df
       /\ columns df' = columns df
       /\ List.length (rows df') = List.length (rows df)
       /\ (forall col, ~ In col COLUNAS_NUMERICAS ->
                       get_col df' col = get_col df col)
       /\ (forall col, In col COLUNAS_NUMERICAS -> has_col df col = true ->
             exists zs, get_col df' col = Ok (map Int zs)
                        /\ List.length zs = List.length (rows df)
                        /\ Forall (fun z => (- 2 ^ 63 <= z < 2 ^ 63)%Z) zs).
Proof.
  unfold carregar_csv.
  destruct (path_exists p) as [[|]|]; cbn [bind negb]; try discriminate.
  destruct (read_csv p) as [df|]; cbn [bind]; [|discriminate].
  destruct (normalizar_colunas COLUNAS_NUMERICAS df) as [d|] eqn:E;
    [|discriminate].
  intros H. injection H as <-. split; [reflexivity|].
  exists df. split; [reflexivity|].
  destruct (normalizar_colunas_inv _ COLUNAS_NUMERICAS_NoDup _ _ E)
    as [Hcols [Hrows [Hin Hout]]].
  split; [exact Hcols|]. split; [exact Hrows|]. split; [exact Hout|].
  intros col Hcol Hhas. destruct (has_col_get df col Hhas) as [s Hs].
  destruct (Hin col s Hcol Hs) as [zs [Hzs Hget]].
  exists zs. split; [exact Hget|]. split.
  - rewrite (normalizar_length s zs Hzs). now apply (get_col_length df col).
  - now apply (normalizar_int64 s).
Qed.

Lemma carregar_csv_some_witness :
  let df' := mkDataFrame [u "Municipio"; u "Mat. Total"; u "Enturmados"]
               [[Str (u "Y"); Int 12; Int 1150];
                [Str (u "Z"); Int 350; Int 0]] in
  exists df,
    Ok (mkDataFrame [u "Municipio"; u "Mat. Total"; u "Enturmados"]
          [[Str (u "Y"); Float (F64.of_decimal false 1200 (-3));
            Str (u "1.150")];
           [Str (u "Z"); Float (F64.of_decimal false 35 0); Str (u "-")]])
    = Ok df
    /\ columns df' = columns df
    /\ List.length (rows df') = List.length (rows df)
    /\ (forall col, ~ In col COLUNAS_NUMERICAS ->
                    get_col df' col = get_col df col)
    /\ (forall col, In col COLUNAS_NUMERICAS -> has_col df col = true ->
          exists zs, get_col df' col = Ok (map Int zs)
                     /\ List.length zs = List.length (rows df)
                     /\ Forall (fun z => (- 2 ^ 63 <= z < 2 ^ 63)%Z) zs).
Proof.
  cbv zeta.
  refine (proj2 (carregar_csv_some unit (fun _ => Ok true)
                   (fun _ => Ok (mkDataFrame
                      [u "Municipio"; u "Mat. Total"; u "Enturmados"]
                      [[Str (u "Y"); Float (F64.of_decimal false 1200 (-3));
                        Str (u "1.150")];
                       [Str (u "Z"); Float (F64.of_decimal false 35 0);
                        Str (u "-")]]))
                   tt _ _)).
  vm_compute. reflexivity.
Defined.

(** ** Further properties of the filter *)

Section FilterMore.

Lemma filter_idem {A} (f : A -> bool) (l : list A) :
  filter f (filter f l) = filter f l.
Proof.
  induction l as [|a l IH]; cbn [filter]; [reflexivity|].
  destruct (f a) eqn:E; cbn [filter]; [rewrite E|]; now rewrite IH.
Qed.

Lemma filter_and {A} (f g : A -> bool) (l : list A) :
  filter g (filter f l) = filter (fun a => f a && g a) l.
Proof.
  induction l as [|a l IH]; cbn [filter]; [reflexivity|].
  destruct (f a); cbn [filter andb]; [destruct (g a)|]; now rewrite IH.
Qed.

Lemma valor_eqb_todos :
  valor_eqb (Str TODOS_OS_MUNICIPIOS) (Str TODOS_OS_MUNICIPIOS) = true.
Proof. apply str_eqb_refl. Qed.

Lemma passa_municipio_todos (df : DataFrame) (r : list valor) :
  passa_municipio df (Str TODOS_OS_MUNICIPIOS) r = true.
Proof. unfold passa_municipio. now rewrite valor_eqb_todos. Qed.

Lemma passa_etapa_nil (df : DataFrame) (r : list valor) :
  passa_etapa df [] r = true.
Proof. reflexivity. Qed.

Lemma passa_status_nil (df : DataFrame) (r : list valor) :
  passa_status df [] r = true.
Proof. reflexivity. Qed.

Lemma filtros_ok_split (df : DataFrame) (m : valor) (e s : list valor) :
  filtros_ok df m e s =
    filtros_ok df m [] []
    && filtros_ok df (Str TODOS_OS_MUNICIPIOS) e []
    && filtros_ok df (Str TODOS_OS_MUNICIPIOS) [] s.
Proof.
  unfold filtros_ok. rewrite valor_eqb_todos. cbn [truthy negb orb andb].
  destruct (valor_eqb m (Str TODOS_OS_MUNICIPIOS)),
    (has_col df (u "Municipio")), (truthy e), (has_col df (u "Etapa")),
    (truthy s), (has_col df (u "Status")); reflexivity.
Qed.

Lemma linha_passa_split (df : DataFrame) (m : valor) (e s : list valor)
  (r : list valor) :
  linha_passa df m e s r =
    linha_passa df m [] [] r
    && linha_passa df (Str TODOS_OS_MUNICIPIOS) e [] r
    && linha_passa df (Str TODOS_OS_MUNICIPIOS) [] s r.
Proof.
  unfold linha_passa.
  rewrite !passa_municipio_todos, !passa_etapa_nil, !passa_status_nil.
  destruct (passa_municipio df m r), (passa_etapa df e r),
    (passa_status df s r); reflexivity.
Qed.

(** The filter reads the frame's columns and rows only. *)
Lemma filtros_ok_cols (df : DataFrame) (rs : list (list valor))
  (m : valor) (e s : list valor) :
  filtros_ok (mkDataFrame (columns df) rs) m e s = filtros_ok df m e s.
Proof. reflexivity. Qed.

Lemma linha_passa_cols (df : DataFrame) (rs : list (list valor))
  (m : valor) (e s : list valor) :
  linha_passa (mkDataFrame (columns df) rs) m e s = linha_passa df m e s.
Proof. reflexivity. Qed.

Lemma aplicar_filtros_todos (df : DataFrame) :
  aplicar_filtros df (Str TODOS_OS_MUNICIPIOS) [] [] = Ok df.
Proof.
  rewrite aplicar_filtros_eq. unfold filtros_ok.
  rewrite valor_eqb_todos. cbn [truthy negb orb andb].
  destruct df as [cols rs]. cbn [columns rows]. f_equal. f_equal.
  transitivity (filter (fun _ => true) rs); [|apply filter_true].
  apply filter_ext. intros r.
  unfold linha_passa. now rewrite passa_municipio_todos.
Qed.

End FilterMore.

(** X5: filtering is idempotent and only removes rows: a table the
    filter has returned is returned unchanged when the same selection is
    applied to it again; it has the columns of the input, and its rows
    are rows of the input, no more than the input has. *)
Theorem aplicar_filtros_idempotente (df d : DataFrame) (m : valor)
  (e s : list valor) :
  aplicar_filtros df m e s = Ok d ->
  aplicar_filtros d m e s = Ok d
  /\ columns d = columns df
  /\ incl (rows d) (rows df)
  /\ List.length (rows d) <= List.length (rows df).
Proof.
  rewrite aplicar_filtros_eq.
  destruct (filtros_ok df m e s) eqn:Hok; [|discriminate].
  intros H. injection H as <-. split; [|split; [|split]].
  - rewrite aplicar_filtros_eq. cbn [columns rows].
    rewrite filtros_ok_cols, linha_passa_cols, Hok, filter_idem.
    reflexivity.
  - reflexivity.
  - cbn [rows]. apply incl_filter.
  - cbn [rows]. apply filter_length_le.
Qed.

Lemma aplicar_filtros_idempotente_witness :
  let df := mkDataFrame [u "Municipio"; u "Status"]
              [[Str (u "Y"); Str (u "Normal")];
               [Str (u "Z"); Str (u "Crítica")];
               [Str (u "Y"); Str (u "Crítica")]] in
  let d := mkDataFrame [u "Municipio"; u "Status"]
              [[Str (u "Z"); Str (u "Crítica")];
               [Str (u "Y"); Str (u "Crítica")]] in
  aplicar_filtros d (Str TODOS_OS_MUNICIPIOS) [] [Str (u "Crítica")] = Ok d
  /\ columns d = columns df
  /\ incl (rows d) (rows df)
  /\ List.length (rows d) <= List.length (rows df).
Proof.
  cbv zeta.
  refine (aplicar_filtros_idempotente
            (mkDataFrame [u "Municipio"; u "Status"]
               [[Str (u "Y"); Str (u "Normal")];
                [Str (u "Z"); Str (u "Crítica")];
                [Str (u "Y"); Str (u "Crítica")]])
            _ (Str TODOS_OS_MUNICIPIOS) [] [Str (u "Crítica")] _).
  vm_compute. reflexivity.
Defined.

(** X6: the three constraints can be applied one after the other: the
    filter with a selection gives what the filter by municipality,
    followed on its result by the filter by stage, followed by the
    filter by status, gives, the [KeyError] of a missing column
    included. *)
Theorem aplicar_filtros_em_passos (df : DataFrame) (m : valor)
  (e s : list valor) :
  aplicar_filtros df m e s =
    (d1 <- aplicar_filtros df m [] [] ;;
     d2 <- aplicar_filtros d1 (Str TODOS_OS_MUNICIPIOS) e [] ;;
     aplicar_filtros d2 (Str TODOS_OS_MUNICIPIOS) [] s).
Proof.
  rewrite (aplicar_filtros_eq df m e s), (aplicar_filtros_eq df m [] []).
  rewrite filtros_ok_split.
  destruct (filtros_ok df m [] []); cbn [bind andb]; [|reflexivity].
  rewrite aplicar_filtros_eq. cbn [columns rows].
  rewrite filtros_ok_cols, linha_passa_cols.
  destruct (filtros_ok df (Str TODOS_OS_MUNICIPIOS) e []);
    cbn [bind andb]; [|reflexivity].
  rewrite aplicar_filtros_eq. cbn [columns rows].
  rewrite filtros_ok_cols, linha_passa_cols.
  destruct (filtros_ok df (Str TODOS_OS_MUNICIPIOS) [] s); [|reflexivity].
  f_equal. f_equal. rewrite !filter_and. apply filter_ext. intros r.
  rewrite andb_assoc. apply linha_passa_split.
Qed.

(** ** The table shown and its description *)

Section DashboardFacts.

Lemma cell_S_tl (i : nat) (r : list valor) : cell (S i) r = cell i (tl r).
Proof. destruct r as [|x r]; [now rewrite !cell_nil | reflexivity]. Qed.

Lemma col_index_cons (col c : str) (cs : list str) :
  col_index col (c :: cs) =
    if str_eqb c col then Some O else option_map S (col_index col cs).
Proof. reflexivity. Qed.

(** No column called [col] is left. *)
Lemma col_index_filter_self (col : str) (cols : list str) :
  col_index col (filter (fun c => negb (str_eqb c col)) cols) = None.
Proof.
  induction cols as [|x cs IH]; cbn [filter]; [reflexivity|].
  destruct (str_eqb x col) eqn:E; cbn [negb]; [exact IH|].
  rewrite col_index_cons, E, IH. reflexivity.
Qed.

(** A column of another name is found before and after, and reads the
    same cell of every row. *)
Lemma col_index_drop (col c' : str) (cols : list str) :
  c' <> col ->
  match col_index c' (filter (fun c => negb (str_eqb c col)) cols),
        col_index c' cols with
  | Some j, Some i => forall r, cell j (drop_cells col cols r) = cell i r
  | None, None => True
  | _, _ => False
  end.
Proof.
  intros Hne. induction cols as [|x cs IH]; cbn [filter drop_cells].
  - exact I.
  - destruct (str_eqb x col) eqn:Exc; cbn [negb].
    + assert (Exc' : str_eqb x c' = false).
      { apply str_eqb_neq. apply str_eqb_eq in Exc. congruence. }
      rewrite (col_index_cons c' x cs), Exc'.
      destruct (col_index c' (filter (fun c => negb (str_eqb c col)) cs))
        as [j|], (col_index c' cs) as [i|]; cbn [option_map]; auto.
      intros r. rewrite cell_S_tl. apply IH.
    + rewrite !col_index_cons.
      destruct (str_eqb x c').
      * intros r. reflexivity.
      * destruct (col_index c' (filter (fun c => negb (str_eqb c col)) cs))
          as [j|], (col_index c' cs) as [i|]; cbn [option_map]; auto.
        intros r. rewrite (cell_S_tl i r). apply IH.
Qed.

Lemma nth_repeat_lt {A} (a d : A) (n j : nat) :
  j < n -> nth j (repeat a n) d = a.
Proof.
  revert j. induction n as [|n IH]; intros [|j] H; cbn [repeat nth];
    try lia; auto.
  apply IH. lia.
Qed.

End DashboardFacts.

(** X7: dropping a column, as line 328 drops "Secretaria", leaves no
    column of that name, keeps the rows in number and order, and leaves
    every column of another name as it was, cell by cell; looking up a
    column the frame lacks is a [KeyError] before and after. *)
Theorem drop_ignore_spec (df : DataFrame) (col : str) :
  has_col (drop_ignore df col) col = false
  /\ List.length (rows (drop_ignore df col)) = List.length (rows df)
  /\ (forall c', c' <> col ->
        get_col (drop_ignore df col) c' = get_col df c').
Proof.
  unfold drop_ignore. destruct (has_col df col) eqn:Hc.
  - split; [|split].
    + unfold has_col. cbn [columns].
      now rewrite col_index_filter_self.
    + cbn [rows]. apply length_map.
    + intros c' Hne. unfold get_col. cbn [columns rows].
      pose proof (col_index_drop col c' (columns df) Hne) as H.
      destruct (col_index c'
                  (filter (fun c => negb (str_eqb c col)) (columns df)))
        as [j|], (col_index c' (columns df)) as [i|];
        try contradiction; [|reflexivity].
      f_equal. rewrite map_map. apply map_ext. exact H.
  - split; [exact Hc|]. split; reflexivity.
Qed.

Lemma drop_ignore_spec_witness :
  let df := mkDataFrame [u "Secretaria"; u "Municipio"; u "Status"]
              [[Str (u "X"); Str (u "Y"); Str (u "Normal")];
               [Str (u "X"); Str (u "Z")]] in
  u "Status" <> u "Secretaria"
  /\ get_col (drop_ignore df (u "Secretaria")) (u "Status")
     = Ok [Str (u "Normal"); NaN].
Proof.
  cbv zeta.
  assert (Hne : u "Status" <> u "Secretaria") by discriminate.
  split; [exact Hne|].
  exact (proj2 (proj2 (drop_ignore_spec
           (mkDataFrame [u "Secretaria"; u "Municipio"; u "Status"]
              [[Str (u "X"); Str (u "Y"); Str (u "Normal")];
               [Str (u "X"); Str (u "Z")]])
           (u "Secretaria"))) (u "Status") Hne).
Defined.

(** X8: the list of filter descriptions of lines 347-353 has one entry
    for each constraint in force, and none only for the selection that
    filters nothing: when the list is empty, the filter returns the
    table as it is. *)
Theorem filtros_info_count (m : valor) (e s : list valor) (l : list str) :
  filtros_info m e s = Ok l ->
  List.length l =
    (if valor_eqb m (Str TODOS_OS_MUNICIPIOS) then 0 else 1)
    + (if truthy e then 1 else 0) + (if truthy s then 1 else 0)
  /\ (l = [] -> forall df, aplicar_filtros df m e s = Ok df).
Proof.
  unfold filtros_info. cbv zeta.
  destruct (valor_eqb m (Str TODOS_OS_MUNICIPIOS)) eqn:Hm; cbn [negb app];
    destruct e as [|v e]; cbn [truthy bind];
    try (destruct (join_valores (u ", ") (v :: e)) as [se|];
         cbn [bind]; [|discriminate]);
    destruct s as [|w s]; cbn [truthy bind];
    try (destruct (join_valores (u ", ") (w :: s)) as [ss|];
         cbn [bind]; [|discriminate]);
    intros H; injection H as <-;
    (split; [reflexivity | try discriminate]).
  intros _ df. apply valor_eqb_Str in Hm. subst m.
  apply aplicar_filtros_todos.
Qed.

Lemma filtros_info_count_witness :
  List.length [u "Município: Y"; u "Status: Atenção, Crítica"] = 2
  /\ ([u "Município: Y"; u "Status: Atenção, Crítica"] = [] ->
      forall df,
        aplicar_filtros df (Str (u "Y")) []
          [Str (u "Atenção"); Str (u "Crítica")] = Ok df).
Proof.
  refine (filtros_info_count (Str (u "Y")) []
            [Str (u "Atenção"); Str (u "Crítica")]
            [u "Município: Y"; u "Status: Atenção, Crítica"] _).
  vm_compute. reflexivity.
Defined.

(** X9: the table on the screen and the workbook colour a row alike:
    [pintar_status] gives one style per column, and for a frame with a
    column Status each style is the background of the colour
    [status_fill] gives the row in the workbook, or no style when it
    gives none; without the column no cell is styled. *)
Theorem pintar_status_agrees (df : DataFrame) (r : list valor) :
  List.length (pintar_status df r) = List.length (columns df)
  /\ forall j, j < List.length (columns df) ->
       nth j (pintar_status df r) [] =
         if has_col df (u "Status") then
           match status_fill (cell_of df (u "Status") r) with
           | Some cor => u "background-color: #" ++ cor
           | None => u ""
           end
         else u "".
Proof.
  unfold pintar_status, status_fill. cbv zeta.
  destruct (has_col df (u "Status")).
  - destruct (valor_eqb (cell_of df (u "Status") r) (Str (u "Atenção")));
      [|destruct (valor_eqb (cell_of df (u "Status") r)
                            (Str (u "Crítica")))];
      (split; [apply repeat_length|]); intros j Hj;
      rewrite (nth_repeat_lt _ _ _ _ Hj); reflexivity.
  - split; [apply repeat_length|]. intros j Hj.
    now rewrite (nth_repeat_lt _ _ _ _ Hj).
Qed.

Lemma pintar_status_agrees_witness :
  1 < 2
  /\ nth 1 (pintar_status (mkDataFrame [u "Municipio"; u "Status"] [])
                          [Str (u "Y"); Str (u "Crítica")]) []
     = u "background-color: #FF6B6B".
Proof.
  assert (H : 1 < 2) by lia.
  split; [exact H|].
  exact (proj2 (pintar_status_agrees
                  (mkDataFrame [u "Municipio"; u "Status"] [])
                  [Str (u "Y"); Str (u "Crítica")]) 1 H).
Defined.

(** X10: [executar_enturmacao] reports success exactly when the script
    ends with return code 0, with the fixed message; when the script
    ends with another code the message is never empty: it is the error
    output if there is any, else the standard output if there is any,
    else a fixed text; a timeout gives a message of its own. *)
Theorem executar_enturmacao_spec (run : processo) :
  (fst (executar_enturmacao run) = true <->
   exists out err, run = Concluido 0 out err)
  /\ (fst (executar_enturmacao run) = true ->
      snd (executar_enturmacao run) = u "Dados baixados com sucesso.")
  /\ (forall rc out err,
        run = Concluido rc out err -> rc <> 0%Z ->
        snd (executar_enturmacao run) <> []
        /\ (err <> [] -> snd (executar_enturmacao run) = err)
        /\ (err = [] -> out <> [] -> snd (executar_enturmacao run) = out)
        /\ (err = [] -> out = [] ->
            snd (executar_enturmacao run) = u "Erro ao executar script."))
  /\ (run = TimeoutExpired -> snd (executar_enturmacao run) <> []).
Proof.
  split; [|split; [|split]].
  - destruct run as [rc out err| |msg]; cbn [executar_enturmacao].
    + destruct (Z.eqb_spec rc 0) as [->|Hrc]; cbn [fst]; split.
      * intros _. now exists out, err.
      * reflexivity.
      * discriminate.
      * intros [o [e' H]]. injection H as -> _ _. contradiction.
    + cbn [fst]. split; [discriminate | intros [o [e' H]]; discriminate].
    + cbn [fst]. split; [discriminate | intros [o [e' H]]; discriminate].
  - destruct run as [rc out err| |msg]; cbn [executar_enturmacao];
      try (cbn [fst]; discriminate).
    destruct (Z.eqb rc 0); cbn [fst snd]; [reflexivity | discriminate].
  - intros rc out err -> Hrc. cbn [executar_enturmacao].
    destruct (Z.eqb_spec rc 0) as [->|_]; [contradiction|]. cbn [snd].
    unfold py_or. destruct err as [|c err], out as [|c' out];
      cbn [truthy]; repeat split; intros; try congruence; discriminate.
  - intros ->. discriminate.
Qed.

Lemma executar_enturmacao_spec_witness :
  Concluido 1 (u "saida") (u "") = Concluido 1 (u "saida") (u "")
  /\ 1%Z <> 0%Z
  /\ snd (executar_enturmacao (Concluido 1 (u "saida") (u ""))) = u "saida".
Proof.
  assert (H1 : Concluido 1 (u "saida") (u "")
               = Concluido 1 (u "saida") (u "")) by reflexivity.
  assert (H2 : 1%Z <> 0%Z) by discriminate.
  split; [exact H1|]. split; [exact H2|].
  refine (proj1 (proj2 (proj2
            (proj1 (proj2 (proj2
               (executar_enturmacao_spec (Concluido 1 (u "saida") (u "")))))
               1%Z (u "saida") (u "") H1 H2))) eq_refl _).
  discriminate.
Defined.
(** ** Further properties of the exports *)

Section ExportFacts.

Lemma lstrip_all_space (t : str) : forallb isspace t = true -> lstrip t = [].
Proof.
  induction t as [|c t IH]; cbn [forallb lstrip]; [reflexivity|].
  intros H. apply andb_true_iff in H. destruct H as [Hc Ht].
  rewrite Hc. now apply IH.
Qed.

Lemma strip_all_space (t : str) : forallb isspace t = true -> strip t = [].
Proof. intros H. unfold strip. now rewrite (lstrip_all_space t H). Qed.

Lemma mapM_In {A B} (f : A -> result B) (l : list A) (bs : list B) :
  mapM f l = Ok bs ->
  forall a, In a l -> exists b, f a = Ok b /\ In b bs.
Proof.
  intros H a Ha. apply In_nth_error in Ha. destruct Ha as [i Hi].
  destruct (mapM_nth f l bs H i a Hi) as [b [Hb Hn]].
  exists b. split; [exact Hb|]. now apply nth_error_In in Hn.
Qed.

Lemma mapM_In_inv {A B} (f : A -> result B) (l : list A) :
  forall bs, mapM f l = Ok bs ->
  forall b, In b bs -> exists a, In a l /\ f a = Ok b.
Proof.
  induction l as [|x l IH]; intros bs; cbn [mapM].
  - intros H. injection H as <-. intros b [].
  - destruct (f x) as [y|] eqn:Ex; cbn [bind]; [|discriminate].
    destruct (mapM f l) as [bs'|]; cbn [bind]; [|discriminate].
    intros H. injection H as <-. intros b [<-|Hb].
    + exists x. split; [now left | exact Ex].
    + destruct (IH bs' eq_refl b Hb) as [a [Ha Hf]].
      exists a. split; [now right | exact Hf].
Qed.

(** The sheet "Relatório", when it is built. *)
Lemma sheet_relatorio_Ok (df : DataFrame) (ws : Worksheet) :
  sheet_relatorio df = Ok ws ->
  exists header_cells data_cells widths,
    mapM (fun '(j, c) => t <- check_string c ;; Ok ((1, j), Str t))
         (enumerate 1 (columns df)) = Ok header_cells
    /\ mapM (fun j =>
               mapM (fun '(i, r) => v <- escrever (cell (j - 1) r) ;;
                                    Ok ((i, j), v))
                    (enumerate 2 (rows df)))
            (seq 1 (List.length (columns df))) = Ok data_cells
    /\ mapM (fun '(idx, col) => w <- largura df col ;;
                                Ok ([N.of_nat (64 + idx)], w))
            (enumerate 1 (columns df)) = Ok widths
    /\ ws_title ws = u "Relatório"
    /\ ws_cells ws = header_cells ++ List.concat data_cells
    /\ ws_widths ws = widths
    /\ ws_fills ws =
         map (fun j => ((1, j), HEADER_FILL))
             (seq 1 (List.length (columns df)))
         ++ (if has_col df (u "Status") then
               flat_map
                 (fun '(row_num, status) =>
                    match status_fill status with
                    | Some fill =>
                        map (fun j => ((row_num, j), fill))
                            (seq 1 (List.length (columns df)))
                    | None => []
                    end)
                 (enumerate 2 (column_cells df (u "Status")))
             else []).
Proof.
  unfold sheet_relatorio. cbv zeta.
  destruct (1048576 <? N.of_nat (List.length (rows df)))%N; [discriminate|].
  intros H.
  match type of H with
  | bind ?m _ = _ => destruct m as [hs|] eqn:E1; cbn [bind] in H;
                     [|discriminate]
  end.
  match type of H with
  | bind ?m _ = _ => destruct m as [ds|] eqn:E2; cbn [bind] in H;
                     [|discriminate]
  end.
  match type of H with
  | bind ?m _ = _ => destruct m as [wd|] eqn:E3; cbn [bind] in H;
                     [|discriminate]
  end.
  injection H as <-. exists hs, ds, wd. cbn [ws_title ws_cells ws_widths ws_fills].
  repeat (split; [reflexivity|]). reflexivity.
Qed.

(** The cell B3 of the sheet "Informações" and no other cell stands at
    row 3, column 2. *)
Lemma info_com_b3 (titulo b3 b5 : str) (filtros : list str)
  (resto : list (coord * valor)) (v : valor) :
  mapM (fun '(c, s) => t <- check_string s ;; Ok (c, Str t))
       (celulas_filtros filtros) = Ok resto ->
  In ((3, 2), v) (ws_cells (info_com titulo b3 b5 resto)) <-> v = Str b3.
Proof.
  intros Hr. unfold info_com. cbn [ws_cells]. split.
  - intros H. apply in_app_or in H. destruct H as [H|H].
    + cbn [In] in H.
      destruct H as [H|[H|[H|[H|[H|[]]]]]]; try discriminate.
      now injection H as <-.
    + exfalso.
      destruct (mapM_In_inv _ _ _ Hr _ H) as [[c s] [Hin Hf]].
      destruct (check_string s); cbn [bind] in Hf; [|discriminate].
      injection Hf as -> _. unfold celulas_filtros in Hin.
      destruct (truthy filtros); [|destruct Hin].
      destruct Hin as [Hin|Hin]; [discriminate|].
      apply in_map_iff in Hin. destruct Hin as [[idx f] [Hin _]].
      discriminate.
  - intros ->. apply in_or_app. left. cbn [In]. right. right. now left.
Qed.

Lemma cortar_nonempty (s : str) : s <> [] -> cortar s <> [].
Proof. destruct s; [congruence | discriminate]. Qed.

Lemma texto_b3_nonempty (d : str) : texto_b3 d <> [].
Proof. unfold texto_b3. destruct d; cbn [truthy]; discriminate. Qed.

Lemma dropna_all_missing (col : Series) :
  (forall v, In v col -> isna v = true) -> dropna col = [].
Proof.
  intros Hna. unfold dropna. induction col as [|v col IH]; [reflexivity|].
  cbn [filter]. rewrite (Hna v) by now left. cbn [negb].
  apply IH. intros w Hw. apply Hna. now right.
Qed.

Lemma is_num_not_missing (v : valor) : is_num v = true -> isna v = false.
Proof. destruct v; try reflexivity. discriminate. Qed.

Lemma is_num_not_str (v : valor) : is_num v = true -> is_str v = false.
Proof. destruct v; try reflexivity. discriminate. Qed.

(** [unique] keeps a text of the column, and a number when the column
    holds one. *)
Lemma unique_In_Str (col : Series) (a : str) :
  In (Str a) (dropna col) -> In (Str a) (unique (dropna col)).
Proof.
  intros Ha.
  destruct (unique_aux_cover (dropna col)
              (fun v Hv => proj2 (proj1 (dropna_In col v) Hv))
              [] (Str a) Ha) as [w [[[]|Hw] Ew]].
  rewrite valor_eqb_sym in Ew. apply valor_eqb_Str in Ew. now subst.
Qed.

Lemma valor_eqb_num (v w : valor) :
  is_num v = true -> valor_eqb v w = true -> is_num w = true.
Proof.
  intros Hv E. unfold is_num.
  destruct (numero_de w) eqn:Ew; [reflexivity|]. exfalso.
  destruct v as [|s|z|x]; try discriminate;
    destruct w as [|s'|z'|x']; cbn [valor_eqb] in E;
    rewrite ?Ew in E; try discriminate;
    destruct (numero_de _) in E; discriminate.
Qed.

Lemma unique_In_num (col : Series) (v : valor) :
  In v (dropna col) -> is_num v = true ->
  exists w, In w (unique (dropna col)) /\ is_num w = true.
Proof.
  intros Hv Hn.
  destruct (unique_aux_cover (dropna col)
              (fun v Hv => proj2 (proj1 (dropna_In col v) Hv))
              [] v Hv) as [w [[[]|Hw] Ew]].
  exists w. split; [exact Hw|]. now apply (valor_eqb_num v).
Qed.

End ExportFacts.

(** X11: whenever the single-workbook export returns a workbook, it has
    two sheets, "Informações" before "Relatório".  Cell B3 of the first
    holds one text, cut as every text of a cell is, and is never empty:
    it is the stripped text of the marker file, and the text
    "Não informada" when the file is absent, cannot be read, or holds
    white space only. *)
Theorem gerar_xlsx_b3 (amb : Ambiente) (df : DataFrame)
  (filtros : list str) (wb : Workbook) :
  gerar_xlsx amb df filtros = Ok wb ->
  exists (d : str) (info rel : Worksheet),
    ler_data_extracao amb = Ok d
    /\ wb = [info; rel]
    /\ sheet_relatorio df = Ok rel
    /\ ws_title info = u "Informações"
    /\ ws_title rel = u "Relatório"
    /\ (forall v, In ((3, 2), v) (ws_cells info)
                  <-> v = Str (cortar (texto_b3 d)))
    /\ cortar (texto_b3 d) <> []
    /\ (log_exists amb = Ok false -> texto_b3 d = u "Não informada")
    /\ (forall e, log_text amb = Raise e -> texto_b3 d = u "Não informada")
    /\ (forall t, log_text amb = Ok t -> forallb isspace t = true ->
                  texto_b3 d = u "Não informada")
    /\ (forall t, log_exists amb = Ok true -> log_text amb = Ok t ->
                  strip t <> [] -> texto_b3 d = strip t).
Proof.
  unfold gerar_xlsx. intros H.
  destruct (ler_data_extracao amb) as [d|] eqn:Ed; cbn [bind] in H;
    [|discriminate].
  destruct (montar_workbook_Ok _ _ _ _ _ _ H)
    as [rel [resto [Hr [Hf [_ ->]]]]].
  eexists d, _, rel.
  split; [reflexivity|]. split; [reflexivity|]. split; [exact Hr|].
  split; [reflexivity|].
  split; [now destruct (sheet_relatorio_Ok df rel Hr)
            as [hs [ds [wd [_ [_ [_ [Ht _]]]]]]]|].
  split; [intros v; now apply (info_com_b3 _ _ _ filtros)|].
  split; [apply cortar_nonempty, texto_b3_nonempty|].
  unfold ler_data_extracao in Ed.
  destruct (log_exists amb) as [b|]; cbn [bind] in Ed; [|discriminate].
  injection Ed as <-. split; [|split; [|split]].
  - intros E. injection E as ->. reflexivity.
  - intros e ->. destruct b; reflexivity.
  - intros t -> Ht. rewrite (strip_all_space t Ht). destruct b; reflexivity.
  - intros t E -> Hne. injection E as ->. unfold texto_b3.
    destruct (strip t); [congruence | reflexivity].
Qed.

Lemma gerar_xlsx_b3_witness :
  let amb := mkAmbiente (Ok true) (Ok (u " 01/03/2025 08:00 "))
                        (fun _ => mkDatetime 2025 3 1 9 30 0) in
  let df := mkDataFrame [u "Municipio"; u "Mat. Total"; u "Status"]
              [[Str (u "Y"); Int 1200; Str (u "Normal")];
               [Str (u "Z"); Int 35; Str (u "Atenção")]] in
  exists wb,
    gerar_xlsx amb df [u "Município: Y"] = Ok wb
    /\ exists (d : str) (info rel : Worksheet),
        ler_data_extracao amb = Ok d
        /\ wb = [info; rel]
        /\ sheet_relatorio df = Ok rel
        /\ ws_title info = u "Informações"
        /\ ws_title rel = u "Relatório"
        /\ (forall v, In ((3, 2), v) (ws_cells info)
                      <-> v = Str (cortar (texto_b3 d)))
        /\ cortar (texto_b3 d) <> []
        /\ (log_exists amb = Ok false -> texto_b3 d = u "Não informada")
        /\ (forall e, log_text amb = Raise e ->
                      texto_b3 d = u "Não informada")
        /\ (forall t, log_text amb = Ok t -> forallb isspace t = true ->
                      texto_b3 d = u "Não informada")
        /\ (forall t, log_exists amb = Ok true -> log_text amb = Ok t ->
                      strip t <> [] -> texto_b3 d = strip t).
Proof.
  cbv zeta. eexists. split.
  - vm_compute. reflexivity.
  - apply (gerar_xlsx_b3
             (mkAmbiente (Ok true) (Ok (u " 01/03/2025 08:00 "))
                         (fun _ => mkDatetime 2025 3 1 9 30 0))
             (mkDataFrame [u "Municipio"; u "Mat. Total"; u "Status"]
                [[Str (u "Y"); Int 1200; Str (u "Normal")];
                 [Str (u "Z"); Int 35; Str (u "Atenção")]])
             [u "Município: Y"]).
    vm_compute. reflexivity.
Defined.

(** X12: the error and edge behaviour of the multi-workbook export.
    When the test for the marker file raises, the export raises the
    same.  When the test answers: without a column Municipio the export
    raises [KeyError]; when every cell of the column is missing (or the
    table has no rows) it returns an archive without entries; when the
    column holds a text and a number it raises the [TypeError] of
    [sorted]. *)
Theorem gerar_xlsx_por_municipio_edges (amb : Ambiente) (df : DataFrame)
  (filtros : list str) :
  (forall e, log_exists amb = Raise e ->
             gerar_xlsx_por_municipio amb df filtros = Raise e)
  /\ (forall b, log_exists amb = Ok b ->
      (has_col df (u "Municipio") = false ->
       gerar_xlsx_por_municipio amb df filtros = Raise KeyError)
      /\ (forall col,
            get_col df (u "Municipio") = Ok col ->
            (forall v, In v col -> isna v = true) ->
            gerar_xlsx_por_municipio amb df filtros = Ok [])
      /\ (forall col a v,
            get_col df (u "Municipio") = Ok col ->
            In (Str a) col -> In v col -> is_num v = true ->
            gerar_xlsx_por_municipio amb df filtros = Raise TypeError)).
Proof.
  unfold gerar_xlsx_por_municipio, ler_data_extracao. split.
  - intros e ->. reflexivity.
  - intros b ->. cbn [bind]. split; [|split].
    + unfold has_col, get_col.
      destruct (col_index (u "Municipio") (columns df)); [discriminate|].
      reflexivity.
    + intros col -> Hna. cbn [bind].
      rewrite (dropna_all_missing col Hna). reflexivity.
    + intros col a v -> Ha Hv Hn. cbn [bind].
      assert (Ha' : In (Str a) (unique (dropna col))).
      { apply unique_In_Str. apply dropna_In. now split. }
      destruct (unique_In_num col v) as [w [Hw Hwn]]; [|exact Hn|].
      { apply dropna_In. split; [exact Hv|].
        now apply is_num_not_missing. }
      unfold sorted.
      assert (E1 : forallb is_str (unique (dropna col)) = false).
      { destruct (forallb is_str (unique (dropna col))) eqn:E;
          [|reflexivity].
        rewrite forallb_forall in E. specialize (E w Hw).
        rewrite (is_num_not_str w Hwn) in E. discriminate. }
      assert (E2 : forallb is_num (unique (dropna col)) = false).
      { destruct (forallb is_num (unique (dropna col))) eqn:E;
          [|reflexivity].
        rewrite forallb_forall in E.
        specialize (E (Str a) Ha'). discriminate. }
      rewrite E1, E2. reflexivity.
Qed.

Lemma gerar_xlsx_por_municipio_edges_witness :
  gerar_xlsx_por_municipio sem_log
    (mkDataFrame [u "Municipio"] [[NaN]; [NaN]]) [] = Ok []
  /\ gerar_xlsx_por_municipio sem_log
       (mkDataFrame [u "Municipio"] [[Str (u "Y")]; [Int 7]]) []
     = Raise TypeError.
Proof.
  split.
  - refine (proj1 (proj2 (proj2 (gerar_xlsx_por_municipio_edges sem_log
              (mkDataFrame [u "Municipio"] [[NaN]; [NaN]]) [])
              false eq_refl))
              [NaN; NaN] eq_refl _).
    intros v [<-|[<-|[]]]; reflexivity.
  - refine (proj2 (proj2 (proj2 (gerar_xlsx_por_municipio_edges sem_log
              (mkDataFrame [u "Municipio"] [[Str (u "Y")]; [Int 7]]) [])
              false eq_refl))
              [Str (u "Y"); Int 7] (u "Y") (Int 7) eq_refl _ _ eq_refl).
    + now left.
    + right. now left.
Defined.

(** ** The derived column and the options of the selectors *)

Section DerivedFacts.

Lemma col_index_app_new (col : str) (cols : list str) :
  col_index col cols = None ->
  col_index col (cols ++ [col]) = Some (List.length cols).
Proof.
  induction cols as [|x cs IH]; cbn [app List.length].
  - intros _. rewrite col_index_cons, str_eqb_refl. reflexivity.
  - rewrite !col_index_cons. destruct (str_eqb x col); [discriminate|].
    destruct (col_index col cs); [discriminate|].
    intros _. now rewrite IH.
Qed.

Lemma col_index_app_other (col c' : str) (cols : list str) :
  c' <> col ->
  col_index c' (cols ++ [col]) = col_index c' cols.
Proof.
  intros Hne. induction cols as [|x cs IH]; cbn [app].
  - rewrite col_index_cons.
    replace (str_eqb col c') with false; [reflexivity|].
    symmetry. apply str_eqb_neq. congruence.
  - rewrite !col_index_cons. now rewrite IH.
Qed.

Lemma col_index_lt (col : str) (cols : list str) (i : nat) :
  col_index col cols = Some i -> i < List.length cols.
Proof.
  revert i. induction cols as [|x cs IH]; intros i; [discriminate|].
  rewrite col_index_cons. destruct (str_eqb x col).
  - intros H. injection H as <-. cbn [List.length]. lia.
  - destruct (col_index col cs) as [j|]; [|discriminate].
    intros H. injection H as <-. specialize (IH j eq_refl).
    cbn [List.length]. lia.
Qed.

(** Writing a column, old or new: the column holds the new cells. *)
Lemma get_set_col_new (df : DataFrame) (col : str) (s : Series) :
  List.length s = List.length (rows df) ->
  get_col (set_col df col s) col = Ok s.
Proof.
  intros Hlen. destruct (has_col df col) eqn:Hc.
  - now apply get_set_col_same.
  - unfold has_col in Hc. unfold set_col, get_col.
    destruct (col_index col (columns df)) eqn:E; [discriminate|].
    cbn [columns rows]. rewrite (col_index_app_new col _ E).
    now rewrite map_cell_zip_same.
Qed.

(** Writing a column, old or new: the other columns are as before. *)
Lemma get_set_col_any_other (df : DataFrame) (col c' : str) (s : Series) :
  c' <> col -> get_col (set_col df col s) c' = get_col df c'.
Proof.
  intros Hne. destruct (has_col df col) eqn:Hc.
  - apply get_set_col_other; [assumption | congruence].
  - unfold has_col in Hc. unfold set_col, get_col.
    destruct (col_index col (columns df)) eqn:E; [discriminate|].
    cbn [columns rows]. rewrite (col_index_app_other col c' _ Hne).
    destruct (col_index c' (columns df)) as [i|] eqn:Ei; [|reflexivity].
    rewrite map_cell_zip_other; [reflexivity|].
    apply col_index_lt in Ei. lia.
Qed.

End DerivedFacts.

(** X13: line 291 on a frame without the column Descricao raises
    [KeyError]; on a frame with it, it returns the frame with a column
    Etapa that holds the stage of each description, row by row, with the
    same number of rows and every other column unchanged. *)
Theorem derivar_etapa_spec (df : DataFrame) :
  (has_col df (u "Descricao") = false -> derivar_etapa df = Raise KeyError)
  /\ (forall s,
        get_col df (u "Descricao") = Ok s ->
        exists df_e,
          derivar_etapa df = Ok df_e
          /\ get_col df_e (u "Etapa")
             = Ok (map (fun d => Str (extrair_etapa d)) s)
          /\ List.length (rows df_e) = List.length (rows df)
          /\ (forall c, c <> u "Etapa" -> get_col df_e c = get_col df c)).
Proof.
  unfold derivar_etapa. split.
  - unfold has_col, get_col.
    destruct (col_index (u "Descricao") (columns df)); [discriminate|].
    reflexivity.
  - intros s Hs. rewrite Hs. cbn [bind]. eexists.
    split; [reflexivity|]. split; [|split].
    + apply get_set_col_new. rewrite length_map.
      now apply (get_col_length df (u "Descricao")).
    + apply set_col_rows_length.
    + intros c Hc. now apply get_set_col_any_other.
Qed.

Lemma derivar_etapa_spec_witness :
  exists df_e,
    derivar_etapa cenario_bruto = Ok df_e
    /\ get_col df_e (u "Etapa")
       = Ok (map (fun d => Str (extrair_etapa d)) [Str (u "A - 3º Ano")])
    /\ List.length (rows df_e) = List.length (rows cenario_bruto)
    /\ (forall c, c <> u "Etapa" ->
                  get_col df_e c = get_col cenario_bruto c).
Proof.
  refine (proj2 (derivar_etapa_spec cenario_bruto)
            [Str (u "A - 3º Ano")] _).
  vm_compute. reflexivity.
Defined.
(** ** The options of the selectors *)

Section SelectorFacts.

Lemma all_str_map (l : list valor) :
  Forall (fun v => is_str v = true) l -> l = map Str (map py_str l).
Proof.
  induction 1 as [|v l Hv _ IH]; [reflexivity|].
  destruct v; try discriminate. simpl. now rewrite <- IH.
Qed.

Lemma sorted_map_Str (ms : list str) :
  StronglySorted (fun a b => valor_leb a b = true) (map Str ms) ->
  StronglySorted (fun a b => str_leb a b = true) ms.
Proof.
  induction ms as [|m ms IH]; intros H; [constructor|].
  simpl in H. inversion H as [|x l Hs Hm]; subst.
  constructor; [now apply IH|].
  rewrite Forall_map in Hm. exact Hm.
Qed.

(** [sorted] on texts without repetition. *)
Lemma sorted_strs (l : list valor) :
  Forall (fun v => is_str v = true) l -> NoDup l ->
  exists ops,
    sorted l = Ok (map Str ops)
    /\ NoDup ops
    /\ StronglySorted (fun a b => str_leb a b = true) ops
    /\ forall e, In e ops <-> In (Str e) l.
Proof.
  intros Hstr Hnd.
  assert (Hstr' : Forall (fun v => is_str v = true) (isort l)).
  { rewrite Forall_forall in *. intros v Hv. apply Hstr.
    now apply (Permutation_in _ (isort_perm l)). }
  pose proof (all_str_map (isort l) Hstr') as Hl.
  exists (map py_str (isort l)). split; [|split; [|split]].
  - unfold sorted. replace (forallb is_str l) with true.
    + cbn [orb]. now rewrite <- Hl.
    + symmetry. apply forallb_forall. now apply Forall_forall.
  - apply (NoDup_map_inv Str). rewrite <- Hl.
    now apply (Permutation_NoDup (Permutation_sym (isort_perm l))).
  - apply sorted_map_Str. rewrite <- Hl.
    apply (isort_sorted is_str); auto using is_str_leb_total.
    intros x y z. apply is_str_leb_trans.
  - intros e. split.
    + intros H. apply (Permutation_in _ (isort_perm l)).
      rewrite Hl. now apply in_map.
    + intros H. apply (Permutation_in _ (Permutation_sym (isort_perm l))) in H.
      rewrite Hl in H. apply in_map_iff in H.
      destruct H as [x [Hx Hin]]. injection Hx as <-. exact Hin.
Qed.

Lemma dropna_no_nan (s : Series) :
  (forall v, In v s -> isna v = false) -> dropna s = s.
Proof.
  intros H. unfold dropna. induction s as [|v s IH]; [reflexivity|].
  cbn [filter]. rewrite (H v) by now left. cbn [negb].
  f_equal. apply IH. intros w Hw. apply H. now right.
Qed.

(** [unique] on a column without missing cell holds no cell twice. *)
Lemma unique_NoDup (s : Series) :
  (forall v, In v s -> isna v = false) -> NoDup (unique s).
Proof.
  intros Hna. destruct (unique_aux_distinct s []) as [_ Hd].
  apply (distinct_NoDup (unique s)); [|exact Hd].
  intros v Hv. apply Hna. now apply (unique_aux_incl s [] v).
Qed.

(** [unique] keeps the texts of a column. *)
Lemma unique_Str (s : Series) (e : str) :
  (forall v, In v s -> isna v = false) ->
  In (Str e) (unique s) <-> In (Str e) s.
Proof.
  intros Hna. split.
  - apply unique_aux_incl.
  - intros H.
    destruct (unique_aux_cover s Hna [] (Str e) H) as [w [[[]|Hw] Ew]].
    rewrite valor_eqb_sym in Ew. apply valor_eqb_Str in Ew. now subst.
Qed.

Lemma extrair_etapa_strip (d : valor) :
  strip (extrair_etapa d) = extrair_etapa d.
Proof.
  destruct (extrair_etapa_form d) as [t [E _]]. rewrite E. apply strip_idem.
Qed.

End SelectorFacts.

(** X14: the options of the stage selector, built on the table with the
    derived column: the selector can always be built, and it offers the
    stages of the rows of the table that are not the empty text, each
    once, in the order of their code points.  The empty stage of a row
    without description is never offered. *)
Theorem opcoes_etapa_spec (df df_e : DataFrame) (s : Series) :
  get_col df (u "Descricao") = Ok s ->
  derivar_etapa df = Ok df_e ->
  exists ops,
    opcoes_etapa df_e = Ok (map Str ops)
    /\ NoDup ops
    /\ StronglySorted (fun a b => str_leb a b = true) ops
    /\ forall e, In e ops <->
                 e <> [] /\ exists d, In d s /\ extrair_etapa d = e.
Proof.
  intros Hs Hder. unfold derivar_etapa in Hder. rewrite Hs in Hder.
  cbn [bind] in Hder. injection Hder as <-.
  set (col := map (fun d => Str (extrair_etapa d)) s).
  assert (Hcol : get_col (set_col df (u "Etapa") col) (u "Etapa") = Ok col).
  { apply get_set_col_new. unfold col. rewrite length_map.
    now apply (get_col_length df (u "Descricao")). }
  assert (Hna : forall v, In v col -> isna v = false).
  { intros v Hv. apply in_map_iff in Hv. destruct Hv as [d [<- _]].
    reflexivity. }
  set (p := fun e : valor => truthy (strip (py_str e))).
  assert (Hstr : Forall (fun v => is_str v = true) (filter p (unique col))).
  { apply Forall_forall. intros v Hv. apply filter_In in Hv.
    destruct Hv as [Hv _]. apply (unique_aux_incl col [] v) in Hv.
    apply in_map_iff in Hv. destruct Hv as [d [<- _]]. reflexivity. }
  assert (Hnd : NoDup (filter p (unique col))).
  { apply NoDup_filter. apply (unique_NoDup col Hna). }
  destruct (sorted_strs _ Hstr Hnd) as [ops [E [Hn [Hso Hin]]]].
  exists ops. split; [|split; [|split]]; try assumption.
  - unfold opcoes_etapa. rewrite Hcol. cbn [bind].
    rewrite (dropna_no_nan col Hna). exact E.
  - intros e. rewrite Hin, filter_In.
    rewrite (unique_Str col e Hna). unfold col. rewrite in_map_iff.
    unfold p. cbn [py_str]. split.
    + intros [[d [Hd Hin']] Ht]. injection Hd as Hd. split.
      * intros ->. rewrite <- Hd, extrair_etapa_strip, Hd in Ht.
        discriminate.
      * now exists d.
    + intros [Hne [d [Hd <-]]]. split.
      * now exists d.
      * rewrite extrair_etapa_strip.
        destruct (extrair_etapa d); [contradiction | reflexivity].
Qed.

Lemma opcoes_etapa_spec_witness :
  let df := mkDataFrame [u "Descricao"]
              [[Str (u "Escola X - 5º Ano | EF")]; [NaN];
               [Str (u "Creche | EI")]; [Str (u "TOTAL SECRETARIA")]] in
  exists df_e ops,
    derivar_etapa df = Ok df_e
    /\ opcoes_etapa df_e = Ok (map Str ops)
    /\ NoDup ops
    /\ StronglySorted (fun a b => str_leb a b = true) ops.
Proof.
  cbv zeta.
  destruct (opcoes_etapa_spec
              (mkDataFrame [u "Descricao"]
                 [[Str (u "Escola X - 5º Ano | EF")]; [NaN];
                  [Str (u "Creche | EI")]; [Str (u "TOTAL SECRETARIA")]])
              _ [Str (u "Escola X - 5º Ano | EF"); NaN;
                 Str (u "Creche | EI"); Str (u "TOTAL SECRETARIA")]
              eq_refl eq_refl) as [ops [E [Hn [Hs _]]]].
  eexists. exists ops. split; [reflexivity|]. split; [exact E|].
  split; assumption.
Defined.

(** X15: the municipality selector and the archive of the
    multi-workbook export are built from the same list: whenever the
    export returns an archive the selector can be built, it offers the
    sentinel first, and after it one option per entry of the archive, in
    the order of the entries, an entry being named after its option. *)
Theorem opcoes_municipio_archive (amb : Ambiente) (df : DataFrame)
  (filtros : list str) (arch : Archive) :
  gerar_xlsx_por_municipio amb df filtros = Ok arch ->
  exists ops,
    opcoes_municipio df = Ok (Str TODOS_OS_MUNICIPIOS :: ops)
    /\ List.length arch = List.length ops
    /\ map fst arch = map (fun v => py_str v ++ u ".xlsx") ops.
Proof.
  unfold gerar_xlsx_por_municipio, opcoes_municipio.
  destruct (ler_data_extracao amb) as [d|]; cbn [bind]; [|discriminate].
  destruct (get_col df (u "Municipio")) as [col|]; cbn [bind];
    [|discriminate].
  destruct (sorted (unique (dropna col))) as [ops|]; cbn [bind];
    [|discriminate].
  intros H. exists ops. split; [reflexivity|]. split.
  - rewrite (mapM_length _ _ _ H). apply enumerate_length.
  - refine (mapM_nomes _ (fun m => py_str m ++ u ".xlsx") ops _ 0 arch H).
    intros k a b. cbv beta iota zeta.
    destruct (montar_workbook _ _ _ _ _); cbn [bind]; [|discriminate].
    intros E. injection E as <-. reflexivity.
Qed.

Lemma opcoes_municipio_archive_witness :
  let df := mkDataFrame [u "Municipio"; u "Status"]
              [[Str (u "Sobral"); Str (u "Normal")];
               [Str (u "Crato"); Str (u "Crítica")];
               [NaN; Str (u "Normal")];
               [Str (u "Sobral"); Str (u "Atenção")]] in
  exists arch,
    gerar_xlsx_por_municipio sem_log df [] = Ok arch
    /\ exists ops,
        opcoes_municipio df = Ok (Str TODOS_OS_MUNICIPIOS :: ops)
        /\ List.length arch = List.length ops
        /\ map fst arch = map (fun v => py_str v ++ u ".xlsx") ops.
Proof.
  cbv zeta. eexists. split.
  - vm_compute. reflexivity.
  - apply (opcoes_municipio_archive sem_log
             (mkDataFrame [u "Municipio"; u "Status"]
                [[Str (u "Sobral"); Str (u "Normal")];
                 [Str (u "Crato"); Str (u "Crítica")];
                 [NaN; Str (u "Normal")];
                 [Str (u "Sobral"); Str (u "Atenção")]]) []).
    vm_compute. reflexivity.
Defined.

(** ** The sheet of the report *)

Section SheetFacts.

Lemma enumerate_In {A} (l : list A) (start k : nat) (a : A) :
  In (k, a) (enumerate start l) <->
  exists i, k = start + i /\ nth_error l i = Some a.
Proof.
  revert start. induction l as [|x l IH]; intros start; cbn [enumerate].
  - split; [intros [] | intros [[|i] [_ H]]; discriminate].
  - split.
    + intros [H|H].
      * injection H as <- <-. exists 0. split; [lia | reflexivity].
      * apply IH in H. destruct H as [i [-> H]].
        exists (S i). split; [lia | exact H].
    + intros [[|i] [-> H]].
      * left. injection H as <-. f_equal. lia.
      * right. apply IH. exists i. split; [lia | exact H].
Qed.

(** The cells of the header row: the names of the columns. *)
Lemma header_cells_In (cols : list str) (hs : list (coord * valor))
  (k j : nat) (v : valor) :
  mapM (fun '(j, c) => t <- check_string c ;; Ok ((1, j), Str t))
       (enumerate 1 cols) = Ok hs ->
  In ((k, S j), v) hs <->
  k = 1 /\ exists c, nth_error cols j = Some c /\ v = Str (cortar c).
Proof.
  intros H. split.
  - intros Hin.
    destruct (mapM_In_inv _ _ _ H _ Hin) as [[j' c] [Hen Hf]].
    destruct (check_string c) as [t|] eqn:Et; cbn [bind] in Hf;
      [|discriminate].
    injection Hf as Hk Hj Hv. apply enumerate_In in Hen.
    destruct Hen as [i [Hi Hn]]. assert (i = j) as -> by lia.
    split; [now symmetry|]. exists c. split; [exact Hn|].
    apply check_string_Ok in Et. destruct Et as [-> _]. now symmetry.
  - intros [-> [c [Hn ->]]].
    destruct (mapM_In _ _ _ H (S j, c)) as [b [Hb Hin]].
    { apply enumerate_In. exists j. split; [lia | exact Hn]. }
    destruct (check_string c) as [t|] eqn:Et; cbn [bind] in Hb;
      [|discriminate].
    injection Hb as <-. apply check_string_Ok in Et.
    now destruct Et as [<- _].
Qed.

(** The cells of the data rows: what [to_excel] writes for the cells of
    the frame. *)
Lemma data_cells_In (df : DataFrame) (ds : list (list (coord * valor)))
  (k j : nat) (v : valor) :
  mapM (fun j =>
          mapM (fun '(i, r) => v <- escrever (cell (j - 1) r) ;;
                               Ok ((i, j), v))
               (enumerate 2 (rows df)))
       (seq 1 (List.length (columns df))) = Ok ds ->
  In ((k, S j), v) (List.concat ds) <->
  j < List.length (columns df)
  /\ exists i r, k = i + 2 /\ nth_error (rows df) i = Some r
                 /\ escrever (cell j r) = Ok v.
Proof.
  intros H. rewrite in_concat. split.
  - intros [col [Hcol Hin]].
    destruct (mapM_In_inv _ _ _ H _ Hcol) as [j' [Hj' Hf]].
    destruct (mapM_In_inv _ _ _ Hf _ Hin) as [[i' r] [Hen Hg]].
    destruct (escrever (cell (j' - 1) r)) as [w|] eqn:Ew; cbn [bind] in Hg;
      [|discriminate].
    injection Hg as Hk Hj Hv. subst j' w. apply in_seq in Hj'.
    apply enumerate_In in Hen. destruct Hen as [i [-> Hn]].
    split; [lia|]. exists i, r. split; [lia|]. split; [exact Hn|].
    cbn [Nat.sub] in Ew. now rewrite Nat.sub_0_r in Ew.
  - intros [Hj [i [r [-> [Hn Ew]]]]].
    destruct (mapM_In _ _ _ H (S j)) as [col [Hf Hcol]].
    { apply in_seq. lia. }
    destruct (mapM_In _ _ _ Hf (2 + i, r)) as [b [Hb Hin]].
    { apply enumerate_In. exists i. split; [reflexivity | exact Hn]. }
    cbn [Nat.sub] in Hb. rewrite Nat.sub_0_r, Ew in Hb. cbn [bind] in Hb.
    injection Hb as <-. exists col. split; [exact Hcol|].
    now replace (i + 2) with (2 + i) by lia.
Qed.

End SheetFacts.

(** X16: whenever the sheet "Relatório" is built, it holds the table,
    with one value in each of its cells: row 1 holds the names of the
    columns, the name of the column in position j in column j+1, and row
    i+2 holds what [to_excel] writes for the cells of data row i, the
    cell of the column in position j in column j+1; the texts are cut as
    every text of a cell is.  A cell of the sheet is filled exactly in
    two cases: it lies in the header row, within the table's columns,
    and is filled with the colour 1e3a5f; or the table has a column
    Status and the cell lies in the row of a data row whose status is
    "Atenção" or "Crítica", within the table's columns, and is filled
    with the colour of that status. *)
Theorem sheet_relatorio_cells (df : DataFrame) (ws : Worksheet) :
  sheet_relatorio df = Ok ws ->
  (forall j c v, nth_error (columns df) j = Some c ->
                 (In ((1, S j), v) (ws_cells ws) <-> v = Str (cortar c)))
  /\ (forall i r j v,
        nth_error (rows df) i = Some r -> j < List.length (columns df) ->
        (In ((i + 2, S j), v) (ws_cells ws) <-> escrever (cell j r) = Ok v))
  /\ (forall k j cor,
        In ((k, j), cor) (ws_fills ws) <->
        (k = 1 /\ 1 <= j <= List.length (columns df) /\ cor = HEADER_FILL)
        \/ (has_col df (u "Status") = true
            /\ exists i r,
                 k = i + 2 /\ nth_error (rows df) i = Some r
                 /\ 1 <= j <= List.length (columns df)
                 /\ status_fill (cell_of df (u "Status") r) = Some cor)).
Proof.
  intros H.
  destruct (sheet_relatorio_Ok df ws H)
    as [hs [ds [wd [Hh [Hd [_ [_ [Hc [_ Hf]]]]]]]]].
  rewrite Hc, Hf. clear H Hc Hf. split; [|split].
  - intros j c v Hj. rewrite in_app_iff.
    rewrite (header_cells_In _ hs 1 j v Hh).
    rewrite (data_cells_In df ds 1 j v Hd). split.
    + intros [[_ [c' [Hc' ->]]]|[_ [i [r [Hk _]]]]]; [congruence | lia].
    + intros ->. left. split; [reflexivity|]. now exists c.
  - intros i r j v Hi Hj. rewrite in_app_iff.
    rewrite (header_cells_In _ hs (i + 2) j v Hh).
    rewrite (data_cells_In df ds (i + 2) j v Hd). split.
    + intros [[Hk _]|[_ [i' [r' [Hk [Hn Hw]]]]]]; [lia|].
      assert (i' = i) as -> by lia. congruence.
    + intros Hw. right. split; [exact Hj|]. now exists i, r.
  - intros k j cor. rewrite in_app_iff, in_map_iff.
    unfold column_cells, get_col, cell_of, has_col.
    destruct (col_index (u "Status") (columns df)) as [idx|].
    + rewrite in_flat_map. split.
      * intros [[j' [Heq Hj']]|[[row st] [Hen Hin]]].
        -- injection Heq as <- <- <-. apply in_seq in Hj'.
           left. split; [reflexivity|]. split; [lia | reflexivity].
        -- apply enumerate_In in Hen. destruct Hen as [i [-> Hnth]].
           rewrite nth_error_map in Hnth.
           destruct (nth_error (rows df) i) as [r|] eqn:Er; [|discriminate].
           cbn [option_map] in Hnth. injection Hnth as <-.
           destruct (status_fill (cell idx r)) as [fill|] eqn:Ef;
             [|destruct Hin].
           apply in_map_iff in Hin. destruct Hin as [j' [Heq Hj']].
           injection Heq as <- <- <-. apply in_seq in Hj'.
           right. split; [reflexivity|]. exists i, r.
           split; [lia|]. split; [exact Er|]. split; [lia | exact Ef].
      * intros [[-> [Hj ->]]|[_ [i [r [-> [Hnth [Hj Hfill]]]]]]].
        -- left. exists j. split; [reflexivity|]. apply in_seq. lia.
        -- right. exists (2 + i, cell idx r). split.
           ++ apply enumerate_In. exists i. split; [reflexivity|].
              rewrite nth_error_map, Hnth. reflexivity.
           ++ rewrite Hfill. apply in_map_iff. exists j. split.
              ** f_equal. f_equal. lia.
              ** apply in_seq. lia.
    + split.
      * intros [[j' [Heq Hj']]|[]].
        injection Heq as <- <- <-. apply in_seq in Hj'.
        left. split; [reflexivity|]. split; [lia | reflexivity].
      * intros [[-> [Hj ->]]|[Hst _]]; [|discriminate].
        left. exists j. split; [reflexivity|]. apply in_seq. lia.
Qed.

Lemma sheet_relatorio_cells_witness :
  let df := mkDataFrame [u "Municipio"; u "Mat. Total"; u "Status"]
              [[Str (u "Y"); Int 1200; Str (u "Normal")];
               [Str (u "Z"); Int 35; Str (u "Atenção")]] in
  exists ws,
    sheet_relatorio df = Ok ws
    /\ (forall v, In ((1, 2), v) (ws_cells ws) <-> v = Str (u "Mat. Total"))
    /\ (forall v, In ((3, 2), v) (ws_cells ws) <-> Ok (Int 35) = Ok v)
    /\ In ((1, 3), HEADER_FILL) (ws_fills ws)
    /\ In ((3, 1), YELLOW) (ws_fills ws).
Proof.
  cbv zeta. eexists. split; [vm_compute; reflexivity|].
  match goal with
  | |- context [ws_cells ?w] =>
      destruct (sheet_relatorio_cells
                  (mkDataFrame [u "Municipio"; u "Mat. Total"; u "Status"]
                     [[Str (u "Y"); Int 1200; Str (u "Normal")];
                      [Str (u "Z"); Int 35; Str (u "Atenção")]])
                  w) as [H1 [H2 H3]]; [vm_compute; reflexivity|]
  end.
  split; [|split; [|split]].
  - intros v. exact (H1 1 (u "Mat. Total") v eq_refl).
  - intros v.
    refine (H2 1 [Str (u "Z"); Int 35; Str (u "Atenção")] 1 v eq_refl _).
    cbn [columns List.length]. lia.
  - apply H3. left. split; [reflexivity|].
    split; [cbn [columns List.length]; lia | reflexivity].
  - apply H3. right. split; [reflexivity|].
    exists 1, [Str (u "Z"); Int 35; Str (u "Atenção")].
    split; [reflexivity|]. split; [reflexivity|].
    split; [cbn [columns List.length]; lia | reflexivity].
Defined.

(** ** The paths of the loader and the width of the workbook *)




